(** * Frog: a shallow embedding of the BioFrog neural-simulation core

    The Python sources under [frog_lib] are embedded function by function.
    Python floats are idealised as real numbers ([R]): rounding, NaN and
    infinities are outside the model.  [np.exp] is [exp], [np.clip] and
    [min]/[max] are [Rmin]/[Rmax], a comparison of two floats is a decision
    ([Rlt_dec], [Rle_dec], ...).  An object is a record of its attributes, a
    method is a function from the record to the updated record, and a call
    to the global random generator takes the drawn sample as an argument or
    reads it from an explicit generator state. *)

From Stdlib Require Import Reals Lra Lia List ZArith String Bool.
Import ListNotations.

Set Implicit Arguments.

#[local] Open Scope R_scope.

(** ** Numeric helpers shared by all the models *)

Module Numeric.

(** [np.clip(a, a_min, a_max)] is [np.minimum(a_max, np.maximum(a, a_min))]. *)
Definition clip (a a_min a_max : R) : R := Rmin a_max (Rmax a a_min).

(** [np.random.uniform(low, high)] from the underlying sample [u] of
    [random_sample()], which lies in [0, 1). *)
Definition uniform (low high u : R) : R := low + (high - low) * u.

(** [l[-n:]] for a positive [n]. *)
Definition last_n {A : Type} (n : nat) (l : list A) : list A :=
  skipn (List.length l - n) l.

(** [np.mean] of a list of reals. *)
Definition mean (l : list R) : R :=
  fold_right Rplus 0 l / INR (List.length l).

(** Replace the [j]-th element of a list, when there is one. *)
Fixpoint set_nth {A : Type} (l : list A) (j : nat) (v : A) : list A :=
  match l, j with
  | [], _ => []
  | _ :: tl, O => v :: tl
  | hd :: tl, S j' => hd :: set_nth tl j' v
  end.

(** The state of the global random generator: the samples it will hand
    out, each in [0, 1), and how many were taken so far. *)
Record rng : Type := mkRng {
  sample : nat -> R;
  cursor : nat
}.

(** [np.random.random()]: the next sample and the advanced generator. *)
Definition random (g : rng) : R * rng :=
  (sample g (cursor g), {| sample := sample g; cursor := S (cursor g) |}).

End Numeric.

(** ** Synapses: [core/synapse_models.py] *)

Module Synapse.
Import Numeric.

(** The attributes of a [BiologicalSynapse]. *)
Record BiologicalSynapse : Type := mkSynapse {
  max_weight : R;
  min_weight : R;
  weight : R;
  stdp_window : R;
  stdp_amplitude : R;
  facilitation_state : R;
  depression_state : R;
  facilitation_tau : R;
  depression_tau : R;
  current_efficacy : R;
  dopamine_modulation : R;
  serotonin_modulation : R;
  acetylcholine_level : R;
  presynaptic_spike_time : option R;
  postsynaptic_spike_time : option R
}.

(** Python truthiness of an [Optional[float]]: [None] and [0.0] are falsy. *)
Definition truthy (x : option R) : bool :=
  match x with
  | None => false
  | Some v => if Req_dec_T v 0 then false else true
  end.

(** [BiologicalSynapse.__init__]; [u] is the sample that
    [np.random.uniform(0.2, 0.8)] draws when the conditional expression
    reaches it. *)
Definition init (max_weight0 : R) (initial_weight : option R) (min_weight0 : R)
    (stdp_window0 stdp_amplitude0 : R) (u : R) : BiologicalSynapse :=
  {| max_weight := max_weight0;
     min_weight := min_weight0;
     weight := match initial_weight with
               | Some w => if truthy initial_weight then w else uniform 0.2 0.8 u
               | None => uniform 0.2 0.8 u
               end;
     stdp_window := stdp_window0;
     stdp_amplitude := stdp_amplitude0;
     facilitation_state := 0;
     depression_state := 0;
     facilitation_tau := 50;
     depression_tau := 200;
     current_efficacy := 1;
     dopamine_modulation := 0.5;
     serotonin_modulation := 0.5;
     acetylcholine_level := 0.3;
     presynaptic_spike_time := None;
     postsynaptic_spike_time := None |}.

(** The constructor with its default arguments
    ([max_weight=1.0, initial_weight=None, min_weight=0.0, stdp_window=50.0,
    stdp_amplitude=0.01]). *)
Definition init_default (u : R) : BiologicalSynapse := init 1 None 0 50 0.01 u.

Definition set_weight (s : BiologicalSynapse) (w : R) : BiologicalSynapse :=
  {| max_weight := max_weight s;
     min_weight := min_weight s;
     weight := w;
     stdp_window := stdp_window s;
     stdp_amplitude := stdp_amplitude s;
     facilitation_state := facilitation_state s;
     depression_state := depression_state s;
     facilitation_tau := facilitation_tau s;
     depression_tau := depression_tau s;
     current_efficacy := current_efficacy s;
     dopamine_modulation := dopamine_modulation s;
     serotonin_modulation := serotonin_modulation s;
     acetylcholine_level := acetylcholine_level s;
     presynaptic_spike_time := presynaptic_spike_time s;
     postsynaptic_spike_time := postsynaptic_spike_time s |}.

(** The blend [0.7 * dopamine_modulation + 0.3 * serotonin_modulation]. *)
Definition modulation (s : BiologicalSynapse) : R :=
  0.7 * dopamine_modulation s + 0.3 * serotonin_modulation s.

(** [BiologicalSynapse.apply_stdp]. *)
Definition apply_stdp (s : BiologicalSynapse)
    (presynaptic postsynaptic : option R) : BiologicalSynapse :=
  match presynaptic, postsynaptic with
  | Some pre, Some post =>
      let delta_t := post - pre in
      if Rlt_dec (Rabs delta_t) (stdp_window s) then
        let weight_change :=
          if Rgt_dec delta_t 0
          then stdp_amplitude s * exp (- delta_t / stdp_window s)
          else - stdp_amplitude s * exp (delta_t / stdp_window s) in
        let weight_change := weight_change * modulation s in
        set_weight s (clip (weight s + weight_change) (min_weight s) (max_weight s))
      else s
  | _, _ => s
  end.

(** [BiologicalSynapse.apply_short_term_plasticity]. *)
Definition apply_short_term_plasticity (s : BiologicalSynapse) (dt : R)
    (spike : bool) : BiologicalSynapse :=
  let facilitation :=
    if spike then 1 else facilitation_state s * exp (- dt / facilitation_tau s) in
  let depression :=
    if spike then 1 else depression_state s * exp (- dt / depression_tau s) in
  let efficacy := 1 + 0.3 * facilitation - 0.5 * depression in
  {| max_weight := max_weight s;
     min_weight := min_weight s;
     weight := weight s;
     stdp_window := stdp_window s;
     stdp_amplitude := stdp_amplitude s;
     facilitation_state := facilitation;
     depression_state := depression;
     facilitation_tau := facilitation_tau s;
     depression_tau := depression_tau s;
     current_efficacy := clip efficacy 0.1 2;
     dopamine_modulation := dopamine_modulation s;
     serotonin_modulation := serotonin_modulation s;
     acetylcholine_level := acetylcholine_level s;
     presynaptic_spike_time := presynaptic_spike_time s;
     postsynaptic_spike_time := postsynaptic_spike_time s |}.


(** [BiologicalSynapse.update_modulators]. *)
Definition update_modulators (s : BiologicalSynapse)
    (dopamine serotonin acetylcholine : R) : BiologicalSynapse :=
  {| max_weight := max_weight s;
     min_weight := min_weight s;
     weight := weight s;
     stdp_window := stdp_window s;
     stdp_amplitude := stdp_amplitude s;
     facilitation_state := facilitation_state s;
     depression_state := depression_state s;
     facilitation_tau := facilitation_tau s;
     depression_tau := depression_tau s;
     current_efficacy := current_efficacy s;
     dopamine_modulation := dopamine;
     serotonin_modulation := serotonin;
     acetylcholine_level := acetylcholine;
     presynaptic_spike_time := presynaptic_spike_time s;
     postsynaptic_spike_time := postsynaptic_spike_time s |}.

(** One call on a synapse, and a finite sequence of calls applied in order. *)
Inductive call : Type :=
| CallStdp (presynaptic postsynaptic : option R)
| CallStp (dt : R) (spike : bool).

Definition perform (s : BiologicalSynapse) (c : call) : BiologicalSynapse :=
  match c with
  | CallStdp pre post => apply_stdp s pre post
  | CallStp dt spike => apply_short_term_plasticity s dt spike
  end.

Definition perform_all (s : BiologicalSynapse) (cs : list call) : BiologicalSynapse :=
  fold_left perform cs s.

(** The bounds of the data model. *)
Definition weight_in_bounds (s : BiologicalSynapse) : Prop :=
  min_weight s <= weight s <= max_weight s.



(** What [apply_stdp] leaves alone when it does write the weight. *)
Definition same_except_weight (s s' : BiologicalSynapse) : Prop :=
  max_weight s' = max_weight s /\ min_weight s' = min_weight s /\
  stdp_window s' = stdp_window s /\ stdp_amplitude s' = stdp_amplitude s /\
  facilitation_state s' = facilitation_state s /\
  depression_state s' = depression_state s /\
  facilitation_tau s' = facilitation_tau s /\
  depression_tau s' = depression_tau s /\
  current_efficacy s' = current_efficacy s /\
  dopamine_modulation s' = dopamine_modulation s /\
  serotonin_modulation s' = serotonin_modulation s /\
  acetylcholine_level s' = acetylcholine_level s /\
  presynaptic_spike_time s' = presynaptic_spike_time s /\
  postsynaptic_spike_time s' = postsynaptic_spike_time s.

End Synapse.

(** ** Neurons: [core/biological_neuron.py] *)

Module Neuron.
Import Numeric.

(** The attributes of a [LIFNeuron]; the two subclasses extend them. *)
Record LIFNeuron : Type := mkLIF {
  rest_potential : R;
  threshold : R;
  membrane_potential : R;
  tau_membrane : R;
  tau_refractory : R;
  max_firing_rate : R;
  spike_output : R;
  refractory_counter : R;
  last_spike_time : R;
  membrane_potential_history : list R
}.

(** [LIFNeuron.__init__]. *)
Definition init (rest_potential0 threshold0 tau_membrane0 tau_refractory0
    max_firing_rate0 : R) : LIFNeuron :=
  {| rest_potential := rest_potential0;
     threshold := threshold0;
     membrane_potential := rest_potential0;
     tau_membrane := tau_membrane0;
     tau_refractory := tau_refractory0;
     max_firing_rate := max_firing_rate0;
     spike_output := 0;
     refractory_counter := 0;
     last_spike_time := -1000;
     membrane_potential_history := [] |}.

(** [LIFNeuron()] with the default arguments. *)
Definition init_default : LIFNeuron := init (-70) (-40) 20 2 200.

(** The state attributes written by [integrate] and [reset]; the
    constructor's parameters are read only. *)
Definition with_state (n : LIFNeuron) (potential output counter last : R)
    (history : list R) : LIFNeuron :=
  {| rest_potential := rest_potential n;
     threshold := threshold n;
     membrane_potential := potential;
     tau_membrane := tau_membrane n;
     tau_refractory := tau_refractory n;
     max_firing_rate := max_firing_rate n;
     spike_output := output;
     refractory_counter := counter;
     last_spike_time := last;
     membrane_potential_history := history |}.

(** The refractory branch shared by the three [integrate] methods:
    [refractory_counter -= dt; spike_output = 0.0;
     membrane_potential = rest_potential; return]. *)
Definition refractory_step (n : LIFNeuron) (dt : R) : LIFNeuron :=
  with_state n (rest_potential n) 0 (refractory_counter n - dt)
    (last_spike_time n) (membrane_potential_history n).

(** Leak, input current and spike generation, shared by the three
    [integrate] methods; [keep] says whether the potential is appended to
    the history (only the base class does it). *)
Definition leak_and_fire (n : LIFNeuron) (dt current : R) (keep : bool) : LIFNeuron :=
  let decay := exp (- dt / tau_membrane n) in
  let v := rest_potential n + (membrane_potential n - rest_potential n) * decay in
  let v := v + current * dt / tau_membrane n in
  let fired := if Rge_dec v (threshold n) then true else false in
  let history :=
    if keep then
      let h := membrane_potential_history n ++ [v] in
      if (1000 <? List.length h)%nat then last_n 1000 h else h
    else membrane_potential_history n in
  with_state n v
    (if fired then 1 else 0)
    (if fired then tau_refractory n else refractory_counter n)
    ((if fired then 0 else last_spike_time n) + dt)
    history.

(** [LIFNeuron.integrate]. *)
Definition integrate (n : LIFNeuron) (dt input_current : R) : LIFNeuron :=
  if Rgt_dec (refractory_counter n) 0 then refractory_step n dt
  else leak_and_fire n dt input_current true.

(** [LIFNeuron.reset], inherited unchanged by both subclasses. *)
Definition reset (n : LIFNeuron) : LIFNeuron :=
  with_state n (rest_potential n) 0 0 (-1000) [].

(** The attributes of a [PyramidalNeuron]. *)
Record PyramidalNeuron : Type := mkPyramidal {
  pyr_lif : LIFNeuron;
  apical_dendrite_input : R;
  basal_dendrite_input : R;
  soma_input : R;
  dendritic_plateau_potential : R;
  dendritic_spike_threshold : R
}.

(** [PyramidalNeuron.__init__], which forwards its keyword arguments. *)
Definition pyramidal_init (rest_potential0 threshold0 tau_membrane0 tau_refractory0
    max_firing_rate0 : R) : PyramidalNeuron :=
  {| pyr_lif := init rest_potential0 threshold0 tau_membrane0 tau_refractory0
                  max_firing_rate0;
     apical_dendrite_input := 0;
     basal_dendrite_input := 0;
     soma_input := 0;
     dendritic_plateau_potential := 0;
     dendritic_spike_threshold := -30 |}.

Definition pyramidal_default : PyramidalNeuron := pyramidal_init (-70) (-40) 20 2 200.

(** [PyramidalNeuron.integrate]; the local [soma_input] is not the
    attribute of that name, which no method writes. *)
Definition pyramidal_integrate (n : PyramidalNeuron) (dt basal_input : R)
    (apical_input : option R) : PyramidalNeuron :=
  let apical_input := match apical_input with Some a => a | None => 0 end in
  if Rgt_dec (refractory_counter (pyr_lif n)) 0 then
    {| pyr_lif := refractory_step (pyr_lif n) dt;
       apical_dendrite_input := apical_dendrite_input n;
       basal_dendrite_input := basal_dendrite_input n;
       soma_input := soma_input n;
       dendritic_plateau_potential := dendritic_plateau_potential n;
       dendritic_spike_threshold := dendritic_spike_threshold n |}
  else
    let basal := 0.9 * basal_dendrite_input n + 0.1 * basal_input in
    let apical := 0.9 * apical_dendrite_input n + 0.1 * apical_input in
    let plateau :=
      if Rgt_dec apical_input 0.5 then
        if Rgt_dec basal 0.3 then 1
        else dendritic_plateau_potential n * exp (- dt / 50)
      else dendritic_plateau_potential n * exp (- dt / 50) in
    let soma := basal_input + 0.3 * apical_input * plateau in
    {| pyr_lif := leak_and_fire (pyr_lif n) dt soma false;
       apical_dendrite_input := apical;
       basal_dendrite_input := basal;
       soma_input := soma_input n;
       dendritic_plateau_potential := plateau;
       dendritic_spike_threshold := dendritic_spike_threshold n |}.

(** [reset] on a pyramidal neuron is [LIFNeuron.reset]: the class does not
    override it. *)
Definition pyramidal_reset (n : PyramidalNeuron) : PyramidalNeuron :=
  {| pyr_lif := reset (pyr_lif n);
     apical_dendrite_input := apical_dendrite_input n;
     basal_dendrite_input := basal_dendrite_input n;
     soma_input := soma_input n;
     dendritic_plateau_potential := dendritic_plateau_potential n;
     dendritic_spike_threshold := dendritic_spike_threshold n |}.

(** The attributes of a [FastSpikingInterneuron]. *)
Record FastSpikingInterneuron : Type := mkFast {
  fast_lif : LIFNeuron;
  adaptation_current : R;
  adaptation_tau : R;
  spike_count : Z
}.

(** [FastSpikingInterneuron.__init__]: the membrane and
    refractory constants are fixed to [5.0] and [1.0]. *)
Definition fast_init (rest_potential0 threshold0 max_firing_rate0 : R)
    : FastSpikingInterneuron :=
  {| fast_lif := init rest_potential0 threshold0 5 1 max_firing_rate0;
     adaptation_current := 0;
     adaptation_tau := 100;
     spike_count := 0 |}.

Definition fast_default : FastSpikingInterneuron := fast_init (-70) (-40) 200.

(** [FastSpikingInterneuron.integrate]. *)
Definition fast_integrate (n : FastSpikingInterneuron) (dt input_current : R)
    : FastSpikingInterneuron :=
  if Rgt_dec (refractory_counter (fast_lif n)) 0 then
    {| fast_lif := refractory_step (fast_lif n) dt;
       adaptation_current := adaptation_current n;
       adaptation_tau := adaptation_tau n;
       spike_count := spike_count n |}
  else
    let adaptation := adaptation_current n * exp (- dt / adaptation_tau n) in
    let net_input := input_current - 0.5 * adaptation in
    let lif := leak_and_fire (fast_lif n) dt net_input false in
    let fired := if Rge_dec (membrane_potential lif) (threshold (fast_lif n))
                 then true else false in
    {| fast_lif := lif;
       adaptation_current := if fired then adaptation + 5 else adaptation;
       adaptation_tau := adaptation_tau n;
       spike_count := if fired then (spike_count n + 1)%Z else spike_count n |}.

(** [reset] on an interneuron is [LIFNeuron.reset] as well. *)
Definition fast_reset (n : FastSpikingInterneuron) : FastSpikingInterneuron :=
  {| fast_lif := reset (fast_lif n);
     adaptation_current := adaptation_current n;
     adaptation_tau := adaptation_tau n;
     spike_count := spike_count n |}.

(** A neuron of any of the three classes. *)
Inductive neuron : Type :=
| Basic (n : LIFNeuron)
| Dendritic (n : PyramidalNeuron)
| FastAdapting (n : FastSpikingInterneuron).

(** The [LIFNeuron] attributes of a neuron of any class. *)
Definition lif_of (n : neuron) : LIFNeuron :=
  match n with
  | Basic n => n
  | Dendritic n => pyr_lif n
  | FastAdapting n => fast_lif n
  end.

(** The arguments of one [integrate] call: [dt], the input current (the
    basal input of a pyramidal neuron) and the optional apical input that
    only [PyramidalNeuron.integrate] takes. *)
Record drive : Type := mkDrive {
  drive_dt : R;
  drive_current : R;
  drive_apical : option R
}.

(** [n.integrate(...)] by dynamic dispatch on the class of [n]. *)
Definition integrate_any (n : neuron) (d : drive) : neuron :=
  match n with
  | Basic n => Basic (integrate n (drive_dt d) (drive_current d))
  | Dendritic n =>
      Dendritic (pyramidal_integrate n (drive_dt d) (drive_current d) (drive_apical d))
  | FastAdapting n => FastAdapting (fast_integrate n (drive_dt d) (drive_current d))
  end.

(** [n.reset()] by dynamic dispatch. *)
Definition reset_any (n : neuron) : neuron :=
  match n with
  | Basic n => Basic (reset n)
  | Dendritic n => Dendritic (pyramidal_reset n)
  | FastAdapting n => FastAdapting (fast_reset n)
  end.

(** A finite sequence of [integrate] calls. *)
Definition integrate_all (n : neuron) (ds : list drive) : neuron :=
  fold_left integrate_any ds n.

(** A freshly constructed or a reset instance. *)
Inductive initial : neuron -> Prop :=
| initial_basic (rest thr tau_m tau_r rate : R) :
    initial (Basic (init rest thr tau_m tau_r rate))
| initial_dendritic (rest thr tau_m tau_r rate : R) :
    initial (Dendritic (pyramidal_init rest thr tau_m tau_r rate))
| initial_fast (rest thr rate : R) :
    initial (FastAdapting (fast_init rest thr rate))
| initial_reset (n : neuron) :
    initial (reset_any n).

(** What the sequence of [integrate] calls maintains: the countdown is
    never below [- D], where [D] bounds every [dt], and the output is
    binary. *)
Definition countdown_invariant (D : R) (n : LIFNeuron) : Prop :=
  0 <= tau_refractory n /\ - D <= refractory_counter n /\
  (spike_output n = 0 \/ spike_output n = 1).

(** The state attributes of a [LIFNeuron] as [__init__] and [reset] set
    them. *)
Definition lif_state_fresh (n : LIFNeuron) : Prop :=
  membrane_potential n = rest_potential n /\
  spike_output n = 0 /\
  refractory_counter n = 0 /\
  last_spike_time n = -1000 /\
  membrane_potential_history n = [].

(** The constructor parameters of a [LIFNeuron]. *)
Definition same_parameters (n n' : LIFNeuron) : Prop :=
  rest_potential n' = rest_potential n /\
  threshold n' = threshold n /\
  tau_membrane n' = tau_membrane n /\
  tau_refractory n' = tau_refractory n /\
  max_firing_rate n' = max_firing_rate n.

End Neuron.

(** ** Neuromodulator field: [core/neurotransmitter_diffusion.py] *)

Module Diffusion.
Import Numeric.

(** A two-dimensional [numpy] array of floats, row by row. *)
Definition grid : Type := list (list R).

(** [np.zeros((n, n))]. *)
Definition zeros (n : nat) : grid := repeat (repeat 0 n) n.

(** [a.fill(v)]: every cell becomes [v], the shape stays. *)
Definition fill (a : grid) (v : R) : grid := map (map (fun _ => v)) a.

(** The sum of all cells, [a.sum()]. *)
Definition grid_sum (a : grid) : R :=
  fold_right Rplus 0 (map (fold_right Rplus 0) a).

(** [a[i, j]] for indices inside the array. *)
Definition cell (a : grid) (i j : nat) : R := nth j (nth i a []) 0.

(** The value a zero-padded read sees at [(i, j)]: [0] outside the array
    ([boundary='fill', fillvalue=0.0]). *)
Definition padded (a : grid) (i j : Z) : R :=
  if ((i <? 0) || (j <? 0))%Z then 0 else cell a (Z.to_nat i) (Z.to_nat j).

(** The attributes of a [NeurotransmitterDiffusion]. *)
Record NeurotransmitterDiffusion : Type := mkDiffusion {
  space_size : Z * Z;
  diffusion_rate : R;
  grid_resolution : Z;
  grid_size : Z;
  dopamine_map : grid;
  serotonin_map : grid;
  acetylcholine_map : grid;
  dopamine_baseline : R;
  serotonin_baseline : R;
  acetylcholine_baseline : R;
  dopamine_sources : list (R * R);
  serotonin_sources : list (R * R);
  acetylcholine_sources : list (R * R);
  decay_tau : R;
  diffusion_kernel : grid
}.

(** One entry of the unnormalised kernel of [_create_diffusion_kernel]
    ([size = 3], [sigma = 1.0]). *)
Definition kernel_entry (i j : nat) : R :=
  let x := INR i - 1 in
  let y := INR j - 1 in
  exp (- (x * x + y * y) / (2 * (1 * 1))).

(** [_create_diffusion_kernel]: the Gaussian kernel divided by its sum. *)
Definition create_diffusion_kernel : grid :=
  let kernel := map (fun i => map (fun j => kernel_entry i j) (seq 0 3)) (seq 0 3) in
  let total := grid_sum kernel in
  map (map (fun v => v / total)) kernel.

(** [int(np.sqrt(w * h / resolution ** 2))] on integer arguments: the
    integer square root of the floored quotient. *)
Definition grid_size_of (w h resolution : Z) : Z :=
  Z.sqrt ((w * h) / (resolution * resolution)).

(** [NeurotransmitterDiffusion.__init__]; [None] stands for the exception
    Python raises on a zero resolution (division by zero) or a negative
    area (the square root is not a number). *)
Definition init (space : Z * Z) (rate : R) (resolution : Z)
    : option NeurotransmitterDiffusion :=
  if (resolution =? 0)%Z then None
  else if (fst space * snd space <? 0)%Z then None
  else
    let g := grid_size_of (fst space) (snd space) resolution in
    Some {| space_size := space;
            diffusion_rate := rate;
            grid_resolution := resolution;
            grid_size := g;
            dopamine_map := zeros (Z.to_nat g);
            serotonin_map := zeros (Z.to_nat g);
            acetylcholine_map := zeros (Z.to_nat g);
            dopamine_baseline := 0.3;
            serotonin_baseline := 0.3;
            acetylcholine_baseline := 0.2;
            dopamine_sources := [];
            serotonin_sources := [];
            acetylcholine_sources := [];
            decay_tau := 500;
            diffusion_kernel := create_diffusion_kernel |}.

(** [NeurotransmitterDiffusion()] with the default arguments
    ([space_size=(400, 400), diffusion_rate=0.1, grid_resolution=20]). *)
Definition init_default : option NeurotransmitterDiffusion :=
  init (400, 400)%Z 0.1 20%Z.

Definition with_maps (d : NeurotransmitterDiffusion) (da se ach : grid)
    : NeurotransmitterDiffusion :=
  {| space_size := space_size d;
     diffusion_rate := diffusion_rate d;
     grid_resolution := grid_resolution d;
     grid_size := grid_size d;
     dopamine_map := da;
     serotonin_map := se;
     acetylcholine_map := ach;
     dopamine_baseline := dopamine_baseline d;
     serotonin_baseline := serotonin_baseline d;
     acetylcholine_baseline := acetylcholine_baseline d;
     dopamine_sources := dopamine_sources d;
     serotonin_sources := serotonin_sources d;
     acetylcholine_sources := acetylcholine_sources d;
     decay_tau := decay_tau d;
     diffusion_kernel := diffusion_kernel d |}.

(** [int(x)] on a float: truncation toward zero. *)
Definition int_of (x : R) : Z :=
  if Rle_dec 0 x then Int_part x else (- Int_part (- x))%Z.

(** [_position_to_grid]; [None] stands for the division by a zero
    dimension of the space. *)
Definition position_to_grid (d : NeurotransmitterDiffusion) (position : R * R)
    : option (Z * Z) :=
  let '(w, h) := space_size d in
  if ((w =? 0) || (h =? 0))%Z then None
  else
    let x := int_of (fst position / IZR w * IZR (grid_size d)) in
    let y := int_of (snd position / IZR h * IZR (grid_size d)) in
    Some (Z.min (grid_size d - 1) (Z.max x 0), Z.min (grid_size d - 1) (Z.max y 0)).

(** [a[i, j] = min(1.0, a[i, j] + amount)]; [None] stands for the
    [IndexError] of an index outside the array.  A negative index counts
    from the end, as in [numpy]. *)
Definition add_at (a : grid) (pos : Z * Z) (amount : R) : option grid :=
  let rows := Z.of_nat (List.length a) in
  let i := if (fst pos <? 0)%Z then (fst pos + rows)%Z else fst pos in
  if ((i <? 0) || (rows <=? i))%Z then None
  else
    let row := nth (Z.to_nat i) a [] in
    let cols := Z.of_nat (List.length row) in
    let j := if (snd pos <? 0)%Z then (snd pos + cols)%Z else snd pos in
    if ((j <? 0) || (cols <=? j))%Z then None
    else
      let v := Rmin 1 (cell a (Z.to_nat i) (Z.to_nat j) + amount) in
      Some (set_nth a (Z.to_nat i) (set_nth row (Z.to_nat j) v)).

(** [release]. *)
Definition release (d : NeurotransmitterDiffusion) (position : R * R) (amount : R)
    (transmitter_type : string) : option NeurotransmitterDiffusion :=
  match position_to_grid d position with
  | None => None
  | Some grid_pos =>
      if String.eqb transmitter_type "dopamine" then
        option_map (fun m => with_maps d m (serotonin_map d) (acetylcholine_map d))
                   (add_at (dopamine_map d) grid_pos amount)
      else if String.eqb transmitter_type "serotonin" then
        option_map (fun m => with_maps d (dopamine_map d) m (acetylcholine_map d))
                   (add_at (serotonin_map d) grid_pos amount)
      else if String.eqb transmitter_type "acetylcholine" then
        option_map (fun m => with_maps d (dopamine_map d) (serotonin_map d) m)
                   (add_at (acetylcholine_map d) grid_pos amount)
      else Some d
  end.

(** One cell of [signal.convolve2d(a, kernel, mode='same', boundary='fill',
    fillvalue=0.0)]: the kernel is centred on the cell and the array is
    read with zero padding. *)
Definition convolve_at (a kernel : grid) (i j : Z) : R :=
  let ci := ((Z.of_nat (List.length kernel) - 1) / 2)%Z in
  fold_right Rplus 0
    (map (fun p =>
            let krow := nth p kernel [] in
            let cj := ((Z.of_nat (List.length krow) - 1) / 2)%Z in
            fold_right Rplus 0
              (map (fun q =>
                      nth q krow 0 *
                      padded a (i + ci - Z.of_nat p) (j + cj - Z.of_nat q))
                   (seq 0 (List.length krow))))
         (seq 0 (List.length kernel))).

(** [signal.convolve2d(...)] with [mode='same']: the result has the shape
    of [a]. *)
Definition convolve2d (a kernel : grid) : grid :=
  map (fun i =>
         map (fun j => convolve_at a kernel (Z.of_nat i) (Z.of_nat j))
             (seq 0 (List.length (nth i a []))))
      (seq 0 (List.length a)).

(** What the decay stage of [_apply_diffusion] does to one diffused value:
    relaxation toward [self.dopamine_baseline], then [np.clip(., 0, 1)]. *)
Definition relax (d : NeurotransmitterDiffusion) (dt v : R) : R :=
  let decay := exp (- dt / decay_tau d) in
  clip (dopamine_baseline d + (v - dopamine_baseline d) * decay) 0 1.

(** [_apply_diffusion], on the path where the convolution succeeds. *)
Definition apply_diffusion (d : NeurotransmitterDiffusion) (concentration_map : grid)
    (dt : R) : grid :=
  let diffused := convolve2d concentration_map (diffusion_kernel d) in
  map (map (relax d dt)) diffused.

(** [diffuse]. *)
Definition diffuse (d : NeurotransmitterDiffusion) (dt : R) : NeurotransmitterDiffusion :=
  with_maps d (apply_diffusion d (dopamine_map d) dt)
              (apply_diffusion d (serotonin_map d) dt)
              (apply_diffusion d (acetylcholine_map d) dt).

(** [get_concentration]. *)
Definition get_concentration (d : NeurotransmitterDiffusion) (position : R * R)
    (transmitter_type : string) : option R :=
  match position_to_grid d position with
  | None => None
  | Some (x, y) =>
      let read (a : grid) :=
        let rows := Z.of_nat (List.length a) in
        let i := if (x <? 0)%Z then (x + rows)%Z else x in
        let cols := Z.of_nat (List.length (nth (Z.to_nat i) a [])) in
        let j := if (y <? 0)%Z then (y + cols)%Z else y in
        if ((i <? 0) || (rows <=? i) || (j <? 0) || (cols <=? j))%Z then None
        else Some (cell a (Z.to_nat i) (Z.to_nat j)) in
      if String.eqb transmitter_type "dopamine" then read (dopamine_map d)
      else if String.eqb transmitter_type "serotonin" then read (serotonin_map d)
      else if String.eqb transmitter_type "acetylcholine" then read (acetylcholine_map d)
      else Some 0
  end.

(** [reset]: each map is filled with its own baseline. *)
Definition reset (d : NeurotransmitterDiffusion) : NeurotransmitterDiffusion :=
  with_maps d (fill (dopamine_map d) (dopamine_baseline d))
              (fill (serotonin_map d) (serotonin_baseline d))
              (fill (acetylcholine_map d) (acetylcholine_baseline d)).

(** The states a field goes through: built by the constructor, then any
    number of releases of a non-negative amount, diffusion steps and
    resets. *)
Inductive reachable : NeurotransmitterDiffusion -> Prop :=
| reach_init (space : Z * Z) (rate : R) (resolution : Z) (d : NeurotransmitterDiffusion) :
    init space rate resolution = Some d -> reachable d
| reach_release (d d' : NeurotransmitterDiffusion) (position : R * R) (amount : R)
    (transmitter_type : string) :
    reachable d -> 0 <= amount ->
    release d position amount transmitter_type = Some d' -> reachable d'
| reach_diffuse (d : NeurotransmitterDiffusion) (dt : R) :
    reachable d -> reachable (diffuse d dt)
| reach_reset (d : NeurotransmitterDiffusion) :
    reachable d -> reachable (reset d).

(** Every cell of the array satisfies [P]. *)
Definition all_cells (P : R -> Prop) (a : grid) : Prop := Forall (Forall P) a.

Definition in_unit (v : R) : Prop := 0 <= v <= 1.

(** [(i, j)] is an index of the array. *)
Definition in_grid (a : grid) (i j : nat) : Prop :=
  (i < List.length a)%nat /\ (j < List.length (nth i a []))%nat.

(** The array has [g] rows of [g] cells. *)
Definition square (g : Z) (a : grid) : Prop :=
  Z.of_nat (List.length a) = g /\
  Forall (fun row => Z.of_nat (List.length row) = g) a.

(** What a release of dopamine needs in order not to raise: a space with
    non-zero dimensions and a dopamine map of [grid_size] by [grid_size]
    cells, [grid_size] being at least one. *)
Definition ready (d : NeurotransmitterDiffusion) : Prop :=
  fst (space_size d) <> 0%Z /\ snd (space_size d) <> 0%Z /\
  (1 <= grid_size d)%Z /\
  square (grid_size d) (dopamine_map d).

(** What every reachable field satisfies: concentrations in [[0, 1]] and
    the constants of the constructor. *)
Definition field_invariant (d : NeurotransmitterDiffusion) : Prop :=
  all_cells in_unit (dopamine_map d) /\
  all_cells in_unit (serotonin_map d) /\
  all_cells in_unit (acetylcholine_map d) /\
  dopamine_baseline d = 0.3 /\
  serotonin_baseline d = 0.3 /\
  acetylcholine_baseline d = 0.2 /\
  decay_tau d = 500.

(** The field [NeurotransmitterDiffusion()] builds: a 20 x 20 grid. *)
Definition default_field : NeurotransmitterDiffusion :=
  {| space_size := (400, 400)%Z;
     diffusion_rate := 0.1;
     grid_resolution := 20%Z;
     grid_size := 20%Z;
     dopamine_map := zeros 20;
     serotonin_map := zeros 20;
     acetylcholine_map := zeros 20;
     dopamine_baseline := 0.3;
     serotonin_baseline := 0.3;
     acetylcholine_baseline := 0.2;
     dopamine_sources := [];
     serotonin_sources := [];
     acetylcholine_sources := [];
     decay_tau := 500;
     diffusion_kernel := create_diffusion_kernel |}.

(** [v'] is no farther from the baseline [b] than [v], on the same side,
    and strictly nearer unless [v] is already there. *)
Definition toward (b v v' : R) : Prop :=
  (b <= v -> b <= v' /\ v' <= v) /\
  (v <= b -> v <= v' /\ v' <= b) /\
  (v <> b -> Rabs (v' - b) < Rabs (v - b)).

End Diffusion.

(** ** Tectum: the data and [reset] of [architecture/tectum.py] *)

Module Tectum.
Import Numeric.

(** The attributes of a [TectalColumn]. *)
Record TectalColumn : Type := mkColumn {
  position : R * R;
  preferred_direction : R;
  pyramidal_neurons : list Neuron.PyramidalNeuron;
  interneurons : list Neuron.FastSpikingInterneuron;
  output_neurons : list Neuron.PyramidalNeuron;
  pyramidal_to_interneurons : list (list Synapse.BiologicalSynapse);
  interneurons_to_output : list (list Synapse.BiologicalSynapse);
  output : R;
  direction_selectivity : R
}.

(** [[BiologicalSynapse() for _ in range(n)]]: each constructor call takes
    one sample of the generator. *)
Fixpoint synapse_row (n : nat) (g : rng) : list Synapse.BiologicalSynapse * rng :=
  match n with
  | O => ([], g)
  | S n' =>
      let '(u, g1) := random g in
      let '(rest, g2) := synapse_row n' g1 in
      (Synapse.init_default u :: rest, g2)
  end.

(** [[[BiologicalSynapse() for _ in range(cols)] for _ in range(rows)]]. *)
Fixpoint synapse_matrix (rows cols : nat) (g : rng)
    : list (list Synapse.BiologicalSynapse) * rng :=
  match rows with
  | O => ([], g)
  | S rows' =>
      let '(row, g1) := synapse_row cols g in
      let '(rest, g2) := synapse_matrix rows' cols g1 in
      (row :: rest, g2)
  end.

(** [TectalColumn.__init__]. *)
Definition column_init (position0 : R * R) (preferred_direction0 : R) (g : rng)
    : TectalColumn * rng :=
  let '(p2i, g1) := synapse_matrix 8 4 g in
  let '(i2o, g2) := synapse_matrix 4 2 g1 in
  ({| position := position0;
      preferred_direction := preferred_direction0;
      pyramidal_neurons := repeat Neuron.pyramidal_default 8;
      interneurons := repeat Neuron.fast_default 4;
      output_neurons := repeat Neuron.pyramidal_default 2;
      pyramidal_to_interneurons := p2i;
      interneurons_to_output := i2o;
      output := 0;
      direction_selectivity := 1 |}, g2).

(** [TectalColumn.reset]: the neurons are reset, nothing else is written. *)
Definition column_reset (c : TectalColumn) : TectalColumn :=
  {| position := position c;
     preferred_direction := preferred_direction c;
     pyramidal_neurons := map Neuron.pyramidal_reset (pyramidal_neurons c);
     interneurons := map Neuron.fast_reset (interneurons c);
     output_neurons := map Neuron.pyramidal_reset (output_neurons c);
     pyramidal_to_interneurons := pyramidal_to_interneurons c;
     interneurons_to_output := interneurons_to_output c;
     output := output c;
     direction_selectivity := direction_selectivity c |}.

(** The attributes of a [Tectum]. *)
Record Tectum : Type := mkTectum {
  num_columns : Z;
  neurons_per_column : Z;
  columns : list TectalColumn;
  tectal_output : list R;
  dominant_direction : R
}.

(** The loop of [Tectum.__init__] over [i in range(columns)], from [i]
    for [n] more columns. *)
Fixpoint build_columns (total : Z) (i : Z) (n : nat) (g : rng)
    : list TectalColumn * rng :=
  match n with
  | O => ([], g)
  | S n' =>
      let x := IZR (i mod 4) * 100 in
      let y := IZR (i / 4) * 100 in
      let preferred_dir := IZR i / IZR total * 2 * PI in
      let '(column, g1) := column_init (x, y) preferred_dir g in
      let '(rest, g2) := build_columns total (i + 1) n' g1 in
      (column :: rest, g2)
  end.

(** [Tectum.__init__]. *)
Definition init (columns0 neurons_per_column0 : Z) (g : rng) : Tectum * rng :=
  let '(cols, g1) := build_columns columns0 0 (Z.to_nat columns0) g in
  ({| num_columns := columns0;
      neurons_per_column := neurons_per_column0;
      columns := cols;
      tectal_output := repeat 0 (Z.to_nat columns0);
      dominant_direction := 0 |}, g1).

(** [Tectum.reset]: the columns are reset and [tectal_output] is zeroed;
    [dominant_direction] is not written. *)
Definition reset (t : Tectum) : Tectum :=
  {| num_columns := num_columns t;
     neurons_per_column := neurons_per_column t;
     columns := map column_reset (columns t);
     tectal_output := repeat 0 (Z.to_nat (num_columns t));
     dominant_direction := dominant_direction t |}.

(** Every neuron of a column has the state of a fresh one. *)
Definition column_neurons_fresh (c : TectalColumn) : Prop :=
  Forall (fun n => Neuron.lif_state_fresh (Neuron.pyr_lif n)) (pyramidal_neurons c) /\
  Forall (fun n => Neuron.lif_state_fresh (Neuron.fast_lif n)) (interneurons c) /\
  Forall (fun n => Neuron.lif_state_fresh (Neuron.pyr_lif n)) (output_neurons c).

End Tectum.

(** ** Structural plasticity: [plasticity/structural_plasticity.py]

    [plasticity/functional_plasticity.py] defines a class of the same name
    with the same text; the brain imports this one. *)

Module Structural.
Import Numeric.

(** The attributes of a [StructuralPlasticityManager]. *)
Record StructuralPlasticityManager : Type := mkManager {
  synapse_creation_threshold : R;
  synapse_elimination_threshold : R;
  synapse_creation_rate : R;
  synapse_elimination_rate : R;
  created_synapses_count : Z;
  eliminated_synapses_count : Z
}.

(** [StructuralPlasticityManager.__init__]. *)
Definition init : StructuralPlasticityManager :=
  {| synapse_creation_threshold := 0.1;
     synapse_elimination_threshold := 0.01;
     synapse_creation_rate := 0.0001;
     synapse_elimination_rate := 0.00005;
     created_synapses_count := 0;
     eliminated_synapses_count := 0 |}.

Definition with_counts (m : StructuralPlasticityManager) (created eliminated : Z)
    : StructuralPlasticityManager :=
  {| synapse_creation_threshold := synapse_creation_threshold m;
     synapse_elimination_threshold := synapse_elimination_threshold m;
     synapse_creation_rate := synapse_creation_rate m;
     synapse_elimination_rate := synapse_elimination_rate m;
     created_synapses_count := created;
     eliminated_synapses_count := eliminated |}.

(** The body of the loop of [update_structure] on one synapse.  The
    generator is asked for a sample only in the elimination branch. *)
Definition visit (m : StructuralPlasticityManager) (g : rng) (dt : R)
    (synapse : Synapse.BiologicalSynapse)
    : StructuralPlasticityManager * rng * Synapse.BiologicalSynapse :=
  if Rgt_dec (Synapse.weight synapse) (synapse_creation_threshold m) then
    let growth := synapse_creation_rate m * Synapse.weight synapse * dt in
    (with_counts m (created_synapses_count m + 1) (eliminated_synapses_count m),
     g,
     Synapse.set_weight synapse
       (Rmin (Synapse.weight synapse + growth) (Synapse.max_weight synapse)))
  else if Rlt_dec (Synapse.weight synapse) (synapse_elimination_threshold m) then
    let elimination_prob := synapse_elimination_rate m * dt in
    let '(u, g') := random g in
    if Rlt_dec u elimination_prob then
      (with_counts m (created_synapses_count m) (eliminated_synapses_count m + 1),
       g',
       Synapse.set_weight synapse 0)
    else (m, g', synapse)
  else (m, g, synapse).

(** [update_structure]: the loop over the list of synapses, which are
    distinct objects; [neural_activity] is not read. *)
Fixpoint update_structure (m : StructuralPlasticityManager) (g : rng)
    (synapses : list Synapse.BiologicalSynapse) (neural_activity : list R) (dt : R)
    : StructuralPlasticityManager * rng * list Synapse.BiologicalSynapse :=
  match synapses with
  | [] => (m, g, [])
  | synapse :: rest =>
      let '(m1, g1, synapse') := visit m g dt synapse in
      let '(m2, g2, rest') := update_structure m1 g1 rest neural_activity dt in
      (m2, g2, synapse' :: rest')
  end.

(** The constants [__init__] sets; no method writes them. *)
Definition configured (m : StructuralPlasticityManager) : Prop :=
  synapse_creation_threshold m = 0.1 /\
  synapse_elimination_threshold m = 0.01 /\
  synapse_creation_rate m = 0.0001 /\
  synapse_elimination_rate m = 0.00005.


End Structural.

(** ** Functional plasticity: [plasticity/functional_plasticity.py]

    The two routines receive a list of neuron objects and work on them in
    place.  The objects live in a store, the list holds their references,
    and a routine is an action on the store. *)

Module Functional.
Import Numeric.

(** The attributes of a [FunctionalPlasticityManager]. *)
Record FunctionalPlasticityManager : Type := mkFunctional {
  learning_rate : R;
  homeostatic_target : R;
  homeostatic_learning_rate : R;
  synaptic_scaling_enabled : bool;
  intrinsic_plasticity_enabled : bool
}.

(** [FunctionalPlasticityManager.__init__]. *)
Definition init : FunctionalPlasticityManager :=
  {| learning_rate := 0.01;
     homeostatic_target := 0.3;
     homeostatic_learning_rate := 0.0001;
     synaptic_scaling_enabled := true;
     intrinsic_plasticity_enabled := true |}.

(** The names a [FunctionalPlasticityManager] instance answers to: the
    attributes set by [__init__] and the methods of the class. *)
Definition attribute_names : list string :=
  ["learning_rate"; "homeostatic_target"; "homeostatic_learning_rate";
   "synaptic_scaling_enabled"; "intrinsic_plasticity_enabled";
   "__init__"; "apply_homeostatic_scaling"; "apply_intrinsic_plasticity"]%string.

(** The objects a routine can reach: every neuron and every synapse of
    the network. *)
Record world : Type := mkWorld {
  neurons_of : list Neuron.neuron;
  synapses_of : list Synapse.BiologicalSynapse
}.

(** An action on the store, with its result. *)
Definition action (A : Type) : Type := world -> A * world.

Definition ret {A : Type} (a : A) : action A := fun w => (a, w).

Definition bind {A B : Type} (c : action A) (k : A -> action B) : action B :=
  fun w => let '(a, w') := c w in k a w'.

Notation "x <- c ;; k" := (bind c (fun x => k))
  (at level 61, c at next level, right associativity).

(** Reading the object behind a reference. *)
Definition read_neuron (r : nat) : action (option Neuron.neuron) :=
  fun w => (nth_error (neurons_of w) r, w).

(** A neuron with its [threshold] attribute replaced. *)
Definition lif_with_threshold (n : Neuron.LIFNeuron) (v : R) : Neuron.LIFNeuron :=
  {| Neuron.rest_potential := Neuron.rest_potential n;
     Neuron.threshold := v;
     Neuron.membrane_potential := Neuron.membrane_potential n;
     Neuron.tau_membrane := Neuron.tau_membrane n;
     Neuron.tau_refractory := Neuron.tau_refractory n;
     Neuron.max_firing_rate := Neuron.max_firing_rate n;
     Neuron.spike_output := Neuron.spike_output n;
     Neuron.refractory_counter := Neuron.refractory_counter n;
     Neuron.last_spike_time := Neuron.last_spike_time n;
     Neuron.membrane_potential_history := Neuron.membrane_potential_history n |}.

Definition with_threshold (n : Neuron.neuron) (v : R) : Neuron.neuron :=
  match n with
  | Neuron.Basic n => Neuron.Basic (lif_with_threshold n v)
  | Neuron.Dendritic n =>
      Neuron.Dendritic
        {| Neuron.pyr_lif := lif_with_threshold (Neuron.pyr_lif n) v;
           Neuron.apical_dendrite_input := Neuron.apical_dendrite_input n;
           Neuron.basal_dendrite_input := Neuron.basal_dendrite_input n;
           Neuron.soma_input := Neuron.soma_input n;
           Neuron.dendritic_plateau_potential := Neuron.dendritic_plateau_potential n;
           Neuron.dendritic_spike_threshold := Neuron.dendritic_spike_threshold n |}
  | Neuron.FastAdapting n =>
      Neuron.FastAdapting
        {| Neuron.fast_lif := lif_with_threshold (Neuron.fast_lif n) v;
           Neuron.adaptation_current := Neuron.adaptation_current n;
           Neuron.adaptation_tau := Neuron.adaptation_tau n;
           Neuron.spike_count := Neuron.spike_count n |}
  end.

(** [neuron.threshold = v] on the object behind a reference. *)
Definition write_threshold (r : nat) (v : R) : action unit :=
  fun w =>
    match nth_error (neurons_of w) r with
    | Some n =>
        (tt, {| neurons_of := set_nth (neurons_of w) r (with_threshold n v);
                synapses_of := synapses_of w |})
    | None => (tt, w)
    end.

(** [for x in l: body(x)]. *)
Fixpoint for_each {A : Type} (l : list A) (body : A -> action unit) : action unit :=
  match l with
  | [] => ret tt
  | x :: rest => _ <- body x ;; for_each rest body
  end.

(** [np.mean([1 if v > neuron.threshold else 0
              for v in neuron.membrane_potential_history[-100:]])]. *)
Definition recent_spike_rate (n : Neuron.LIFNeuron) : R :=
  mean (map (fun v => if Rgt_dec v (Neuron.threshold n) then 1 else 0)
            (last_n 100 (Neuron.membrane_potential_history n))).

(** The local [scaling_factor] of [apply_homeostatic_scaling]. *)
Definition scaling_factor (m : FunctionalPlasticityManager) (dt recent_activity : R) : R :=
  if Rgt_dec recent_activity (homeostatic_target m * 1.5) then
    1 - homeostatic_learning_rate m * dt
  else if Rlt_dec recent_activity (homeostatic_target m * 0.5) then
    1 + homeostatic_learning_rate m * dt
  else 1.

(** [apply_homeostatic_scaling]: the loop binds the locals
    [recent_activity] and [scaling_factor] and ends there. *)
Definition apply_homeostatic_scaling (m : FunctionalPlasticityManager)
    (neurons : list nat) (dt : R) : action unit :=
  if negb (synaptic_scaling_enabled m) then ret tt
  else
    for_each neurons (fun r =>
      o <- read_neuron r ;;
      match o with
      | None => ret tt
      | Some neuron =>
          let n := Neuron.lif_of neuron in
          let recent_activity :=
            if (0 <? List.length (Neuron.membrane_potential_history n))%nat
            then recent_spike_rate n else 0 in
          let scaling_factor := scaling_factor m dt recent_activity in
          ret tt
      end).

(** [apply_intrinsic_plasticity]: the sibling routine, which does write
    [neuron.threshold]. *)
Definition apply_intrinsic_plasticity (m : FunctionalPlasticityManager)
    (neurons : list nat) (dt : R) : action unit :=
  if negb (intrinsic_plasticity_enabled m) then ret tt
  else
    for_each neurons (fun r =>
      o <- read_neuron r ;;
      match o with
      | None => ret tt
      | Some neuron =>
          let n := Neuron.lif_of neuron in
          if (0 <? List.length (Neuron.membrane_potential_history n))%nat then
            let recent_activity := recent_spike_rate n in
            if Rgt_dec recent_activity (homeostatic_target m * 1.5) then
              write_threshold r (Neuron.threshold n + homeostatic_learning_rate m * dt)
            else if Rlt_dec recent_activity (homeostatic_target m * 0.5) then
              write_threshold r (Neuron.threshold n - homeostatic_learning_rate m * dt)
            else ret tt
          else ret tt
      end).

End Functional.

(** ** The orchestrator: [BioFrogBrain] of [bio_frog_agent.py] *)

Module Brain.
Import Numeric.

(** The subsystems the brain owns and only calls into: retina, tectum,
    motor hierarchy, metabolism and glial network.  None of them holds a
    reference to the brain; each call works on the subsystems' own state.
    Their bodies are not part of this model. *)
Class Collaborators : Type := {
  subsystems : Type;
  scene : Type;
  motion : Type;
  (** [process_sensory_input]: the retinal output. *)
  process_sensory_input : subsystems -> scene -> subsystems * list R;
  (** [process_motion]: the movement command of the tectum. *)
  process_motion : subsystems -> list R -> list motion -> subsystems * (R * R);
  (** [generate_motor_output]: the muscle activation. *)
  generate_motor_output : subsystems -> R * R -> subsystems * list R;
  (** [metabolism.glucose_level] and [metabolism.fatigue_level]. *)
  glucose_level : subsystems -> R;
  fatigue_level : subsystems -> R;
  (** [metabolism.update(dt, movement_intensity, neural_activity)]. *)
  update_metabolism : subsystems -> R -> R -> R -> subsystems;
  (** [glial_network.update({}, [], dt)]. *)
  glial_update : subsystems -> R -> subsystems
}.

(** The exceptions a tick can end with. *)
Inductive exn : Type :=
| AttributeError (object_class attribute : string)
| FieldError.

(** The attributes of a [BioFrogBrain]. *)
Record BioFrogBrain {C : Collaborators} : Type := mkBrain {
  space_size : Z * Z;
  dt : R;
  is_juvenile : bool;
  juvenile_duration : Z;
  juvenile_age : Z;
  subsystems_state : subsystems;
  neurotransmitter_system : Diffusion.NeurotransmitterDiffusion;
  dopamine_level : R;
  serotonin_level : R;
  functional_plasticity : Functional.FunctionalPlasticityManager;
  structural_plasticity : Structural.StructuralPlasticityManager;
  synapses : list Synapse.BiologicalSynapse;
  synapse_positions : list (R * R);
  steps : Z;
  activity_history : list R;
  reward_history : list R;
  dopamine_history : list R;
  last_catch_reward : R;
  exploration_bonus : R
}.

Arguments BioFrogBrain : clear implicits.
Arguments BioFrogBrain {C}.

(** The dictionary [update] returns. *)
Record snapshot : Type := mkSnapshot {
  snap_position : R * R;
  snap_velocity : R * R;
  snap_visual_output : list R;
  snap_motor_output : R * R;
  snap_dopamine : R;
  snap_serotonin : R;
  snap_energy : R;
  snap_fatigue : R;
  snap_neural_activity : R;
  snap_is_juvenile : bool;
  snap_juvenile_progress : R;
  snap_reward : R
}.

Section WithCollaborators.
Context {C : Collaborators}.

(** [BioFrogBrain.__init__] once the subsystems and the neuromodulator
    field are built. *)
Definition init_with (space : Z * Z) (juvenile_mode : bool) (dt0 : R)
    (subsystems0 : subsystems) (field : Diffusion.NeurotransmitterDiffusion)
    : BioFrogBrain :=
  {| space_size := space;
     dt := dt0;
     is_juvenile := juvenile_mode;
     juvenile_duration := 5000;
     juvenile_age := 0;
     subsystems_state := subsystems0;
     neurotransmitter_system := field;
     dopamine_level := if juvenile_mode then 0.85 else 0.5;
     serotonin_level := if juvenile_mode then 0.75 else 0.5;
     functional_plasticity := Functional.init;
     structural_plasticity := Structural.init;
     synapses := [];
     synapse_positions := [];
     steps := 0;
     activity_history := [];
     reward_history := [];
     dopamine_history := [];
     last_catch_reward := 0;
     exploration_bonus := 0 |}.

(** [BioFrogBrain.__init__]; [None] when the constructor of the
    neuromodulator field raises. *)
Definition init (space : Z * Z) (juvenile_mode : bool) (dt0 : R)
    (subsystems0 : subsystems) : option BioFrogBrain :=
  option_map (init_with space juvenile_mode dt0 subsystems0)
             (Diffusion.init space 0.1 20).

(** The developmental state: the flag, the age and the duration. *)
Definition stage (b : BioFrogBrain) : bool * Z * Z :=
  (is_juvenile b, juvenile_age b, juvenile_duration b).

(** [deque(maxlen=1000).append(x)]. *)
Definition deque_append (q : list R) (x : R) : list R := last_n 1000 (q ++ [x]).

(** The first statements of [update]: the counters and the end of the
    juvenile stage. *)
Definition advance_age (b : BioFrogBrain) : BioFrogBrain :=
  let age := (juvenile_age b + 1)%Z in
  {| space_size := space_size b;
     dt := dt b;
     is_juvenile :=
       if is_juvenile b && (juvenile_duration b <=? age)%Z then false
       else is_juvenile b;
     juvenile_duration := juvenile_duration b;
     juvenile_age := age;
     subsystems_state := subsystems_state b;
     neurotransmitter_system := neurotransmitter_system b;
     dopamine_level := dopamine_level b;
     serotonin_level := serotonin_level b;
     functional_plasticity := functional_plasticity b;
     structural_plasticity := structural_plasticity b;
     synapses := synapses b;
     synapse_positions := synapse_positions b;
     steps := (steps b + 1)%Z;
     activity_history := activity_history b;
     reward_history := reward_history b;
     dopamine_history := dopamine_history b;
     last_catch_reward := last_catch_reward b;
     exploration_bonus := exploration_bonus b |}.

Definition with_subsystems (b : BioFrogBrain) (s : subsystems) : BioFrogBrain :=
  {| space_size := space_size b;
     dt := dt b;
     is_juvenile := is_juvenile b;
     juvenile_duration := juvenile_duration b;
     juvenile_age := juvenile_age b;
     subsystems_state := s;
     neurotransmitter_system := neurotransmitter_system b;
     dopamine_level := dopamine_level b;
     serotonin_level := serotonin_level b;
     functional_plasticity := functional_plasticity b;
     structural_plasticity := structural_plasticity b;
     synapses := synapses b;
     synapse_positions := synapse_positions b;
     steps := steps b;
     activity_history := activity_history b;
     reward_history := reward_history b;
     dopamine_history := dopamine_history b;
     last_catch_reward := last_catch_reward b;
     exploration_bonus := exploration_bonus b |}.

Definition with_modulation (b : BioFrogBrain) (dopamine serotonin : R)
    (field : Diffusion.NeurotransmitterDiffusion) : BioFrogBrain :=
  {| space_size := space_size b;
     dt := dt b;
     is_juvenile := is_juvenile b;
     juvenile_duration := juvenile_duration b;
     juvenile_age := juvenile_age b;
     subsystems_state := subsystems_state b;
     neurotransmitter_system := field;
     dopamine_level := dopamine;
     serotonin_level := serotonin;
     functional_plasticity := functional_plasticity b;
     structural_plasticity := structural_plasticity b;
     synapses := synapses b;
     synapse_positions := synapse_positions b;
     steps := steps b;
     activity_history := activity_history b;
     reward_history := reward_history b;
     dopamine_history := dopamine_history b;
     last_catch_reward := last_catch_reward b;
     exploration_bonus := exploration_bonus b |}.

Definition with_structure (b : BioFrogBrain)
    (m : Structural.StructuralPlasticityManager)
    (l : list Synapse.BiologicalSynapse) : BioFrogBrain :=
  {| space_size := space_size b;
     dt := dt b;
     is_juvenile := is_juvenile b;
     juvenile_duration := juvenile_duration b;
     juvenile_age := juvenile_age b;
     subsystems_state := subsystems_state b;
     neurotransmitter_system := neurotransmitter_system b;
     dopamine_level := dopamine_level b;
     serotonin_level := serotonin_level b;
     functional_plasticity := functional_plasticity b;
     structural_plasticity := m;
     synapses := l;
     synapse_positions := synapse_positions b;
     steps := steps b;
     activity_history := activity_history b;
     reward_history := reward_history b;
     dopamine_history := dopamine_history b;
     last_catch_reward := last_catch_reward b;
     exploration_bonus := exploration_bonus b |}.

Definition with_histories (b : BioFrogBrain) (activity rewards dopamine : list R)
    : BioFrogBrain :=
  {| space_size := space_size b;
     dt := dt b;
     is_juvenile := is_juvenile b;
     juvenile_duration := juvenile_duration b;
     juvenile_age := juvenile_age b;
     subsystems_state := subsystems_state b;
     neurotransmitter_system := neurotransmitter_system b;
     dopamine_level := dopamine_level b;
     serotonin_level := serotonin_level b;
     functional_plasticity := functional_plasticity b;
     structural_plasticity := structural_plasticity b;
     synapses := synapses b;
     synapse_positions := synapse_positions b;
     steps := steps b;
     activity_history := activity;
     reward_history := rewards;
     dopamine_history := dopamine;
     last_catch_reward := last_catch_reward b;
     exploration_bonus := exploration_bonus b |}.

(** [update_neuromodulation]; the release is at the fixed position
    [(400, 300)] and can raise, after the two levels were assigned. *)
Definition update_neuromodulation (b : BioFrogBrain) (reward neural_activity dt0 : R)
    : BioFrogBrain * option exn :=
  let reward_component := 0.3 * reward in
  let exploration_component := 0.2 * exploration_bonus b in
  let dopamine :=
    if is_juvenile b then 0.85 + reward_component + exploration_component
    else 0.5 + reward_component + exploration_component in
  let dopamine := clip dopamine 0 1 in
  let energy_component := glucose_level (subsystems_state b) / 2 in
  let serotonin :=
    if is_juvenile b then 0.75 + 0.1 * energy_component
    else 0.5 + 0.1 * energy_component in
  let serotonin := clip serotonin 0 1 in
  let released :=
    if Rgt_dec reward 0 then
      Diffusion.release (neurotransmitter_system b) (400, 300) reward "dopamine"
    else Some (neurotransmitter_system b) in
  match released with
  | None =>
      (with_modulation b dopamine serotonin (neurotransmitter_system b), Some FieldError)
  | Some field =>
      (with_modulation b dopamine serotonin (Diffusion.diffuse field dt0), None)
  end.

(** [self.functional_plasticity.update()]: the attribute lookup on the
    manager, then the call. *)
Definition call_update (m : Functional.FunctionalPlasticityManager) : exn + unit :=
  if existsb (String.eqb "update") Functional.attribute_names then inr tt
  else inl (AttributeError "FunctionalPlasticityManager" "update").

(** [apply_plasticity]. *)
Definition apply_plasticity (b : BioFrogBrain) (neural_activity : list R) (g : rng)
    : exn + BioFrogBrain * rng :=
  let functional :=
    if (0 <? List.length (synapses b))%nat then call_update (functional_plasticity b)
    else inr tt in
  match functional with
  | inl e => inl e
  | inr _ =>
      if (0 <? List.length (synapses b))%nat then
        let '(m, g', l) :=
          Structural.update_structure (structural_plasticity b) g (synapses b)
                                      neural_activity (dt b) in
        inr (with_structure b m l, g')
      else inr (b, g)
  end.

(** [update]: one tick.  The brain is returned as the tick left it, with
    the snapshot or with the exception that ended the tick. *)
Definition update (b : BioFrogBrain) (visual_scene : scene)
    (motion_vectors : list motion) (reward : R) (dt0 : option R) (g : rng)
    : BioFrogBrain * rng * (exn + snapshot) :=
  let dt0 := match dt0 with Some d => d | None => dt b end in
  let b := advance_age b in
  let '(s, retinal_output) := process_sensory_input (subsystems_state b) visual_scene in
  let '(s, movement_command) := process_motion s retinal_output motion_vectors in
  let '(s, _) := generate_motor_output s movement_command in
  let velocity := movement_command in
  let b := with_subsystems b s in
  let neural_activity :=
    if (0 <? List.length retinal_output)%nat then mean (map Rabs retinal_output)
    else 0 in
  match update_neuromodulation b reward neural_activity dt0 with
  | (b, Some e) => (b, g, inl e)
  | (b, None) =>
      let movement_intensity :=
        sqrt (fst velocity * fst velocity + snd velocity * snd velocity) / 2 in
      let b :=
        with_subsystems b
          (update_metabolism (subsystems_state b) dt0 movement_intensity neural_activity) in
      match apply_plasticity b retinal_output g with
      | inl e => (b, g, inl e)
      | inr (b, g) =>
          let b := with_subsystems b (glial_update (subsystems_state b) dt0) in
          let b :=
            with_histories b
              (deque_append (activity_history b) neural_activity)
              (if Rgt_dec reward 0 then deque_append (reward_history b) reward
               else reward_history b)
              (deque_append (dopamine_history b) (dopamine_level b)) in
          (b, g,
           inr {| snap_position := (400, 300);
                  snap_velocity := velocity;
                  snap_visual_output := retinal_output;
                  snap_motor_output := velocity;
                  snap_dopamine := dopamine_level b;
                  snap_serotonin := serotonin_level b;
                  snap_energy := glucose_level (subsystems_state b);
                  snap_fatigue := fatigue_level (subsystems_state b);
                  snap_neural_activity := neural_activity;
                  snap_is_juvenile := is_juvenile b;
                  snap_juvenile_progress :=
                    if is_juvenile b
                    then IZR (juvenile_age b) / IZR (juvenile_duration b) else 1;
                  snap_reward := reward |})
      end
  end.

(** The arguments of one [update] call. *)
Record tick : Type := mkTick {
  tick_scene : scene;
  tick_motion : list motion;
  tick_reward : R;
  tick_dt : option R
}.

Definition update_with (b : BioFrogBrain) (g : rng) (t : tick)
    : BioFrogBrain * rng * (exn + snapshot) :=
  update b (tick_scene t) (tick_motion t) (tick_reward t) (tick_dt t) g.

(** A sequence of [update] calls, each on the brain the previous one
    left. *)
Definition update_all (b : BioFrogBrain) (g : rng) (ts : list tick)
    : BioFrogBrain * rng :=
  fold_left (fun st t => fst (update_with (fst st) (snd st) t)) ts (b, g).

End WithCollaborators.

(** Subsystems without state, which see nothing and command no movement. *)
Definition idle_collaborators : Collaborators :=
  {| subsystems := unit;
     scene := unit;
     motion := unit;
     process_sensory_input := fun s _ => (s, []);
     process_motion := fun s _ _ => (s, (0, 0));
     generate_motor_output := fun s _ => (s, []);
     glucose_level := fun _ => 1;
     fatigue_level := fun _ => 0;
     update_metabolism := fun s _ _ _ => s;
     glial_update := fun s _ => s |}.

(** The brain [BioFrogBrain(space_size=(400, 400))] over the idle
    subsystems, and the same brain after one synapse was appended to its
    list. *)
Definition sample_brain : @BioFrogBrain idle_collaborators :=
  @init_with idle_collaborators (400, 400)%Z true 0.01 tt Diffusion.default_field.

Definition sample_brain_with_synapse : @BioFrogBrain idle_collaborators :=
  @with_structure idle_collaborators sample_brain Structural.init
    [Synapse.init_default 0.5].

Definition sample_tick : @tick idle_collaborators :=
  @mkTick idle_collaborators tt [] 1 None.

End Brain.

(** ** Resource-dependent synapses: [DynamicSynapse] of [core/synapse_models.py] *)

Module DynamicSynapse.
Import Numeric.

(** The attributes of a [DynamicSynapse]: those of the base class and the
    two the subclass adds. *)
Record DynamicSynapse : Type := mkDynamic {
  base : Synapse.BiologicalSynapse;
  synapse_type : string;
  initial_release : R
}.

(** The two time constants the subclass constructor overwrites. *)
Definition with_taus (s : Synapse.BiologicalSynapse) (facilitation depression : R)
    : Synapse.BiologicalSynapse :=
  {| Synapse.max_weight := Synapse.max_weight s;
     Synapse.min_weight := Synapse.min_weight s;
     Synapse.weight := Synapse.weight s;
     Synapse.stdp_window := Synapse.stdp_window s;
     Synapse.stdp_amplitude := Synapse.stdp_amplitude s;
     Synapse.facilitation_state := Synapse.facilitation_state s;
     Synapse.depression_state := Synapse.depression_state s;
     Synapse.facilitation_tau := facilitation;
     Synapse.depression_tau := depression;
     Synapse.current_efficacy := Synapse.current_efficacy s;
     Synapse.dopamine_modulation := Synapse.dopamine_modulation s;
     Synapse.serotonin_modulation := Synapse.serotonin_modulation s;
     Synapse.acetylcholine_level := Synapse.acetylcholine_level s;
     Synapse.presynaptic_spike_time := Synapse.presynaptic_spike_time s;
     Synapse.postsynaptic_spike_time := Synapse.postsynaptic_spike_time s |}.

(** [DynamicSynapse.__init__]: the base constructor, then the preset of
    the type; every type other than ["depressing"] takes the second
    branch. *)
Definition init (synapse_type0 : string) (max_weight0 : R) (initial_weight : option R)
    (min_weight0 stdp_window0 stdp_amplitude0 u : R) : DynamicSynapse :=
  let s := Synapse.init max_weight0 initial_weight min_weight0 stdp_window0
                        stdp_amplitude0 u in
  if String.eqb synapse_type0 "depressing" then
    {| base := with_taus s 30 800;
       synapse_type := synapse_type0;
       initial_release := 0.9 |}
  else
    {| base := with_taus s 200 100;
       synapse_type := synapse_type0;
       initial_release := 0.3 |}.

(** The inherited methods work on the attributes of the base class. *)
Definition perform (s : DynamicSynapse) (c : Synapse.call) : DynamicSynapse :=
  {| base := Synapse.perform (base s) c;
     synapse_type := synapse_type s;
     initial_release := initial_release s |}.

Definition perform_all (s : DynamicSynapse) (cs : list Synapse.call) : DynamicSynapse :=
  fold_left perform cs s.

(** [transmit_dynamic]. *)
Definition transmit_dynamic (s : DynamicSynapse) (presynaptic_output available_resources : R)
    : R :=
  let utilization := presynaptic_output * Synapse.current_efficacy (base s) in
  let transmission := utilization * available_resources in
  transmission.

(** A short-term plasticity call with a time step that is not negative;
    a timing call has no time step. *)
Definition forward_in_time (c : Synapse.call) : Prop :=
  match c with
  | Synapse.CallStp dt _ => 0 <= dt
  | Synapse.CallStdp _ _ => True
  end.

(** The short-term state of a synapse: both traces in [[0, 1]], positive
    time constants, and the efficacy equal to the unclamped formula. *)
Definition short_term_invariant (s : Synapse.BiologicalSynapse) : Prop :=
  0 < Synapse.facilitation_tau s /\ 0 < Synapse.depression_tau s /\
  0 <= Synapse.facilitation_state s <= 1 /\
  0 <= Synapse.depression_state s <= 1 /\
  Synapse.current_efficacy s =
    1 + 0.3 * Synapse.facilitation_state s - 0.5 * Synapse.depression_state s.

End DynamicSynapse.

(** ** Runs of neurons: what a sequence of [integrate] calls is made of *)

Module NeuronRuns.
Import Numeric.



(** A neuron of one of the two subclasses. *)
Definition is_subclass (n : Neuron.neuron) : Prop :=
  match n with
  | Neuron.Basic _ => False
  | Neuron.Dendritic _ | Neuron.FastAdapting _ => True
  end.

(** A sequence of [integrate(dt, input_current)] calls on an interneuron. *)
Definition fast_integrate_all (n : Neuron.FastSpikingInterneuron) (ds : list (R * R))
    : Neuron.FastSpikingInterneuron :=
  fold_left (fun m d => Neuron.fast_integrate m (fst d) (snd d)) ds n.

(** How many of these calls left [spike_output] at [1.0]. *)
Fixpoint fast_spikes (n : Neuron.FastSpikingInterneuron) (ds : list (R * R)) : Z :=
  match ds with
  | [] => 0%Z
  | d :: rest =>
      let n' := Neuron.fast_integrate n (fst d) (snd d) in
      ((if Req_dec_T (Neuron.spike_output (Neuron.fast_lif n')) 1 then 1 else 0)
       + fast_spikes n' rest)%Z
  end.

(** A sequence of [integrate(dt, basal_input, apical_input)] calls on a
    pyramidal neuron. *)
Definition pyramidal_integrate_all (n : Neuron.PyramidalNeuron)
    (ds : list (R * R * option R)) : Neuron.PyramidalNeuron :=
  fold_left (fun m d => Neuron.pyramidal_integrate m (fst (fst d)) (snd (fst d)) (snd d))
            ds n.


(** What a run keeps of the dendritic state, for inputs within
    [[lo, hi]]. *)
Definition dendrites_within (lo hi : R) (n : Neuron.PyramidalNeuron) : Prop :=
  0 <= Neuron.dendritic_plateau_potential n <= 1 /\
  lo <= Neuron.basal_dendrite_input n <= hi /\
  lo <= Neuron.apical_dendrite_input n <= hi /\
  Neuron.soma_input n = 0.

End NeuronRuns.

(** ** The neuromodulator field seen by its users, and
       [MultiNeurotransmitterSystem] of [core/neurotransmitter_diffusion.py] *)

Module Transmitters.
Import Numeric.

(** The map a transmitter type selects in [release] and
    [get_concentration]; none for any other string. *)
Definition map_of (d : Diffusion.NeurotransmitterDiffusion) (transmitter_type : string)
    : option Diffusion.grid :=
  if String.eqb transmitter_type "dopamine" then Some (Diffusion.dopamine_map d)
  else if String.eqb transmitter_type "serotonin" then Some (Diffusion.serotonin_map d)
  else if String.eqb transmitter_type "acetylcholine" then
    Some (Diffusion.acetylcholine_map d)
  else None.

(** [float(a[x, y])] as [get_concentration] reads it. *)
Definition read_at (a : Diffusion.grid) (x y : Z) : option R :=
  let rows := Z.of_nat (List.length a) in
  let i := if (x <? 0)%Z then (x + rows)%Z else x in
  let cols := Z.of_nat (List.length (nth (Z.to_nat i) a [])) in
  let j := if (y <? 0)%Z then (y + cols)%Z else y in
  if ((i <? 0) || (rows <=? i) || (j <? 0) || (cols <=? j))%Z then None
  else Some (Diffusion.cell a (Z.to_nat i) (Z.to_nat j)).

(** A field whose three maps have [grid_size] by [grid_size] cells, over a
    space with non-zero dimensions. *)
Definition well_formed (d : Diffusion.NeurotransmitterDiffusion) : Prop :=
  fst (Diffusion.space_size d) <> 0%Z /\ snd (Diffusion.space_size d) <> 0%Z /\
  (1 <= Diffusion.grid_size d)%Z /\
  Diffusion.square (Diffusion.grid_size d) (Diffusion.dopamine_map d) /\
  Diffusion.square (Diffusion.grid_size d) (Diffusion.serotonin_map d) /\
  Diffusion.square (Diffusion.grid_size d) (Diffusion.acetylcholine_map d).

(** One of the three types the field knows. *)
Definition known (transmitter_type : string) : Prop :=
  transmitter_type = "dopamine"%string \/ transmitter_type = "serotonin"%string \/
  transmitter_type = "acetylcholine"%string.

(** The attributes of a [MultiNeurotransmitterSystem]; the dictionary
    keeps its keys in insertion order. *)
Record MultiNeurotransmitterSystem : Type := mkSystem {
  diffusion : Diffusion.NeurotransmitterDiffusion;
  modulator_levels : list (string * R)
}.

(** [MultiNeurotransmitterSystem.__init__]; [None] when the constructor of
    the field raises. *)
Definition init (space : Z * Z) : option MultiNeurotransmitterSystem :=
  option_map
    (fun d =>
       {| diffusion := d;
          modulator_levels :=
            [("dopamine", 0.5); ("serotonin", 0.5); ("acetylcholine", 0.3);
             ("gaba", 0.4); ("glutamate", 0.5)]%string |})
    (Diffusion.init space 0.1 20).

(** [0.3 if key != 'acetylcholine' else 0.2]. *)
Definition baseline_of (key : string) : R :=
  if negb (String.eqb key "acetylcholine") then 0.3 else 0.2.

(** [MultiNeurotransmitterSystem.update]. *)
Definition update (sys : MultiNeurotransmitterSystem) (dt : R)
    : MultiNeurotransmitterSystem :=
  {| diffusion := Diffusion.diffuse (diffusion sys) dt;
     modulator_levels :=
       map (fun entry =>
              let baseline := baseline_of (fst entry) in
              (fst entry, snd entry + (baseline - snd entry) * 0.01))
           (modulator_levels sys) |}.

(** [get_system_state]: a copy of the dictionary. *)
Definition get_system_state (sys : MultiNeurotransmitterSystem) : list (string * R) :=
  modulator_levels sys.

(** A sequence of [update] calls. *)
Definition update_all (sys : MultiNeurotransmitterSystem) (dts : list R)
    : MultiNeurotransmitterSystem :=
  fold_left update dts sys.

(** The sum of the nine unnormalised kernel entries. *)
Definition kernel_total : R :=
  Diffusion.grid_sum
    (map (fun i => map (fun j => Diffusion.kernel_entry i j) (seq 0 3)) (seq 0 3)).

End Transmitters.

(** ** Neurons driven below their threshold *)

Module NeuronBounds.

(** A neuron outside its refractory period, silent, whose potential is at
    most [limit * (1 + dt / tau_membrane)] above rest, a level that is
    itself below the threshold. *)
Definition held_below (limit dt : R) (n : Neuron.LIFNeuron) : Prop :=
  0 < Neuron.tau_membrane n /\
  Neuron.refractory_counter n <= 0 /\
  Neuron.spike_output n = 0 /\
  Neuron.membrane_potential n - Neuron.rest_potential n
    <= limit * (1 + dt / Neuron.tau_membrane n) /\
  Neuron.rest_potential n + limit * (1 + dt / Neuron.tau_membrane n)
    < Neuron.threshold n.

End NeuronBounds.

(** ** Vectors in the plane, as the subsystems use them through numpy *)

Module Geometry.

(** [np.linalg.norm] of a vector of two floats. *)
Definition norm (v : R * R) : R := sqrt (fst v * fst v + snd v * snd v).

(** The difference of two such vectors. *)
Definition minus (p q : R * R) : R * R := (fst p - fst q, snd p - snd q).

(** [np.sum] of a list of floats. *)
Definition total (l : list R) : R := fold_right Rplus 0 l.

(** [np.arctan2(y, x)]; signed zeros are outside the model. *)
Definition arctan2 (y x : R) : R :=
  if Rlt_dec 0 x then atan (y / x)
  else if Rlt_dec x 0 then
    if Rle_dec 0 y then atan (y / x) + PI else atan (y / x) - PI
  else if Rlt_dec 0 y then PI / 2
  else if Rlt_dec y 0 then - PI / 2
  else 0.

(** [np.mean(vectors, axis=0)] of a non-empty list of vectors. *)
Definition mean_vector (vectors : list (R * R)) : R * R :=
  (Numeric.mean (map fst vectors), Numeric.mean (map snd vectors)).

(** The Gaussian tuning both the tectal columns and the executive
    neurons apply to an angle difference:
    [np.exp(-(angle_diff ** 2) / (2 * 0.5 ** 2))] after the difference was
    folded with [np.min([d, 2 * np.pi - d])]. *)
Definition tuning (angle preferred : R) : R :=
  let difference := Rabs (angle - preferred) in
  let difference := Rmin difference (2 * PI - difference) in
  exp (- (difference ^ 2) / (2 * 0.5 ^ 2)).

End Geometry.

(** ** The retina: [architecture/visual_system.py]

    [get_spatial_attention_map] reads [processed_image] and writes
    nothing; it is not part of this model. *)

Module Retina.
Import Numeric.

(** The attributes of a [CenterSurroundFilter]. *)
Record CenterSurroundFilter : Type := mkFilter {
  position : R * R;
  center_size : R;
  surround_size : R;
  filter_type : string;
  center_neuron : Neuron.LIFNeuron;
  surround_neuron : Neuron.LIFNeuron;
  output : R
}.

(** [CenterSurroundFilter.__init__]. *)
Definition filter_init (position0 : R * R) (center_size0 surround_size0 : R)
    (filter_type0 : string) : CenterSurroundFilter :=
  {| position := position0;
     center_size := center_size0;
     surround_size := surround_size0;
     filter_type := filter_type0;
     center_neuron := Neuron.init_default;
     surround_neuron := Neuron.init_default;
     output := 0 |}.

(** The current [process] feeds to the centre neuron, for sizes other
    than zero. *)
Definition input_current (f : CenterSurroundFilter) (stimulus : R * R) : R :=
  let center_distance := Geometry.norm (Geometry.minus stimulus (position f)) in
  let center_response := exp (- (center_distance ^ 2) / (2 * center_size f ^ 2)) in
  let surround_response := exp (- (center_distance ^ 2) / (2 * surround_size f ^ 2)) in
  let input_current :=
    if String.eqb (filter_type f) "on_center"
    then center_response - 0.3 * surround_response
    else surround_response - 0.3 * center_response in
  clip input_current 0 1 * 20.

(** [CenterSurroundFilter.process]: only the centre neuron is integrated. *)
Definition process (f : CenterSurroundFilter) (stimulus : R * R)
    : CenterSurroundFilter * R :=
  let neuron := Neuron.integrate (center_neuron f) 0.01 (input_current f stimulus) in
  ({| position := position f;
      center_size := center_size f;
      surround_size := surround_size f;
      filter_type := filter_type f;
      center_neuron := neuron;
      surround_neuron := surround_neuron f;
      output := Neuron.spike_output neuron |},
   Neuron.spike_output neuron).

(** A sequence of [process] calls on one filter. *)
Definition process_all (f : CenterSurroundFilter) (stimuli : list (R * R))
    : CenterSurroundFilter :=
  fold_left (fun f' stimulus => fst (process f' stimulus)) stimuli f.

(** The attributes of a [RetinalProcessing]. *)
Record RetinalProcessing : Type := mkRetina {
  visual_field_size : R * R;
  num_filters_per_side : Z;
  filters : list CenterSurroundFilter;
  retinal_output : list R;
  processed_image : option (list (list R))
}.

(** The filter the constructor puts at [(i, j)]. *)
Definition filter_at (size : R * R) (n i j : Z) : CenterSurroundFilter :=
  let x := (IZR i + 0.5) * fst size / IZR n in
  let y := (IZR j + 0.5) * snd size / IZR n in
  let filter_type :=
    if ((i + j) mod 2 =? 0)%Z then "on_center"%string else "off_center"%string in
  filter_init (x, y) 10 30 filter_type.

(** [range(n)]. *)
Definition range (n : Z) : list Z := map Z.of_nat (seq 0 (Z.to_nat n)).

(** [RetinalProcessing.__init__]. *)
Definition init (visual_field_size0 : R * R) (num_filters_per_side0 : Z)
    : RetinalProcessing :=
  let cells :=
    flat_map (fun i => map (fun j => filter_at visual_field_size0 num_filters_per_side0 i j)
                           (range num_filters_per_side0))
             (range num_filters_per_side0) in
  {| visual_field_size := visual_field_size0;
     num_filters_per_side := num_filters_per_side0;
     filters := cells;
     retinal_output := repeat 0 (List.length cells);
     processed_image := None |}.

(** The inner loop of [process_visual_input]: one filter sees every object
    of the scene in turn; the result is the filter and [total_response]. *)
Definition respond (f : CenterSurroundFilter) (visual_scene : list (R * R * R))
    : CenterSurroundFilter * R :=
  fold_left
    (fun state object =>
       let '(obj_x, obj_y, brightness) := object in
       let '(f', response) := process (fst state) (obj_x, obj_y) in
       (f', snd state + response * brightness))
    visual_scene (f, 0).

(** The rows of [a.reshape((rows, width))]. *)
Fixpoint chunks (rows width : nat) (a : list R) : list (list R) :=
  match rows with
  | O => []
  | S rows' => firstn width a :: chunks rows' width (skipn width a)
  end.

(** [a.reshape((n, n))], which raises unless [a] has [n * n] entries. *)
Definition reshape (n : Z) (a : list R) : option (list (list R)) :=
  if ((0 <=? n) && (Z.of_nat (List.length a) =? n * n))%Z
  then Some (chunks (Z.to_nat n) (Z.to_nat n) a)
  else None.

(** [process_visual_input]; [None] when the final [reshape] raises.  The
    value returned is the [retinal_output] of the result. *)
Definition process_visual_input (r : RetinalProcessing)
    (visual_scene : list (R * R * R)) : option RetinalProcessing :=
  let results := map (fun f => respond f visual_scene) (filters r) in
  let responses := map snd results in
  match reshape (num_filters_per_side r) responses with
  | None => None
  | Some image =>
      Some {| visual_field_size := visual_field_size r;
              num_filters_per_side := num_filters_per_side r;
              filters := map fst results;
              retinal_output := responses;
              processed_image := Some image |}
  end.

(** [RetinalProcessing.reset]. *)
Definition reset (r : RetinalProcessing) : RetinalProcessing :=
  {| visual_field_size := visual_field_size r;
     num_filters_per_side := num_filters_per_side r;
     filters :=
       map (fun f =>
              {| position := position f;
                 center_size := center_size f;
                 surround_size := surround_size f;
                 filter_type := filter_type f;
                 center_neuron := Neuron.reset (center_neuron f);
                 surround_neuron := Neuron.reset (surround_neuron f);
                 output := output f |})
           (filters r);
     retinal_output := repeat 0 (List.length (filters r));
     processed_image := None |}.

(** One use of the retina: a scene to process, or a reset. *)
Inductive use : Type :=
| Look (visual_scene : list (R * R * R))
| Reset.

(** A sequence of uses; [None] as soon as one raises. *)
Fixpoint run (r : RetinalProcessing) (uses : list use) : option RetinalProcessing :=
  match uses with
  | [] => Some r
  | Look visual_scene :: rest =>
      match process_visual_input r visual_scene with
      | None => None
      | Some r' => run r' rest
      end
  | Reset :: rest => run (reset r) rest
  end.

(** The invariant of a filter: its centre neuron is held below its
    threshold by the cap of 20 on the input, and it has given no
    output. *)
Definition calm (f : CenterSurroundFilter) : Prop :=
  NeuronBounds.held_below 20 0.01 (center_neuron f) /\
  Neuron.rest_potential (center_neuron f) = -70 /\
  Neuron.tau_membrane (center_neuron f) = 20 /\
  output f = 0.

(** What every use of a constructed retina keeps. *)
Definition steady (n : Z) (r : RetinalProcessing) : Prop :=
  num_filters_per_side r = n /\
  List.length (filters r) = Z.to_nat (n * n) /\
  Forall calm (filters r) /\
  retinal_output r = repeat 0 (Z.to_nat (n * n)).

End Retina.

(** ** The tectum at work: [process_visual_input], [process] and
       [get_movement_command] of [architecture/tectum.py] *)

Module TectumProcess.
Import Numeric.

(** [[n.spike_output for n in neurons]] for the two neuron classes of a
    column. *)
Definition pyramidal_spikes (neurons : list Neuron.PyramidalNeuron) : list R :=
  map (fun n => Neuron.spike_output (Neuron.pyr_lif n)) neurons.

Definition interneuron_spikes (neurons : list Neuron.FastSpikingInterneuron) : list R :=
  map (fun n => Neuron.spike_output (Neuron.fast_lif n)) neurons.

(** The direction selectivity [process_visual_input] computes. *)
Definition selectivity (c : Tectum.TectalColumn) (motion_vector : R * R) : R :=
  if Rgt_dec (Geometry.norm motion_vector) 0.01 then
    let motion_direction :=
      Geometry.arctan2 (snd motion_vector) (fst motion_vector) in
    Geometry.tuning motion_direction (Tectum.preferred_direction c)
  else 0.5.

(** [TectalColumn.process_visual_input]; the three lists of neurons are
    never empty, the constructor fills them. *)
Definition process_visual_input (c : Tectum.TectalColumn) (visual_input : R)
    (motion_vector : R * R) : Tectum.TectalColumn * R :=
  let direction_selectivity := selectivity c motion_vector in
  let input_current := visual_input * 10 * direction_selectivity in
  let pyramidal :=
    map (fun pyr => Neuron.pyramidal_integrate pyr 0.01 input_current None)
        (Tectum.pyramidal_neurons c) in
  let inter_input := mean (pyramidal_spikes pyramidal) * 15 in
  let inter :=
    map (fun n => Neuron.fast_integrate n 0.01 inter_input) (Tectum.interneurons c) in
  let exc_input := mean (pyramidal_spikes pyramidal) * 10 in
  let inh_input := mean (interneuron_spikes inter) * 5 in
  let out :=
    map (fun n => Neuron.pyramidal_integrate n 0.01 (exc_input - inh_input) None)
        (Tectum.output_neurons c) in
  let output := mean (pyramidal_spikes out) in
  ({| Tectum.position := Tectum.position c;
      Tectum.preferred_direction := Tectum.preferred_direction c;
      Tectum.pyramidal_neurons := pyramidal;
      Tectum.interneurons := inter;
      Tectum.output_neurons := out;
      Tectum.pyramidal_to_interneurons := Tectum.pyramidal_to_interneurons c;
      Tectum.interneurons_to_output := Tectum.interneurons_to_output c;
      Tectum.output := output;
      Tectum.direction_selectivity := direction_selectivity |},
   output).

(** [np.argmax]: the first index of the largest entry. *)
Fixpoint argmax_from (best : R) (best_index index : nat) (l : list R) : nat :=
  match l with
  | [] => best_index
  | x :: rest =>
      if Rgt_dec x best then argmax_from x index (S index) rest
      else argmax_from best best_index (S index) rest
  end.

Definition argmax (l : list R) : nat :=
  match l with
  | [] => O
  | x :: rest => argmax_from x 0 1 rest
  end.

(** [np.mean(retinal_input) if len(retinal_input) > 0 else 0.0]. *)
Definition mean_visual_input (retinal_input : list R) : R :=
  if (0 <? List.length retinal_input)%nat then mean retinal_input else 0.

(** [np.mean(motion_vectors, axis=0)], or [np.zeros(2)] without vectors. *)
Definition aggregated_motion (motion_vectors : list (R * R)) : R * R :=
  if (0 <? List.length motion_vectors)%nat then Geometry.mean_vector motion_vectors
  else (0, 0).

(** [Tectum.process]; [None] when [np.zeros(num_columns)] raises on a
    negative count or the loop writes beyond the end of [tectal_output].
    The value returned is the [tectal_output] of the result. *)
Definition process (t : Tectum.Tectum) (retinal_input : list R)
    (motion_vectors : list (R * R)) : option Tectum.Tectum :=
  if (Tectum.num_columns t <? 0)%Z then None
  else if (Tectum.num_columns t <? Z.of_nat (List.length (Tectum.columns t)))%Z then None
  else
    let results :=
      map (fun column =>
             process_visual_input column (mean_visual_input retinal_input)
                                  (aggregated_motion motion_vectors))
          (Tectum.columns t) in
    let tectal_output :=
      map snd results
      ++ repeat 0 (Z.to_nat (Tectum.num_columns t) - List.length (Tectum.columns t)) in
    let dominant_direction :=
      if Rgt_dec (Geometry.total tectal_output) 0 then
        IZR (Z.of_nat (argmax tectal_output)) / IZR (Tectum.num_columns t) * 2 * PI
      else Tectum.dominant_direction t in
    Some {| Tectum.num_columns := Tectum.num_columns t;
            Tectum.neurons_per_column := Tectum.neurons_per_column t;
            Tectum.columns := map fst results;
            Tectum.tectal_output := tectal_output;
            Tectum.dominant_direction := dominant_direction |}.

(** [Tectum.get_movement_command]. *)
Definition get_movement_command (t : Tectum.Tectum) : R * R :=
  if Req_dec_T (Geometry.total (Tectum.tectal_output t)) 0 then (0, 0)
  else
    let direction_angle := Tectum.dominant_direction t in
    let magnitude := Geometry.total (Tectum.tectal_output t) / IZR (Tectum.num_columns t) in
    (magnitude * cos direction_angle, magnitude * sin direction_angle).

(** One use of the tectum: a [process] call or a [reset]. *)
Inductive use : Type :=
| Process (retinal_input : list R) (motion_vectors : list (R * R))
| Reset.

(** A sequence of uses; [None] as soon as one raises. *)
Fixpoint run (t : Tectum.Tectum) (uses : list use) : option Tectum.Tectum :=
  match uses with
  | [] => Some t
  | Process retinal_input motion_vectors :: rest =>
      match process t retinal_input motion_vectors with
      | None => None
      | Some t' => run t' rest
      end
  | Reset :: rest => run (Tectum.reset t) rest
  end.

(** A use whose mean visual input is at most [level]. *)
Definition at_most (level : R) (u : use) : Prop :=
  match u with
  | Process retinal_input _ => mean_visual_input retinal_input <= level
  | Reset => True
  end.

(** The neurons of a column held below their thresholds: the pyramidal
    layer under an input of at most 29, the other two layers without
    input. *)
Definition column_calm (c : Tectum.TectalColumn) : Prop :=
  Forall (fun n => NeuronBounds.held_below 29 0.01 (Neuron.pyr_lif n))
         (Tectum.pyramidal_neurons c) /\
  Forall (fun n => NeuronBounds.held_below 0 0.01 (Neuron.fast_lif n) /\
                   0 <= Neuron.adaptation_current n)
         (Tectum.interneurons c) /\
  Forall (fun n => NeuronBounds.held_below 0 0.01 (Neuron.pyr_lif n))
         (Tectum.output_neurons c) /\
  Tectum.output c = 0.

(** A tectum of [n] calm columns that has not produced any output. *)
Definition tectum_calm (n : Z) (t : Tectum.Tectum) : Prop :=
  Tectum.num_columns t = n /\
  List.length (Tectum.columns t) = Z.to_nat n /\
  Forall column_calm (Tectum.columns t) /\
  Tectum.tectal_output t = repeat 0 (Z.to_nat n) /\
  Tectum.dominant_direction t = 0.

End TectumProcess.

(** ** The motor hierarchy: [architecture/motor_hierarchy.py] *)

Module Motor.
Import Numeric.

(** The attributes of a [MotorHierarchy]. *)
Record MotorHierarchy : Type := mkMotor {
  executive_neurons : list Neuron.PyramidalNeuron;
  coordination_interneurons : list Neuron.FastSpikingInterneuron;
  motor_neurons : list Neuron.PyramidalNeuron;
  proprioceptive_input : list R;
  movement_state : string;
  current_movement_command : R * R;
  muscle_activation : list R
}.

(** [MotorHierarchy.__init__]. *)
Definition init : MotorHierarchy :=
  {| executive_neurons := repeat Neuron.pyramidal_default 4;
     coordination_interneurons := repeat Neuron.fast_default 8;
     motor_neurons := repeat Neuron.pyramidal_default 12;
     proprioceptive_input := repeat 0 12;
     movement_state := "idle";
     current_movement_command := (0, 0);
     muscle_activation := repeat 0 12 |}.

(** [np.linspace(0, 2 * np.pi, 4, endpoint=False)]. *)
Definition angles : list R :=
  map (fun i => INR i * (2 * PI / 4)) (seq 0 4).

(** The loop over the executive neurons when the command is longer than
    [0.01]: neuron [i] is tuned to [angles[i]]; [None] stands for the
    [IndexError] of a fifth neuron. *)
Fixpoint tune_executive (magnitude input_angle : R) (angles : list R)
    (neurons : list Neuron.PyramidalNeuron) : option (list Neuron.PyramidalNeuron) :=
  match neurons, angles with
  | [], _ => Some []
  | neuron :: rest, angle :: angles' =>
      let selectivity := Geometry.tuning input_angle angle in
      let input_current := magnitude * selectivity * 15 in
      option_map (cons (Neuron.pyramidal_integrate neuron 0.01 input_current None))
                 (tune_executive magnitude input_angle angles' rest)
  | _ :: _, [] => None
  end.

(** [proprioceptive_feedback[i] * 5.0 if i < len(proprioceptive_feedback)
     else 0.0]. *)
Definition inh_feedback (proprioceptive_feedback : list R) (i : nat) : R :=
  if (i <? List.length proprioceptive_feedback)%nat
  then nth i proprioceptive_feedback 0 * 5 else 0.

(** The loop over the motor neurons, from index [i]. *)
Fixpoint drive_motor (inter_activity : R) (proprioceptive_feedback : list R) (i : nat)
    (neurons : list Neuron.PyramidalNeuron) : list Neuron.PyramidalNeuron :=
  match neurons with
  | [] => []
  | motor_neuron :: rest =>
      let exc_input := inter_activity * 10 in
      Neuron.pyramidal_integrate motor_neuron 0.01
        (exc_input - inh_feedback proprioceptive_feedback i) None
      :: drive_motor inter_activity proprioceptive_feedback (S i) rest
  end.

(** [execute_movement_command]; [None] when a loop indexes beyond
    [angles] or [muscle_activation].  The value returned is the
    [muscle_activation] of the result. *)
Definition execute_movement_command (m : MotorHierarchy) (command : R * R)
    (proprioceptive_feedback : list R) : option MotorHierarchy :=
  let magnitude := Geometry.norm command in
  let executive :=
    if Rgt_dec magnitude 0.01 then
      let input_angle := Geometry.arctan2 (snd command) (fst command) in
      tune_executive magnitude input_angle angles (executive_neurons m)
    else
      Some (map (fun neuron => Neuron.pyramidal_integrate neuron 0.01 0 None)
                (executive_neurons m)) in
  match executive with
  | None => None
  | Some executive =>
      let exec_activity := mean (TectumProcess.pyramidal_spikes executive) in
      let inter :=
        map (fun n => Neuron.fast_integrate n 0.01 (exec_activity * 10))
            (coordination_interneurons m) in
      let inter_activity := mean (TectumProcess.interneuron_spikes inter) in
      let motor := drive_motor inter_activity proprioceptive_feedback 0 (motor_neurons m) in
      if (List.length (muscle_activation m) <? List.length motor)%nat then None
      else
        Some {| executive_neurons := executive;
                coordination_interneurons := inter;
                motor_neurons := motor;
                proprioceptive_input := proprioceptive_input m;
                movement_state := movement_state m;
                current_movement_command := command;
                muscle_activation :=
                  TectumProcess.pyramidal_spikes motor
                  ++ skipn (List.length motor) (muscle_activation m) |}
  end.

(** [process_tongue_action]; [None] is a missing target. *)
Definition process_tongue_action (target_position : option (R * R))
    (current_position : R * R) : bool :=
  match target_position with
  | None => false
  | Some target =>
      let distance := Geometry.norm (Geometry.minus target current_position) in
      if Rlt_dec distance 150 then
        if Rgt_dec distance 10 then true else false
      else false
  end.

(** [MotorHierarchy.reset]. *)
Definition reset (m : MotorHierarchy) : MotorHierarchy :=
  {| executive_neurons := map Neuron.pyramidal_reset (executive_neurons m);
     coordination_interneurons := map Neuron.fast_reset (coordination_interneurons m);
     motor_neurons := map Neuron.pyramidal_reset (motor_neurons m);
     proprioceptive_input := proprioceptive_input m;
     movement_state := movement_state m;
     current_movement_command := current_movement_command m;
     muscle_activation := repeat 0 12 |}.

(** One use of the hierarchy: a command with its feedback, or a reset. *)
Inductive use : Type :=
| Execute (command : R * R) (proprioceptive_feedback : list R)
| Reset.

(** A sequence of uses; [None] as soon as one raises. *)
Fixpoint run (m : MotorHierarchy) (uses : list use) : option MotorHierarchy :=
  match uses with
  | [] => Some m
  | Execute command proprioceptive_feedback :: rest =>
      match execute_movement_command m command proprioceptive_feedback with
      | None => None
      | Some m' => run m' rest
      end
  | Reset :: rest => run (reset m) rest
  end.

(** A command no longer than [1.9] with no feedback entry below [-5]. *)
Definition gentle (u : use) : Prop :=
  match u with
  | Execute command proprioceptive_feedback =>
      Geometry.norm command <= 1.9 /\ Forall (fun x => -5 <= x) proprioceptive_feedback
  | Reset => True
  end.

(** The neurons of the hierarchy held below their thresholds, and no
    muscle active. *)
Definition motor_calm (m : MotorHierarchy) : Prop :=
  (List.length (executive_neurons m) <= 4)%nat /\
  Forall (fun n => NeuronBounds.held_below 29 0.01 (Neuron.pyr_lif n))
         (executive_neurons m) /\
  Forall (fun n => NeuronBounds.held_below 0 0.01 (Neuron.fast_lif n) /\
                   0 <= Neuron.adaptation_current n)
         (coordination_interneurons m) /\
  List.length (motor_neurons m) = 12%nat /\
  Forall (fun n => NeuronBounds.held_below 29 0.01 (Neuron.pyr_lif n))
         (motor_neurons m) /\
  muscle_activation m = repeat 0 12.

End Motor.

(** ** Energy: [metabolism/systemic_metabolism.py] *)

Module Metabolism.
Import Numeric.

(** The attributes of a [NeuronMetabolism]. *)
Record NeuronMetabolism : Type := mkNeuronMetabolism {
  atp_level : R;
  max_atp : R;
  baseline_atp : R;
  atp_cost_spike : R;
  atp_cost_rest : R;
  atp_recovery_rate : R;
  excitability_modifier : R;
  sodium_potassium_pump_efficiency : R
}.

(** [NeuronMetabolism.__init__]. *)
Definition neuron_init (baseline_atp0 max_atp0 : R) : NeuronMetabolism :=
  {| atp_level := baseline_atp0;
     max_atp := max_atp0;
     baseline_atp := baseline_atp0;
     atp_cost_spike := 0.1;
     atp_cost_rest := 0.01;
     atp_recovery_rate := 0.02;
     excitability_modifier := 1;
     sodium_potassium_pump_efficiency := 1 |}.

(** [NeuronMetabolism()] with the default arguments. *)
Definition neuron_default : NeuronMetabolism := neuron_init 1 2.

Definition with_atp (m : NeuronMetabolism) (atp : R) : NeuronMetabolism :=
  {| atp_level := atp;
     max_atp := max_atp m;
     baseline_atp := baseline_atp m;
     atp_cost_spike := atp_cost_spike m;
     atp_cost_rest := atp_cost_rest m;
     atp_recovery_rate := atp_recovery_rate m;
     excitability_modifier := excitability_modifier m;
     sodium_potassium_pump_efficiency := sodium_potassium_pump_efficiency m |}.

(** [consume_energy]. *)
Definition consume_energy (m : NeuronMetabolism) (spiked : bool) (firing_rate dt : R)
    : NeuronMetabolism :=
  let atp := if spiked then atp_level m - atp_cost_spike m else atp_level m in
  let baseline_cost := atp_cost_rest m * dt in
  let atp := atp - baseline_cost in
  let frequency_cost := firing_rate * 0.01 * dt in
  let atp := atp - frequency_cost in
  with_atp m (clip atp 0 (max_atp m)).

(** [recover_energy]. *)
Definition recover_energy (m : NeuronMetabolism) (dt oxygen_level glucose_level : R)
    : NeuronMetabolism :=
  let recovery_factor :=
    oxygen_level * glucose_level * sodium_potassium_pump_efficiency m in
  let recovery := atp_recovery_rate m * recovery_factor * dt in
  with_atp m (clip (atp_level m + recovery) 0 (max_atp m)).

(** The local [excitability] of [affects_excitability], before it is
    clipped; the baseline is not zero. *)
Definition excitability (m : NeuronMetabolism) : R :=
  if Rlt_dec (atp_level m) (baseline_atp m * 0.5) then
    0.3 + 0.7 * (atp_level m / (baseline_atp m * 0.5))
  else
    1 + 0.5 * ((atp_level m - baseline_atp m) / baseline_atp m).

(** [affects_excitability]: the attribute is written and returned. *)
Definition affects_excitability (m : NeuronMetabolism) : NeuronMetabolism * R :=
  let modifier := clip (excitability m) 0.1 2 in
  ({| atp_level := atp_level m;
      max_atp := max_atp m;
      baseline_atp := baseline_atp m;
      atp_cost_spike := atp_cost_spike m;
      atp_cost_rest := atp_cost_rest m;
      atp_recovery_rate := atp_recovery_rate m;
      excitability_modifier := modifier;
      sodium_potassium_pump_efficiency := sodium_potassium_pump_efficiency m |},
   modifier).

(** [get_energy_state]. *)
Definition get_energy_state (m : NeuronMetabolism) : list (string * R) :=
  [("atp_level", atp_level m); ("max_atp", max_atp m);
   ("atp_ratio", atp_level m / max_atp m);
   ("excitability", excitability_modifier m)]%string.

(** One call on a [NeuronMetabolism]. *)
Inductive neuron_call : Type :=
| Consume (spiked : bool) (firing_rate dt : R)
| Recover (dt oxygen_level glucose_level : R)
| Affect.

Definition neuron_perform (m : NeuronMetabolism) (c : neuron_call) : NeuronMetabolism :=
  match c with
  | Consume spiked firing_rate dt => consume_energy m spiked firing_rate dt
  | Recover dt oxygen_level glucose_level => recover_energy m dt oxygen_level glucose_level
  | Affect => fst (affects_excitability m)
  end.

Definition neuron_perform_all (m : NeuronMetabolism) (cs : list neuron_call)
    : NeuronMetabolism :=
  fold_left neuron_perform cs m.

(** The attributes of a [SystemicMetabolism]. *)
Record SystemicMetabolism : Type := mkSystemic {
  glucose_level : R;
  oxygen_level : R;
  lactate_level : R;
  glucose_consumption_rate : R;
  oxygen_consumption_rate : R;
  glucose_recovery_rate : R;
  oxygen_recovery_rate : R;
  neural_activity_level : R;
  movement_activity_level : R;
  circadian_phase : R;
  fatigue_level : R
}.

(** [SystemicMetabolism.__init__]. *)
Definition init : SystemicMetabolism :=
  {| glucose_level := 1;
     oxygen_level := 1;
     lactate_level := 0.1;
     glucose_consumption_rate := 0.001;
     oxygen_consumption_rate := 0.0015;
     glucose_recovery_rate := 0.0005;
     oxygen_recovery_rate := 0.001;
     neural_activity_level := 0;
     movement_activity_level := 0;
     circadian_phase := 0;
     fatigue_level := 0 |}.

(** [x % m] on floats with a positive [m]: the remainder has the sign of
    [m]. *)
Definition float_mod (x m : R) : R := x - m * IZR (Int_part (x / m)).

(** [SystemicMetabolism.update]; the dictionary it returns is
    [get_metabolic_state] of the result. *)
Definition update (m : SystemicMetabolism) (dt movement_intensity neural_activity : R)
    : SystemicMetabolism :=
  let neural := 0.9 * neural_activity_level m + 0.1 * neural_activity in
  let movement := 0.9 * movement_activity_level m + 0.1 * movement_intensity in
  let total_activity := neural + movement in
  let glucose_consumption := glucose_consumption_rate m * (1 + total_activity) * dt in
  let glucose := glucose_level m - glucose_consumption in
  let oxygen_consumption := oxygen_consumption_rate m * (1 + total_activity) * dt in
  let oxygen := oxygen_level m - oxygen_consumption in
  let recovery_factor := 1 - 0.5 * fatigue_level m in
  let glucose := glucose + glucose_recovery_rate m * recovery_factor * dt in
  let oxygen := oxygen + oxygen_recovery_rate m * recovery_factor * dt in
  let lactate_production := total_activity * 0.01 * dt in
  let lactate := (lactate_level m + lactate_production) * exp (- dt / 100) in
  let phase := float_mod (circadian_phase m + dt / 10000) (2 * PI) in
  let time_of_day_fatigue := 0.3 * (1 - cos phase) / 2 in
  let activity_fatigue := 0.2 * (neural + movement) in
  let resource_fatigue := 0.3 * (1 - (glucose + oxygen) / 2) in
  {| glucose_level := clip glucose 0 1.5;
     oxygen_level := clip oxygen 0 1.5;
     lactate_level := lactate;
     glucose_consumption_rate := glucose_consumption_rate m;
     oxygen_consumption_rate := oxygen_consumption_rate m;
     glucose_recovery_rate := glucose_recovery_rate m;
     oxygen_recovery_rate := oxygen_recovery_rate m;
     neural_activity_level := neural;
     movement_activity_level := movement;
     circadian_phase := phase;
     fatigue_level :=
       clip (time_of_day_fatigue + activity_fatigue + resource_fatigue) 0 1 |}.

(** [get_metabolic_state]. *)
Definition get_metabolic_state (m : SystemicMetabolism) : list (string * R) :=
  [("glucose", glucose_level m); ("oxygen", oxygen_level m);
   ("lactate", lactate_level m); ("fatigue", fatigue_level m);
   ("neural_activity", neural_activity_level m);
   ("movement_activity", movement_activity_level m)]%string.

(** [SystemicMetabolism.reset]: five attributes are written. *)
Definition reset (m : SystemicMetabolism) : SystemicMetabolism :=
  {| glucose_level := 1;
     oxygen_level := 1;
     lactate_level := 0.1;
     glucose_consumption_rate := glucose_consumption_rate m;
     oxygen_consumption_rate := oxygen_consumption_rate m;
     glucose_recovery_rate := glucose_recovery_rate m;
     oxygen_recovery_rate := oxygen_recovery_rate m;
     neural_activity_level := neural_activity_level m;
     movement_activity_level := movement_activity_level m;
     circadian_phase := 0;
     fatigue_level := 0 |}.

(** The arguments of one [update] call: [dt], [movement_intensity] and
    [neural_activity]. *)
Definition update_with (m : SystemicMetabolism) (call : R * R * R) : SystemicMetabolism :=
  update m (fst (fst call)) (snd (fst call)) (snd call).

(** A sequence of [update] calls. *)
Definition update_all (m : SystemicMetabolism) (calls : list (R * R * R))
    : SystemicMetabolism :=
  fold_left update_with calls m.

(** The time the calls cover: the sum of their [dt]. *)
Definition elapsed (calls : list (R * R * R)) : R :=
  fold_right Rplus 0 (map (fun call => fst (fst call)) calls).

(** A call that moves time forward with non-negative activities. *)
Definition forward (call : R * R * R) : Prop :=
  0 <= fst (fst call) /\ 0 <= snd (fst call) /\ 0 <= snd call.

(** What [update] keeps of a metabolism that the constructor built: the
    four rates, and the ranges of the levels. *)
Definition sound (m : SystemicMetabolism) : Prop :=
  glucose_consumption_rate m = 0.001 /\
  oxygen_consumption_rate m = 0.0015 /\
  glucose_recovery_rate m = 0.0005 /\
  oxygen_recovery_rate m = 0.001 /\
  0 <= fatigue_level m <= 1 /\
  0 <= neural_activity_level m /\
  0 <= movement_activity_level m /\
  0 <= glucose_level m <= 1.5 /\
  0 <= oxygen_level m <= 1.5 /\
  0 <= lactate_level m /\
  0 <= circadian_phase m < 2 * PI.

End Metabolism.

(** ** Glia: [core/glial_cells.py] *)

Module Glia.
Import Numeric.

(** The attributes of an [Astrocyte]. *)
Record Astrocyte : Type := mkAstrocyte {
  position : R * R;
  influence_radius : R;
  calcium_level : R;
  calcium_resting : R;
  calcium_peak : R;
  calcium_decay_tau : R;
  gliotransmitter_release : R;
  gliotransmitter_threshold : R;
  glutamate_level : R;
  atp_level : R;
  neural_activity_history : list R;
  activation_threshold : R
}.

(** [Astrocyte.__init__]. *)
Definition astrocyte_init (position0 : R * R) (influence_radius0 : R) : Astrocyte :=
  {| position := position0;
     influence_radius := influence_radius0;
     calcium_level := 0;
     calcium_resting := 0.1;
     calcium_peak := 2;
     calcium_decay_tau := 500;
     gliotransmitter_release := 0;
     gliotransmitter_threshold := 0.3;
     glutamate_level := 0;
     atp_level := 0;
     neural_activity_history := [];
     activation_threshold := 0.1 |}.

(** [distances < self.influence_radius]: the mask of the neurons in
    reach. *)
Definition nearby_indices (a : Astrocyte) (neural_positions : list (R * R)) : list bool :=
  map (fun p =>
         if Rlt_dec (Geometry.norm (Geometry.minus p (position a))) (influence_radius a)
         then true else false)
      neural_positions.

(** [values[mask]] for a mask as long as the array. *)
Fixpoint select (mask : list bool) (values : list R) : list R :=
  match mask, values with
  | true :: mask', v :: values' => v :: select mask' values'
  | false :: mask', _ :: values' => select mask' values'
  | _, _ => []
  end.

(** The local activity; [None] is the [IndexError] of a mask whose length
    is not that of the activity map. *)
Definition local_activity (a : Astrocyte) (neural_activity_map : list R)
    (neural_positions : list (R * R)) : option R :=
  let mask := nearby_indices a neural_positions in
  if existsb (fun b => b) mask then
    if (List.length neural_activity_map =? List.length mask)%nat
    then Some (mean (select mask neural_activity_map))
    else None
  else Some 0.

(** [respond_to_neural_activity]. *)
Definition respond_to_neural_activity (a : Astrocyte) (neural_activity_map : list R)
    (neural_positions : list (R * R)) (dt : R) : option Astrocyte :=
  if (List.length neural_positions =? 0)%nat then Some a
  else
    match local_activity a neural_activity_map neural_positions with
    | None => None
    | Some activity =>
        let calcium :=
          if Rgt_dec activity (activation_threshold a) then
            calcium_level a + (calcium_peak a - calcium_level a) * 0.1
          else
            let decay := exp (- dt / calcium_decay_tau a) in
            calcium_resting a + (calcium_level a - calcium_resting a) * decay in
        let released := if Rgt_dec calcium (gliotransmitter_threshold a) then true else false in
        let release :=
          (calcium - gliotransmitter_threshold a)
          / (calcium_peak a - gliotransmitter_threshold a) in
        let history := neural_activity_history a ++ [activity] in
        Some {| position := position a;
                influence_radius := influence_radius a;
                calcium_level := calcium;
                calcium_resting := calcium_resting a;
                calcium_peak := calcium_peak a;
                calcium_decay_tau := calcium_decay_tau a;
                gliotransmitter_release := if released then release else 0;
                gliotransmitter_threshold := gliotransmitter_threshold a;
                glutamate_level :=
                  if released then 0.3 * release
                  else glutamate_level a * exp (- dt / 100);
                atp_level :=
                  if released then 0.5 * release
                  else atp_level a * exp (- dt / 150);
                neural_activity_history :=
                  if (1000 <? List.length history)%nat then last_n 1000 history
                  else history;
                activation_threshold := activation_threshold a |}
    end.



(** The arguments of one [respond_to_neural_activity] call. *)
Record stimulus : Type := mkStimulus {
  stimulus_map : list R;
  stimulus_positions : list (R * R);
  stimulus_dt : R
}.




(** The attributes of a [GlialNetwork]. *)
Record GlialNetwork : Type := mkGlia {
  num_astrocytes : Z;
  brain_size : R * R;
  astrocytes : list Astrocyte;
  average_gliotransmitter : R;
  brain_state : string
}.

(** The astrocyte the constructor puts at [(i, j)] of a grid of
    [grid_size] cells per side. *)
Definition astrocyte_at (brain_size0 : R * R) (grid_size i j : Z) : Astrocyte :=
  let x := (IZR i + 0.5) * fst brain_size0 / IZR grid_size in
  let y := (IZR j + 0.5) * snd brain_size0 / IZR grid_size in
  astrocyte_init (x, y) (fst brain_size0 / (2 * IZR grid_size)).

(** [GlialNetwork.__init__]; [None] is the [ValueError] of
    [int(np.sqrt(num_astrocytes))] on a negative count. *)
Definition init (num_astrocytes0 : Z) (brain_size0 : R * R) : option GlialNetwork :=
  if (num_astrocytes0 <? 0)%Z then None
  else
    let grid_size := Z.sqrt num_astrocytes0 in
    Some {| num_astrocytes := num_astrocytes0;
            brain_size := brain_size0;
            astrocytes :=
              flat_map (fun i => map (fun j => astrocyte_at brain_size0 grid_size i j)
                                     (Retina.range grid_size))
                       (Retina.range grid_size);
            average_gliotransmitter := 0;
            brain_state := "resting" |}.

(** The loop of [update] over the astrocytes. *)
Fixpoint respond_each (l : list Astrocyte) (neural_activity_map : list R)
    (neural_positions : list (R * R)) (dt : R) : option (list Astrocyte) :=
  match l with
  | [] => Some []
  | a :: rest =>
      match respond_to_neural_activity a neural_activity_map neural_positions dt with
      | None => None
      | Some a' =>
          option_map (cons a') (respond_each rest neural_activity_map neural_positions dt)
      end
  end.

(** [GlialNetwork.update]; the network has at least one astrocyte. *)
Definition update (n : GlialNetwork) (neural_activity_map : list R)
    (neural_positions : list (R * R)) (dt : R) : option GlialNetwork :=
  match respond_each (astrocytes n) neural_activity_map neural_positions dt with
  | None => None
  | Some l =>
      let average := mean (map gliotransmitter_release l) in
      Some {| num_astrocytes := num_astrocytes n;
              brain_size := brain_size n;
              astrocytes := l;
              average_gliotransmitter := average;
              brain_state :=
                if Rgt_dec average 0.5 then "excited"
                else if Rgt_dec average 0.2 then "active"
                else "resting" |}
  end.

(** The acetylcholine entry of [get_local_modulation]: the loop over the
    astrocytes, from the value [level]. *)
Fixpoint local_acetylcholine (l : list Astrocyte) (position0 : R * R) (level : R) : R :=
  match l with
  | [] => level
  | a :: rest =>
      let distance := Geometry.norm (Geometry.minus position0 (position a)) in
      if Rlt_dec distance (influence_radius a) then
        let influence :=
          (1 - distance / influence_radius a) * gliotransmitter_release a in
        local_acetylcholine rest position0 (level + influence * 0.1)
      else local_acetylcholine rest position0 level
  end.

(** [get_local_modulation]. *)
Definition get_local_modulation (n : GlialNetwork) (position0 : R * R)
    : list (string * R) :=
  [("dopamine", 0.5); ("serotonin", 0.5);
   ("acetylcholine", local_acetylcholine (astrocytes n) position0 0.3)]%string.

(** [GlialNetwork.reset]. *)
Definition reset (n : GlialNetwork) : GlialNetwork :=
  {| num_astrocytes := num_astrocytes n;
     brain_size := brain_size n;
     astrocytes :=
       map (fun a =>
              {| position := position a;
                 influence_radius := influence_radius a;
                 calcium_level := calcium_resting a;
                 calcium_resting := calcium_resting a;
                 calcium_peak := calcium_peak a;
                 calcium_decay_tau := calcium_decay_tau a;
                 gliotransmitter_release := 0;
                 gliotransmitter_threshold := gliotransmitter_threshold a;
                 glutamate_level := glutamate_level a;
                 atp_level := atp_level a;
                 neural_activity_history := neural_activity_history a;
                 activation_threshold := activation_threshold a |})
           (astrocytes n);
     average_gliotransmitter := average_gliotransmitter n;
     brain_state := brain_state n |}.

End Glia.

(** ** The subsystems of the brain: [bio_frog_agent.py]

    [BioFrogBrain.__init__] builds the subsystems below, and [update]
    drives them in steps 1, 2, 3, 5 and 7.  Steps 4 and 6 work on the
    other attributes of the brain; of the subsystems they only read
    [metabolism.glucose_level]. *)

Module Frog.
Import Numeric.

(** The subsystem attributes of a [BioFrogBrain]. *)
Record Subsystems : Type := mkSubsystems {
  visual_system : Retina.RetinalProcessing;
  tectum : Tectum.Tectum;
  motor_hierarchy : Motor.MotorHierarchy;
  glial_network : Glia.GlialNetwork;
  metabolism : Metabolism.SystemicMetabolism;
  neuron_metabolism : Metabolism.NeuronMetabolism
}.

(** The subsystems as [BioFrogBrain.__init__] builds them:
    [RetinalProcessing(visual_field_size=space_size)], [Tectum(columns=16)],
    [MotorHierarchy()], [GlialNetwork(num_astrocytes=24)],
    [SystemicMetabolism()] and [NeuronMetabolism()].  Only the synapses
    of the tectum draw from the random generator. *)
Definition built (space_size : Z * Z) (g : rng) : option (Subsystems * rng) :=
  let visual :=
    Retina.init (IZR (fst space_size), IZR (snd space_size)) 10 in
  let '(t, g') := Tectum.init 16 12 g in
  option_map
    (fun glia =>
       ({| visual_system := visual;
           tectum := t;
           motor_hierarchy := Motor.init;
           glial_network := glia;
           metabolism := Metabolism.init;
           neuron_metabolism := Metabolism.neuron_default |}, g'))
    (Glia.init 24 (400, 400)).

Definition with_visual_system (s : Subsystems) (r : Retina.RetinalProcessing)
    : Subsystems :=
  {| visual_system := r;
     tectum := tectum s;
     motor_hierarchy := motor_hierarchy s;
     glial_network := glial_network s;
     metabolism := metabolism s;
     neuron_metabolism := neuron_metabolism s |}.

Definition with_tectum (s : Subsystems) (t : Tectum.Tectum) : Subsystems :=
  {| visual_system := visual_system s;
     tectum := t;
     motor_hierarchy := motor_hierarchy s;
     glial_network := glial_network s;
     metabolism := metabolism s;
     neuron_metabolism := neuron_metabolism s |}.

Definition with_motor_hierarchy (s : Subsystems) (m : Motor.MotorHierarchy)
    : Subsystems :=
  {| visual_system := visual_system s;
     tectum := tectum s;
     motor_hierarchy := m;
     glial_network := glial_network s;
     metabolism := metabolism s;
     neuron_metabolism := neuron_metabolism s |}.

Definition with_glial_network (s : Subsystems) (n : Glia.GlialNetwork) : Subsystems :=
  {| visual_system := visual_system s;
     tectum := tectum s;
     motor_hierarchy := motor_hierarchy s;
     glial_network := n;
     metabolism := metabolism s;
     neuron_metabolism := neuron_metabolism s |}.

Definition with_metabolism (s : Subsystems) (m : Metabolism.SystemicMetabolism)
    : Subsystems :=
  {| visual_system := visual_system s;
     tectum := tectum s;
     motor_hierarchy := motor_hierarchy s;
     glial_network := glial_network s;
     metabolism := m;
     neuron_metabolism := neuron_metabolism s |}.

(** [process_sensory_input]: the retinal output.  The attention map it
    also returns is computed from [processed_image] without writing
    anything, and [update] does not use it. *)
Definition process_sensory_input (s : Subsystems) (visual_scene : list (R * R * R))
    : option (Subsystems * list R) :=
  option_map (fun r => (with_visual_system s r, Retina.retinal_output r))
             (Retina.process_visual_input (visual_system s) visual_scene).

(** [process_motion]: the movement command. *)
Definition process_motion (s : Subsystems) (retinal_input : list R)
    (motion_vectors : list (R * R)) : option (Subsystems * (R * R)) :=
  option_map (fun t => (with_tectum s t, TectumProcess.get_movement_command t))
             (TectumProcess.process (tectum s) retinal_input motion_vectors).

(** [generate_motor_output]: the muscle activation; without feedback the
    method passes [np.zeros(3)]. *)
Definition generate_motor_output (s : Subsystems) (movement_command : R * R)
    (proprioceptive_feedback : option (list R)) : option (Subsystems * list R) :=
  let feedback :=
    match proprioceptive_feedback with
    | Some f => f
    | None => repeat 0 3
    end in
  option_map (fun m => (with_motor_hierarchy s m, Motor.muscle_activation m))
             (Motor.execute_movement_command (motor_hierarchy s) movement_command feedback).

(** What one [update] computes from the subsystems. *)
Record outputs : Type := mkOutputs {
  retinal_output : list R;
  movement_command : R * R;
  muscle_activation : list R;
  velocity : R * R;
  neural_activity : R;
  movement_intensity : R
}.

(** The arguments of [update] that reach the subsystems. *)
Record stimulus : Type := mkStimulus {
  visual_scene : list (R * R * R);
  motion_vectors : list (R * R);
  dt : R
}.

(** Steps 1, 2, 3, 5 and 7 of [BioFrogBrain.update], in this order, on
    the subsystems; [None] when a subsystem raises.  Step 7 is
    [self.glial_network.update({}, [], dt)]. *)
Definition tick (s : Subsystems) (i : stimulus) : option (Subsystems * outputs) :=
  match process_sensory_input s (visual_scene i) with
  | None => None
  | Some (s, retinal_output0) =>
      match process_motion s retinal_output0 (motion_vectors i) with
      | None => None
      | Some (s, movement_command0) =>
          match generate_motor_output s movement_command0 None with
          | None => None
          | Some (s, muscle_activation0) =>
              let velocity0 := movement_command0 in
              let neural_activity0 :=
                if (0 <? List.length retinal_output0)%nat
                then mean (map Rabs retinal_output0) else 0 in
              let movement_intensity0 := Geometry.norm velocity0 / 2 in
              let s :=
                with_metabolism s
                  (Metabolism.update (metabolism s) (dt i) movement_intensity0
                                     neural_activity0) in
              match Glia.update (glial_network s) [] [] (dt i) with
              | None => None
              | Some glia =>
                  Some (with_glial_network s glia,
                        {| retinal_output := retinal_output0;
                           movement_command := movement_command0;
                           muscle_activation := muscle_activation0;
                           velocity := velocity0;
                           neural_activity := neural_activity0;
                           movement_intensity := movement_intensity0 |})
              end
          end
      end
  end.

(** A sequence of ticks: the subsystems at the end and the outputs of
    every tick, the first tick first; [None] as soon as one raises. *)
Fixpoint run (s : Subsystems) (stimuli : list stimulus)
    : option (Subsystems * list outputs) :=
  match stimuli with
  | [] => Some (s, [])
  | i :: rest =>
      match tick s i with
      | None => None
      | Some (s', o) =>
          option_map (fun result => (fst result, o :: snd result)) (run s' rest)
      end
  end.

(** The outputs of a tick in which nothing fired. *)
Definition silent : outputs :=
  {| retinal_output := repeat 0 100;
     movement_command := (0, 0);
     muscle_activation := repeat 0 12;
     velocity := (0, 0);
     neural_activity := 0;
     movement_intensity := 0 |}.

(** Subsystems in which nothing has fired yet and nothing can: the
    retina, the tectum and the motor hierarchy are held below their
    thresholds, and the astrocytes are as the constructor built them. *)
Definition dormant (glia : Glia.GlialNetwork) (s : Subsystems) : Prop :=
  Retina.steady 10 (visual_system s) /\
  TectumProcess.tectum_calm 16 (tectum s) /\
  Motor.motor_calm (motor_hierarchy s) /\
  glial_network s = glia /\
  neuron_metabolism s = Metabolism.neuron_default.

End Frog.

(** ** Passes of the structural manager over a list of synapses *)

Module StructuralRuns.
Import Numeric.

(** A synapse the pass strengthens: its weight is above the creation
    threshold [0.1]. *)
Definition strong (s : Synapse.BiologicalSynapse) : bool :=
  if Rgt_dec (Synapse.weight s) 0.1 then true else false.

(** A synapse the pass may eliminate: its weight is below the elimination
    threshold [0.01]. *)
Definition weak (s : Synapse.BiologicalSynapse) : bool :=
  if Rlt_dec (Synapse.weight s) 0.01 then true else false.

(** How many synapses of the list satisfy [p]. *)
Definition count (p : Synapse.BiologicalSynapse -> bool)
    (l : list Synapse.BiologicalSynapse) : nat :=
  List.length (filter p l).

(** A weight between 0 and the maximum of the synapse. *)
Definition in_range (s : Synapse.BiologicalSynapse) : Prop :=
  0 <= Synapse.weight s <= Synapse.max_weight s.

(** What a pass may have done to a synapse: only the weight is written,
    it stays in range, and it is either zero or not smaller than before. *)
Definition passed (s s' : Synapse.BiologicalSynapse) : Prop :=
  Synapse.same_except_weight s s' /\
  0 <= Synapse.weight s' <= Synapse.max_weight s /\
  (Synapse.weight s' = 0 \/ Synapse.weight s <= Synapse.weight s') /\
  (Synapse.weight s = 0 -> Synapse.weight s' = 0).

End StructuralRuns.

(** ** What a functional-plasticity routine may change *)

Module FunctionalRuns.

(** The neuron [n'] is [n] with, at most, another threshold. *)
Definition retuned (n n' : Neuron.neuron) : Prop :=
  n' = Functional.with_threshold n (Neuron.threshold (Neuron.lif_of n')).

End FunctionalRuns.

(** ** The shape of a constructed tectum *)

Module TectumShape.
Import Numeric.

(** A weight as [np.random.uniform(0.2, 0.8)] draws it. *)
Definition drawn (s : Synapse.BiologicalSynapse) : Prop :=
  0.2 <= Synapse.weight s < 0.8.

(** A matrix of [rows] rows of [cols] synapses with drawn weights. *)
Definition matrix_of (rows cols : nat) (m : list (list Synapse.BiologicalSynapse)) : Prop :=
  List.length m = rows /\
  Forall (fun row => List.length row = cols /\ Forall drawn row) m.

(** The contents of a column as the constructor leaves them: 8 pyramidal
    neurons, 4 interneurons, 2 output neurons, and the two synapse
    matrices between the layers. *)
Definition column_shape (c : Tectum.TectalColumn) : Prop :=
  Tectum.pyramidal_neurons c = repeat Neuron.pyramidal_default 8 /\
  Tectum.interneurons c = repeat Neuron.fast_default 4 /\
  Tectum.output_neurons c = repeat Neuron.pyramidal_default 2 /\
  matrix_of 8 4 (Tectum.pyramidal_to_interneurons c) /\
  matrix_of 4 2 (Tectum.interneurons_to_output c).

(** Every sample of the generator lies in [[0, 1)]. *)
Definition samples_in_unit (g : rng) : Prop :=
  forall k : nat, 0 <= sample g k < 1.

End TectumShape.

(** * Part II: properties of the models *)

(** ** Facts about the numeric helpers *)

Module NumericFacts.
Import Numeric.

Lemma clip_bounds (a lo hi : R) : lo <= hi -> lo <= clip a lo hi <= hi.
Proof.
  intros Hle. unfold clip, Rmin, Rmax.
  destruct (Rle_dec a lo); destruct (Rle_dec hi _); lra.
Qed.

Lemma clip_id (a lo hi : R) : lo <= a <= hi -> clip a lo hi = a.
Proof.
  intros [H1 H2]. unfold clip, Rmin, Rmax.
  destruct (Rle_dec a lo); destruct (Rle_dec hi _); lra.
Qed.

(** What clamping means, case by case; with the bounds the wrong way
    round [np.clip] returns the upper one. *)
Lemma clip_cases (a lo hi : R) :
  (lo <= hi ->
     lo <= clip a lo hi <= hi /\
     (lo <= a <= hi -> clip a lo hi = a) /\
     (a < lo -> clip a lo hi = lo) /\
     (hi < a -> clip a lo hi = hi)) /\
  (hi < lo -> clip a lo hi = hi).
Proof.
  unfold clip, Rmin, Rmax.
  destruct (Rle_dec a lo); destruct (Rle_dec hi _);
    (split; [intros Hle; split; [lra | split; [| split]]; intros; lra | intros; lra]).
Qed.


Lemma exp_neg_le_1 (x : R) : 0 <= x -> 0 < exp (- x) <= 1.
Proof.
  intros Hx. split; [apply exp_pos |].
  destruct (Req_dec_T x 0) as [-> | Hne].
  - rewrite Ropp_0, exp_0. lra.
  - rewrite <- exp_0. left. apply exp_increasing. lra.
Qed.

Lemma exp_neg_lt_1 (x : R) : 0 < x -> 0 < exp (- x) < 1.
Proof.
  intros Hx. split; [apply exp_pos |].
  rewrite <- exp_0. apply exp_increasing. lra.
Qed.

End NumericFacts.

(** ** Synapse properties *)

Module SynapseFacts.
Import Numeric NumericFacts Synapse.








Lemma set_weight_same (s : BiologicalSynapse) (w : R) :
  same_except_weight s (set_weight s w).
Proof. unfold same_except_weight. simpl. repeat split. Qed.

(** C5.  [apply_stdp] with [delta = post - pre]: an absent spike time or a
    [|delta|] that is not strictly inside the window leaves the synapse
    exactly as it was; inside the window the weight becomes the clamp into
    [[min_weight, max_weight]] of the old weight plus
    [amplitude * exp (- delta / window)] (when [delta > 0]) or
    [- amplitude * exp (delta / window)] (when [delta <= 0]) times the blend
    [0.7 * dopamine + 0.3 * serotonin], and no other field changes.  The
    clamp is spelled out: with [min_weight <= max_weight] the new weight
    lies in [[min_weight, max_weight]], it is the raw sum when that lies
    within the bounds, [min_weight] when the sum is below and [max_weight]
    when it is above. *)
Theorem apply_stdp_rule (s : BiologicalSynapse) (pre post : option R) :
  (pre = None \/ post = None -> apply_stdp s pre post = s) /\
  (forall p q : R, pre = Some p -> post = Some q ->
     let delta := q - p in
     let blend := 0.7 * dopamine_modulation s + 0.3 * serotonin_modulation s in
     let potentiated :=
       weight s + stdp_amplitude s * exp (- delta / stdp_window s) * blend in
     let depressed :=
       weight s + - stdp_amplitude s * exp (delta / stdp_window s) * blend in
     (~ Rabs delta < stdp_window s -> apply_stdp s pre post = s) /\
     (Rabs delta < stdp_window s -> delta > 0 ->
        weight (apply_stdp s pre post) = clip potentiated (min_weight s) (max_weight s) /\
        same_except_weight s (apply_stdp s pre post) /\
        (min_weight s <= max_weight s ->
           min_weight s <= weight (apply_stdp s pre post) <= max_weight s /\
           (min_weight s <= potentiated <= max_weight s ->
              weight (apply_stdp s pre post) = potentiated) /\
           (potentiated < min_weight s ->
              weight (apply_stdp s pre post) = min_weight s) /\
           (max_weight s < potentiated ->
              weight (apply_stdp s pre post) = max_weight s))) /\
     (Rabs delta < stdp_window s -> delta <= 0 ->
        weight (apply_stdp s pre post) = clip depressed (min_weight s) (max_weight s) /\
        same_except_weight s (apply_stdp s pre post) /\
        (min_weight s <= max_weight s ->
           min_weight s <= weight (apply_stdp s pre post) <= max_weight s /\
           (min_weight s <= depressed <= max_weight s ->
              weight (apply_stdp s pre post) = depressed) /\
           (depressed < min_weight s ->
              weight (apply_stdp s pre post) = min_weight s) /\
           (max_weight s < depressed ->
              weight (apply_stdp s pre post) = max_weight s)))).
Proof.
  split.
  - intros [-> | ->]; [reflexivity | destruct pre; reflexivity].
  - intros p q -> -> delta blend potentiated depressed. unfold apply_stdp. fold delta.
    destruct (Rlt_dec (Rabs delta) (stdp_window s)) as [Hin | Hout].
    + split; [intros Hn; contradiction |].
      destruct (Rgt_dec delta 0) as [Hpos | Hneg]; split; intros _ Hsign;
        try (exfalso; lra).
      * split; [reflexivity |]. split; [apply set_weight_same |].
        intros Hord. cbn [weight set_weight]. fold (modulation s).
        exact (proj1 (clip_cases _ _ _) Hord).
      * split; [reflexivity |]. split; [apply set_weight_same |].
        intros Hord. cbn [weight set_weight]. fold (modulation s).
        exact (proj1 (clip_cases _ _ _) Hord).
    + split; [reflexivity |]. split; intros Hin; contradiction.
Qed.

Lemma apply_stdp_rule_witness :
  apply_stdp (init_default 0.5) (Some 0) (Some 60) = init_default 0.5 /\
  weight (apply_stdp (init_default 0.5) (Some 0) (Some 10)) =
    clip (weight (init_default 0.5) + 0.01 * exp (- (10 - 0) / 50) * (0.7 * 0.5 + 0.3 * 0.5)) 0 1 /\
  0 <= weight (apply_stdp (init_default 0.5) (Some 0) (Some 10)) <= 1.
Proof.
  split; [| split].
  - apply (proj2 (apply_stdp_rule (init_default 0.5) (Some 0) (Some 60)) 0 60 eq_refl eq_refl).
    simpl. unfold Rabs. destruct (Rcase_abs _); lra.
  - apply (proj2 (apply_stdp_rule (init_default 0.5) (Some 0) (Some 10)) 0 10 eq_refl eq_refl).
    + simpl. unfold Rabs. destruct (Rcase_abs _); lra.
    + lra.
  - refine (proj1 (proj2 (proj2
      (proj1 (proj2 (proj2 (apply_stdp_rule (init_default 0.5) (Some 0) (Some 10))
                       0 10 eq_refl eq_refl)) _ _)) _)).
    + simpl. unfold Rabs. destruct (Rcase_abs _); lra.
    + lra.
    + simpl. lra.
Defined.

(** C10.  The constructor tests the truthiness of [initial_weight]: an
    explicit [0.0], like [None], is replaced by the draw of
    [np.random.uniform(0.2, 0.8)], which lies in [[0.2, 0.8)] and so is not
    zero; only a non-zero [initial_weight] is taken as it is. *)
Theorem init_zero_weight_is_redrawn (max_w min_w window amplitude u : R) :
  0 <= u < 1 ->
  weight (init max_w (Some 0) min_w window amplitude u) = uniform 0.2 0.8 u /\
  weight (init max_w None min_w window amplitude u) = uniform 0.2 0.8 u /\
  0.2 <= uniform 0.2 0.8 u < 0.8 /\
  weight (init max_w (Some 0) min_w window amplitude u) <> 0 /\
  (forall w : R, w <> 0 -> weight (init max_w (Some w) min_w window amplitude u) = w).
Proof.
  intros Hu.
  assert (Hr : 0.2 <= uniform 0.2 0.8 u < 0.8) by (unfold uniform; lra).
  assert (H0 : weight (init max_w (Some 0) min_w window amplitude u) = uniform 0.2 0.8 u).
  { simpl. destruct (Req_dec_T 0 0) as [_ | Hne]; [reflexivity | congruence]. }
  split; [exact H0 |]. split; [reflexivity |]. split; [exact Hr |]. split.
  - rewrite H0. lra.
  - intros w Hw. simpl. destruct (Req_dec_T w 0); [contradiction | reflexivity].
Qed.

Lemma init_zero_weight_is_redrawn_witness :
  weight (init 1 (Some 0) 0 50 0.01 0.5) = uniform 0.2 0.8 0.5 /\
  weight (init 1 (Some 0) 0 50 0.01 0.5) <> 0.
Proof.
  assert (Hu : 0 <= 0.5 < 1) by lra.
  destruct (@init_zero_weight_is_redrawn 1 0 50 0.01 0.5 Hu) as (H1 & _ & _ & H4 & _).
  split; assumption.
Defined.

End SynapseFacts.

(** ** Neuron properties *)

Module NeuronFacts.
Import Numeric NumericFacts Neuron.

Lemma refractory_step_invariant (D dt : R) (n : LIFNeuron) :
  0 <= dt <= D -> refractory_counter n > 0 ->
  countdown_invariant D n -> countdown_invariant D (refractory_step n dt).
Proof.
  unfold countdown_invariant. intros Hdt Hpos (Htau & Hc & Hs). simpl.
  split; [lra | split; [lra | left; reflexivity]].
Qed.

Lemma leak_and_fire_invariant (D dt current : R) (keep : bool) (n : LIFNeuron) :
  0 <= dt <= D ->
  countdown_invariant D n -> countdown_invariant D (leak_and_fire n dt current keep).
Proof.
  unfold countdown_invariant, leak_and_fire. intros Hdt (Htau & Hc & Hs). simpl.
  destruct (Rge_dec _ _); (split; [lra | split; [lra | auto]]).
Qed.

Lemma integrate_any_invariant (D : R) (n : neuron) (d : drive) :
  0 <= drive_dt d <= D ->
  countdown_invariant D (lif_of n) -> countdown_invariant D (lif_of (integrate_any n d)).
Proof.
  intros Hdt Hinv. destruct n as [n | n | n]; simpl in *.
  - unfold integrate. destruct (Rgt_dec _ _).
    + apply refractory_step_invariant; assumption.
    + apply leak_and_fire_invariant; assumption.
  - unfold pyramidal_integrate. destruct (Rgt_dec (refractory_counter _) 0); simpl.
    + apply refractory_step_invariant; assumption.
    + apply leak_and_fire_invariant; assumption.
  - unfold fast_integrate. destruct (Rgt_dec (refractory_counter _) 0); simpl.
    + apply refractory_step_invariant; assumption.
    + apply leak_and_fire_invariant; assumption.
Qed.

Lemma integrate_all_invariant (D : R) (ds : list drive) (n : neuron) :
  Forall (fun d => 0 <= drive_dt d <= D) ds ->
  countdown_invariant D (lif_of n) ->
  countdown_invariant D (lif_of (integrate_all n ds)).
Proof.
  revert n. induction ds as [| d ds IH]; intros n Hds Hinv; simpl.
  - exact Hinv.
  - inversion Hds as [| ? ? Hd Hrest]; subst.
    apply IH; [exact Hrest |]. apply integrate_any_invariant; assumption.
Qed.

Lemma initial_countdown (n : neuron) :
  initial n -> refractory_counter (lif_of n) = 0 /\ spike_output (lif_of n) = 0.
Proof.
  intros Hi. destruct Hi as [? ? ? ? ? | ? ? ? ? ? | ? ? ? | n]; simpl; auto.
  destruct n; simpl; auto.
Qed.

(** While the countdown is positive, [integrate] pins the potential to the
    resting value and outputs no spike, in all three classes. *)
Lemma integrate_any_refractory (n : neuron) (d : drive) :
  refractory_counter (lif_of n) > 0 ->
  membrane_potential (lif_of (integrate_any n d)) = rest_potential (lif_of n) /\
  rest_potential (lif_of (integrate_any n d)) = rest_potential (lif_of n) /\
  spike_output (lif_of (integrate_any n d)) = 0 /\
  refractory_counter (lif_of (integrate_any n d)) = refractory_counter (lif_of n) - drive_dt d.
Proof.
  intros Hpos. destruct n as [n | n | n]; simpl in *.
  - unfold integrate. destruct (Rgt_dec _ _); [simpl; auto | contradiction].
  - unfold pyramidal_integrate.
    destruct (Rgt_dec (refractory_counter _) 0); [simpl; auto | contradiction].
  - unfold fast_integrate.
    destruct (Rgt_dec (refractory_counter _) 0); [simpl; auto | contradiction].
Qed.

(** The claim C8 as stated fails: a default [LIFNeuron] driven above the
    threshold with [dt = 3] fires, its countdown is set to
    [tau_refractory = 2], and the next [integrate] with [dt = 3] leaves the
    countdown at [-1]. *)
Lemma countdown_below_zero :
  initial (Basic init_default) /\
  Forall (fun d => 0 <= drive_dt d) [mkDrive 3 1000 None; mkDrive 3 0 None] /\
  refractory_counter
    (lif_of (integrate_all (Basic init_default)
                           [mkDrive 3 1000 None; mkDrive 3 0 None])) = -1.
Proof.
  split; [apply initial_basic |].
  split; [repeat constructor; simpl; lra |].
  simpl. unfold integrate at 2. simpl.
  destruct (Rgt_dec 0 0) as [Habs | _]; [lra |].
  unfold integrate, leak_and_fire. simpl.
  destruct (Rge_dec _ _) as [Hfire | Hno]; simpl.
  - destruct (Rgt_dec 2 0) as [_ | Hno]; [simpl; lra | lra].
  - exfalso. apply Hno. lra.
Qed.

(** C8, amended.  For each of the three neuron classes, from a freshly
    constructed or reset instance with [tau_refractory >= 0], after any
    finite sequence of [integrate] calls whose [dt] lie in [[0, D]]: the
    refractory countdown is at least [- D] (nothing clamps it at zero), the
    spike output is [0] or [1], and an [integrate] call entered with a
    positive countdown leaves the potential equal to the resting potential,
    outputs no spike and lowers the countdown by [dt]. *)
Theorem integrate_keeps_countdown_and_output
    (start : neuron) (ds : list drive) (D : R) :
  initial start ->
  0 <= tau_refractory (lif_of start) ->
  0 <= D ->
  Forall (fun d => 0 <= drive_dt d <= D) ds ->
  let n := integrate_all start ds in
  - D <= refractory_counter (lif_of n) /\
  (spike_output (lif_of n) = 0 \/ spike_output (lif_of n) = 1) /\
  (forall d : drive,
     refractory_counter (lif_of n) > 0 ->
     membrane_potential (lif_of (integrate_any n d)) = rest_potential (lif_of n) /\
     spike_output (lif_of (integrate_any n d)) = 0 /\
     refractory_counter (lif_of (integrate_any n d)) =
       refractory_counter (lif_of n) - drive_dt d).
Proof.
  intros Hinit Htau HD Hds n.
  destruct (initial_countdown Hinit) as [Hc Hs].
  assert (Hinv : countdown_invariant D (lif_of n)).
  { apply integrate_all_invariant; [exact Hds |].
    unfold countdown_invariant. rewrite Hc, Hs.
    split; [lra | split; [lra | left; reflexivity]]. }
  destruct Hinv as (_ & Hcount & Hout).
  split; [exact Hcount |]. split; [exact Hout |].
  intros d Hpos. destruct (integrate_any_refractory n d Hpos) as (H1 & _ & H3 & H4).
  auto.
Qed.

Lemma integrate_keeps_countdown_and_output_witness :
  let n := integrate_all (Basic init_default) [mkDrive 3 1000 None; mkDrive 3 0 None] in
  - 3 <= refractory_counter (lif_of n) /\
  (spike_output (lif_of n) = 0 \/ spike_output (lif_of n) = 1).
Proof.
  assert (Hi : initial (Basic init_default)) by apply initial_basic.
  assert (Ht : 0 <= tau_refractory (lif_of (Basic init_default))) by (simpl; lra).
  assert (HD : 0 <= 3) by lra.
  assert (Hd : Forall (fun d => 0 <= drive_dt d <= 3)
                 [mkDrive 3 1000 None; mkDrive 3 0 None])
    by (repeat constructor; simpl; lra).
  destruct (integrate_keeps_countdown_and_output Hi Ht HD Hd) as (H1 & H2 & _).
  split; assumption.
Defined.

End NeuronFacts.

(** ** Neuromodulator field properties *)

Module DiffusionFacts.
Import Numeric NumericFacts Diffusion.

Lemma nth_map_in {A B : Type} (f : A -> B) (l : list A) (i : nat) (d : A) (d' : B) :
  (i < List.length l)%nat -> nth i (map f l) d' = f (nth i l d).
Proof.
  intros Hi. rewrite (nth_indep _ d' (f d)) by (rewrite length_map; exact Hi).
  apply map_nth.
Qed.

Lemma cell_map_map (f : R -> R) (a : grid) (i j : nat) :
  in_grid a i j -> cell (map (map f) a) i j = f (cell a i j).
Proof.
  intros [Hi Hj]. unfold cell.
  rewrite (nth_map_in (map f) a [] [] Hi).
  apply nth_map_in. exact Hj.
Qed.

Lemma in_grid_map_map (f : R -> R) (a : grid) (i j : nat) :
  in_grid a i j <-> in_grid (map (map f) a) i j.
Proof.
  unfold in_grid. rewrite length_map. split; intros [Hi Hj]; split; try exact Hi.
  - rewrite (nth_map_in (map f) a [] [] Hi), length_map. exact Hj.
  - rewrite (nth_map_in (map f) a [] [] Hi), length_map in Hj. exact Hj.
Qed.

(** [mode='same']: the convolution has the shape of its first argument,
    and each of its cells is the zero-padded weighted sum around it. *)
Lemma convolve2d_cell (a kernel : grid) (i j : nat) :
  in_grid a i j ->
  in_grid (convolve2d a kernel) i j /\
  cell (convolve2d a kernel) i j = convolve_at a kernel (Z.of_nat i) (Z.of_nat j).
Proof.
  intros [Hi Hj]. unfold in_grid, cell, convolve2d.
  rewrite length_map, length_seq.
  rewrite (nth_map_in _ (seq 0 (List.length a)) 0%nat [])
    by (rewrite length_seq; exact Hi).
  rewrite seq_nth by exact Hi. simpl.
  rewrite length_map, length_seq.
  split; [split; assumption |].
  rewrite (nth_map_in _ (seq 0 (List.length (nth i a []))) 0%nat 0)
    by (rewrite length_seq; exact Hj).
  rewrite seq_nth by exact Hj. reflexivity.
Qed.

Lemma all_cells_map (P : R -> Prop) (f : R -> R) (a : grid) :
  (forall v, P (f v)) -> all_cells P (map (map f) a).
Proof.
  intros Hf. unfold all_cells. apply Forall_map, Forall_forall. intros row _.
  apply Forall_map, Forall_forall. intros v _. apply Hf.
Qed.

Lemma all_cells_zeros (n : nat) : all_cells in_unit (zeros n).
Proof.
  unfold all_cells, zeros. apply Forall_forall. intros row Hrow.
  apply repeat_spec in Hrow. subst row. apply Forall_forall. intros v Hv.
  apply repeat_spec in Hv. subst v. unfold in_unit. lra.
Qed.

Lemma all_cells_cell (P : R -> Prop) (a : grid) (i j : nat) :
  all_cells P a -> in_grid a i j -> P (cell a i j).
Proof.
  intros Ha [Hi Hj]. unfold cell.
  apply (proj1 (Forall_nth P (nth i a []))); [| exact Hj].
  apply (proj1 (Forall_nth (Forall P) a)); [exact Ha | exact Hi].
Qed.

Lemma Forall_set_nth {A : Type} (P : A -> Prop) (l : list A) (j : nat) (v : A) :
  Forall P l -> P v -> Forall P (set_nth l j v).
Proof.
  intros Hl Hv. revert j. induction Hl as [| x l Hx Hl IH]; intros j; simpl.
  - constructor.
  - destruct j; constructor; auto.
Qed.

Lemma add_at_in_unit (a a' : grid) (pos : Z * Z) (amount : R) :
  all_cells in_unit a -> 0 <= amount -> add_at a pos amount = Some a' ->
  all_cells in_unit a'.
Proof.
  intros Ha Hamount. unfold add_at.
  set (rows := Z.of_nat (List.length a)).
  set (i := if (fst pos <? 0)%Z then (fst pos + rows)%Z else fst pos).
  destruct ((i <? 0) || (rows <=? i))%Z eqn:Hrow; [discriminate |].
  set (row := nth (Z.to_nat i) a []).
  set (cols := Z.of_nat (List.length row)).
  set (j := if (snd pos <? 0)%Z then (snd pos + cols)%Z else snd pos).
  destruct ((j <? 0) || (cols <=? j))%Z eqn:Hcol; [discriminate |].
  intros Heq. injection Heq as <-.
  apply orb_false_elim in Hrow as [Hi0 Hi1]. apply orb_false_elim in Hcol as [Hj0 Hj1].
  apply Z.ltb_ge in Hi0, Hj0. apply Z.leb_gt in Hi1, Hj1.
  assert (Hin : in_grid a (Z.to_nat i) (Z.to_nat j)).
  { unfold in_grid. fold row. subst rows cols. split; lia. }
  pose proof (all_cells_cell Ha Hin) as Hc. unfold in_unit in Hc.
  assert (Hrowok : Forall in_unit row).
  { apply (proj1 (Forall_nth (Forall in_unit) a)); [exact Ha | apply Hin]. }
  apply Forall_set_nth; [exact Ha |].
  apply Forall_set_nth; [exact Hrowok |].
  unfold in_unit, Rmin. destruct (Rle_dec _ _); lra.
Qed.

Lemma apply_diffusion_in_unit (d : NeurotransmitterDiffusion) (a : grid) (dt : R) :
  all_cells in_unit (apply_diffusion d a dt).
Proof.
  unfold apply_diffusion. apply all_cells_map. intros v.
  unfold relax, in_unit. apply clip_bounds. lra.
Qed.

Lemma reachable_invariant (d : NeurotransmitterDiffusion) :
  reachable d -> field_invariant d.
Proof.
  intros Hr. induction Hr as
    [space rate resolution d Hinit
    | d d' position amount ty Hr IH Hamount Hrel
    | d dt Hr IH
    | d Hr IH].
  - unfold init in Hinit.
    destruct (resolution =? 0)%Z; [discriminate |].
    destruct (fst space * snd space <? 0)%Z; [discriminate |].
    injection Hinit as <-. unfold field_invariant. simpl.
    repeat split; try apply all_cells_zeros; try reflexivity.
  - destruct IH as (Hda & Hse & Hach & Hb1 & Hb2 & Hb3 & Htau).
    unfold release in Hrel.
    destruct (position_to_grid d position) as [grid_pos |]; [| discriminate].
    destruct (String.eqb ty "dopamine").
    { destruct (add_at (dopamine_map d) grid_pos amount) as [m |] eqn:Hadd;
        [| discriminate].
      injection Hrel as <-. unfold field_invariant. simpl.
      repeat split; auto. exact (add_at_in_unit _ Hda Hamount Hadd). }
    destruct (String.eqb ty "serotonin").
    { destruct (add_at (serotonin_map d) grid_pos amount) as [m |] eqn:Hadd;
        [| discriminate].
      injection Hrel as <-. unfold field_invariant. simpl.
      repeat split; auto. exact (add_at_in_unit _ Hse Hamount Hadd). }
    destruct (String.eqb ty "acetylcholine").
    { destruct (add_at (acetylcholine_map d) grid_pos amount) as [m |] eqn:Hadd;
        [| discriminate].
      injection Hrel as <-. unfold field_invariant. simpl.
      repeat split; auto. exact (add_at_in_unit _ Hach Hamount Hadd). }
    injection Hrel as <-. unfold field_invariant. repeat split; auto.
  - destruct IH as (Hda & Hse & Hach & Hb1 & Hb2 & Hb3 & Htau).
    unfold field_invariant. simpl.
    repeat split; auto; apply apply_diffusion_in_unit.
  - destruct IH as (Hda & Hse & Hach & Hb1 & Hb2 & Hb3 & Htau).
    unfold field_invariant. simpl.
    repeat split; auto; apply all_cells_map; intros _; unfold in_unit; lra.
Qed.

(** The decay stage moves a diffused value toward the baseline it uses. *)
Lemma relax_toward (d : NeurotransmitterDiffusion) (dt v : R) :
  0 <= dopamine_baseline d <= 1 -> 0 < decay_tau d -> 0 < dt ->
  toward (dopamine_baseline d) v (relax d dt v).
Proof.
  intros Hb Htau Hdt. unfold relax.
  set (b := dopamine_baseline d) in *.
  assert (Hdecay : 0 < exp (- dt / decay_tau d) < 1).
  { replace (- dt / decay_tau d) with (- (dt / decay_tau d)) by (field; lra).
    apply exp_neg_lt_1. apply Rdiv_lt_0_compat; assumption. }
  set (decay := exp (- dt / decay_tau d)) in *.
  set (x := b + (v - b) * decay).
  assert (Hclip : (b <= x -> b <= clip x 0 1 <= x) /\ (x <= b -> x <= clip x 0 1 <= b)).
  { unfold clip, Rmin, Rmax.
    destruct (Rle_dec x 0); destruct (Rle_dec 1 _); lra. }
  assert (Hup : b <= v -> b <= x <= v) by (intros; unfold x; nra).
  assert (Hdown : v <= b -> v <= x <= b) by (intros; unfold x; nra).
  assert (Hlt : v < b -> v < x) by (intros; unfold x; nra).
  assert (Hgt : b < v -> x < v) by (intros; unfold x; nra).
  destruct Hclip as [Hc1 Hc2].
  unfold toward. split; [| split].
  - intros Hv. specialize (Hup Hv). specialize (Hc1 (proj1 Hup)). lra.
  - intros Hv. specialize (Hdown Hv). specialize (Hc2 (proj2 Hdown)). lra.
  - intros Hne. destruct (Rlt_le_dec v b) as [Hvb | Hbv].
    + specialize (Hlt Hvb). assert (Hv : v <= b) by lra.
      specialize (Hdown Hv). specialize (Hc2 (proj2 Hdown)).
      unfold Rabs. destruct (Rcase_abs _); destruct (Rcase_abs _); lra.
    + assert (Hv : b < v) by lra. specialize (Hgt Hv).
      assert (Hv' : b <= v) by lra.
      specialize (Hup Hv'). specialize (Hc1 (proj1 Hup)).
      unfold Rabs. destruct (Rcase_abs _); destruct (Rcase_abs _); lra.
Qed.

Lemma diffuse_cell (d : NeurotransmitterDiffusion) (a : grid) (dt : R) (i j : nat) :
  in_grid a i j ->
  cell (apply_diffusion d a dt) i j =
    relax d dt (convolve_at a (diffusion_kernel d) (Z.of_nat i) (Z.of_nat j)) /\
  cell (apply_diffusion d a dt) i j =
    relax d dt (cell (convolve2d a (diffusion_kernel d)) i j).
Proof.
  intros Hin. destruct (convolve2d_cell (diffusion_kernel d) Hin) as [Hin' Hcell].
  unfold apply_diffusion. rewrite (cell_map_map _ Hin'). rewrite Hcell. auto.
Qed.

(** C1, amended.  In every state a field reaches from its constructor by
    releases of non-negative amounts, diffusion steps and resets, every
    cell of the three maps is in [[0, 1]]; and a [diffuse(dt)] call with
    [dt > 0] moves the blurred value of every dopamine and serotonin cell
    (the zero-padded 3x3 convolution around it) toward the baseline [0.3]:
    the new cell lies between the blurred value and [0.3], strictly nearer
    to [0.3] unless the blurred value is [0.3]. *)
Theorem concentrations_bounded_and_relaxing (d : NeurotransmitterDiffusion) :
  reachable d ->
  (all_cells in_unit (dopamine_map d) /\
   all_cells in_unit (serotonin_map d) /\
   all_cells in_unit (acetylcholine_map d)) /\
  (forall (dt : R) (i j : nat), 0 < dt ->
     (in_grid (dopamine_map d) i j ->
        toward 0.3 (cell (convolve2d (dopamine_map d) (diffusion_kernel d)) i j)
                   (cell (dopamine_map (diffuse d dt)) i j)) /\
     (in_grid (serotonin_map d) i j ->
        toward 0.3 (cell (convolve2d (serotonin_map d) (diffusion_kernel d)) i j)
                   (cell (serotonin_map (diffuse d dt)) i j))).
Proof.
  intros Hr. destruct (reachable_invariant Hr) as (Hda & Hse & Hach & Hb1 & Hb2 & Hb3 & Htau).
  split; [auto |].
  intros dt i j Hdt.
  assert (Hrelax : forall v, toward 0.3 v (relax d dt v)).
  { intros v. rewrite <- Hb1. apply relax_toward; rewrite ?Hb1, ?Htau; lra. }
  split; intros Hin; simpl;
    rewrite (proj2 (diffuse_cell d dt Hin)); apply Hrelax.
Qed.

(** The decay stage takes no baseline argument: the acetylcholine map is
    relaxed toward [dopamine_baseline] ([0.3]) as well, although the field
    declares [acetylcholine_baseline = 0.2] and [reset] fills the map with
    it. *)
Lemma acetylcholine_relaxes_toward_dopamine_baseline
    (d : NeurotransmitterDiffusion) (dt : R) (i j : nat) :
  reachable d -> 0 < dt -> in_grid (acetylcholine_map d) i j ->
  acetylcholine_baseline d = 0.2 /\
  toward 0.3 (cell (convolve2d (acetylcholine_map d) (diffusion_kernel d)) i j)
             (cell (acetylcholine_map (diffuse d dt)) i j).
Proof.
  intros Hr Hdt Hin.
  destruct (reachable_invariant Hr) as (_ & _ & _ & Hb1 & _ & Hb3 & Htau).
  split; [exact Hb3 |]. simpl.
  rewrite (proj2 (diffuse_cell d dt Hin)). rewrite <- Hb1.
  apply relax_toward; rewrite ?Hb1, ?Htau; lra.
Qed.

Lemma init_default_field : init_default = Some default_field.
Proof. reflexivity. Qed.

Lemma concentrations_bounded_and_relaxing_witness :
  all_cells in_unit (dopamine_map (diffuse default_field 1)).
Proof.
  assert (Hr : reachable (diffuse default_field 1)).
  { apply reach_diffuse. exact (reach_init _ _ _ init_default_field). }
  exact (proj1 (proj1 (concentrations_bounded_and_relaxing Hr))).
Defined.

Lemma convolve_at_3x3 (a : grid) (k00 k01 k02 k10 k11 k12 k20 k21 k22 : R) (i j : Z) :
  convolve_at a [[k00; k01; k02]; [k10; k11; k12]; [k20; k21; k22]] i j =
    k00 * padded a (i + 1) (j + 1) + k01 * padded a (i + 1) j +
    k02 * padded a (i + 1) (j - 1) +
    k10 * padded a i (j + 1) + k11 * padded a i j + k12 * padded a i (j - 1) +
    k20 * padded a (i - 1) (j + 1) + k21 * padded a (i - 1) j +
    k22 * padded a (i - 1) (j - 1).
Proof.
  unfold convolve_at. cbn [List.length seq map fold_right nth].
  change ((Z.of_nat 3 - 1) / 2)%Z with 1%Z.
  change (Z.of_nat 0) with 0%Z. change (Z.of_nat 1) with 1%Z.
  change (Z.of_nat 2) with 2%Z.
  replace (i + 1 - 0)%Z with (i + 1)%Z by lia.
  replace (j + 1 - 0)%Z with (j + 1)%Z by lia.
  replace (i + 1 - 1)%Z with i by lia.
  replace (j + 1 - 1)%Z with j by lia.
  replace (i + 1 - 2)%Z with (i - 1)%Z by lia.
  replace (j + 1 - 2)%Z with (j - 1)%Z by lia.
  ring.
Qed.

Lemma set_nth_length {A : Type} (l : list A) (j : nat) (v : A) :
  List.length (set_nth l j v) = List.length l.
Proof.
  revert j. induction l as [| x l IH]; intros j; simpl; [reflexivity |].
  destruct j; simpl; [reflexivity | rewrite IH; reflexivity].
Qed.

Lemma square_row (g : Z) (a : grid) (i : nat) :
  square g a -> (i < List.length a)%nat -> Z.of_nat (List.length (nth i a [])) = g.
Proof.
  intros [_ Hrows] Hi.
  exact (proj1 (Forall_nth _ a) Hrows i [] Hi).
Qed.

Lemma add_at_square (g : Z) (a : grid) (pos : Z * Z) (amount : R) :
  square g a -> (0 <= fst pos < g)%Z -> (0 <= snd pos < g)%Z ->
  exists a', add_at a pos amount = Some a' /\ square g a'.
Proof.
  intros Hsq Hx Hy. pose proof Hsq as [Hlen Hrows]. unfold add_at.
  assert (Hx0 : (fst pos <? 0)%Z = false) by (apply Z.ltb_ge; lia).
  assert (Hy0 : (snd pos <? 0)%Z = false) by (apply Z.ltb_ge; lia).
  assert (Hx1 : (g <=? fst pos)%Z = false) by (apply Z.leb_gt; lia).
  assert (Hy1 : (g <=? snd pos)%Z = false) by (apply Z.leb_gt; lia).
  assert (Hi : (Z.to_nat (fst pos) < List.length a)%nat) by lia.
  cbv zeta. rewrite !Hx0, Hlen, Hx1. cbn [orb].
  rewrite (square_row Hsq Hi). rewrite !Hy0, Hy1. cbn [orb].
  eexists. split; [reflexivity |].
  split.
  - rewrite set_nth_length. exact Hlen.
  - apply Forall_set_nth; [exact Hrows |].
    rewrite set_nth_length. exact (square_row Hsq Hi).
Qed.

Lemma position_to_grid_ready (d : NeurotransmitterDiffusion) (position : R * R) :
  ready d ->
  exists pos, position_to_grid d position = Some pos /\
              (0 <= fst pos < grid_size d)%Z /\ (0 <= snd pos < grid_size d)%Z.
Proof.
  intros (Hw & Hh & Hg & _). unfold position_to_grid.
  destruct (space_size d) as [w h]. simpl in Hw, Hh.
  assert (Hwz : (w =? 0)%Z = false) by (apply Z.eqb_neq; exact Hw).
  assert (Hhz : (h =? 0)%Z = false) by (apply Z.eqb_neq; exact Hh).
  rewrite Hwz, Hhz. cbn [orb].
  eexists. split; [reflexivity |]. simpl. lia.
Qed.

Lemma release_dopamine_ready (d : NeurotransmitterDiffusion) (position : R * R) (amount : R) :
  ready d ->
  exists d', release d position amount "dopamine" = Some d' /\ ready d'.
Proof.
  intros Hready. destruct (position_to_grid_ready position Hready) as (pos & Hpos & Hx & Hy).
  pose proof Hready as (Hw & Hh & Hg & Hsq).
  destruct (@add_at_square _ _ pos amount Hsq Hx Hy) as (a' & Hadd & Hsq').
  unfold release. rewrite Hpos.
  change (String.eqb "dopamine" "dopamine") with true. cbv iota.
  rewrite Hadd. simpl. eexists. split; [reflexivity |].
  unfold ready. simpl. auto.
Qed.

Lemma apply_diffusion_square (d : NeurotransmitterDiffusion) (g : Z) (a : grid) (dt : R) :
  square g a -> square g (apply_diffusion d a dt).
Proof.
  intros [Hlen Hrows]. unfold apply_diffusion, convolve2d, square.
  rewrite !length_map, length_seq. split; [exact Hlen |].
  apply Forall_map, Forall_map, Forall_forall. intros i Hi.
  apply in_seq in Hi. rewrite !length_map, length_seq.
  apply (proj1 (Forall_nth _ a) Hrows). lia.
Qed.

Lemma diffuse_ready (d : NeurotransmitterDiffusion) (dt : R) :
  ready d -> ready (diffuse d dt).
Proof.
  intros (Hw & Hh & Hg & Hsq). unfold ready. simpl.
  repeat split; auto; apply apply_diffusion_square; exact Hsq.
Qed.

Lemma kernel_entry_pos (i j : nat) : 0 < kernel_entry i j.
Proof. unfold kernel_entry. apply exp_pos. Qed.

Lemma int_of_0 : int_of 0 = 0%Z.
Proof.
  unfold int_of. destruct (Rle_dec 0 0) as [_ | Hn]; [| exfalso; lra].
  symmetry. apply Int_part_spec. simpl. lra.
Qed.

(** The claim C1 as stated fails.  After [reset()] every dopamine cell of
    the default field is at the baseline [0.3]; one [diffuse(1)] moves the
    corner cell below [0.3], because the convolution reads zeros outside
    the grid.  And a release of a negative amount leaves a negative
    concentration in the cell. *)
Lemma baseline_cell_moves_away :
  init_default = Some default_field /\
  cell (dopamine_map (reset default_field)) 0 0 = 0.3 /\
  cell (dopamine_map (diffuse (reset default_field) 1)) 0 0 < 0.3 /\
  (exists d' : NeurotransmitterDiffusion,
     release default_field (0, 0) (-1) "dopamine" = Some d' /\
     cell (dopamine_map d') 0 0 = -1).
Proof.
  split; [reflexivity |]. split; [reflexivity |]. split.
  - assert (Hin : in_grid (dopamine_map (reset default_field)) 0 0).
    { unfold in_grid. simpl. lia. }
    change (dopamine_map (diffuse (reset default_field) 1))
      with (apply_diffusion (reset default_field) (dopamine_map (reset default_field)) 1).
    rewrite (proj1 (diffuse_cell (reset default_field) 1 Hin)).
    change (diffusion_kernel (reset default_field)) with create_diffusion_kernel.
    unfold create_diffusion_kernel. cbn [seq map].
    rewrite convolve_at_3x3.
    change (padded (dopamine_map (reset default_field)) (Z.of_nat 0 + 1) (Z.of_nat 0 + 1))
      with 0.3.
    change (padded (dopamine_map (reset default_field)) (Z.of_nat 0 + 1) (Z.of_nat 0))
      with 0.3.
    change (padded (dopamine_map (reset default_field)) (Z.of_nat 0) (Z.of_nat 0 + 1))
      with 0.3.
    change (padded (dopamine_map (reset default_field)) (Z.of_nat 0) (Z.of_nat 0))
      with 0.3.
    change (padded (dopamine_map (reset default_field)) (Z.of_nat 0 + 1) (Z.of_nat 0 - 1))
      with 0.
    change (padded (dopamine_map (reset default_field)) (Z.of_nat 0) (Z.of_nat 0 - 1))
      with 0.
    change (padded (dopamine_map (reset default_field)) (Z.of_nat 0 - 1) (Z.of_nat 0 + 1))
      with 0.
    change (padded (dopamine_map (reset default_field)) (Z.of_nat 0 - 1) (Z.of_nat 0))
      with 0.
    change (padded (dopamine_map (reset default_field)) (Z.of_nat 0 - 1) (Z.of_nat 0 - 1))
      with 0.
    unfold grid_sum. cbn [map fold_right].
    pose proof (kernel_entry_pos 0 0) as P00. pose proof (kernel_entry_pos 0 1) as P01.
    pose proof (kernel_entry_pos 0 2) as P02. pose proof (kernel_entry_pos 1 0) as P10.
    pose proof (kernel_entry_pos 1 1) as P11. pose proof (kernel_entry_pos 1 2) as P12.
    pose proof (kernel_entry_pos 2 0) as P20. pose proof (kernel_entry_pos 2 1) as P21.
    pose proof (kernel_entry_pos 2 2) as P22.
    set (total := kernel_entry 0 0 + (kernel_entry 0 1 + (kernel_entry 0 2 + 0)) +
                  (kernel_entry 1 0 + (kernel_entry 1 1 + (kernel_entry 1 2 + 0)) +
                   (kernel_entry 2 0 + (kernel_entry 2 1 + (kernel_entry 2 2 + 0)) + 0))).
    assert (Htotal : 0 < total) by (unfold total; lra).
    set (inside := kernel_entry 0 0 + kernel_entry 0 1 + kernel_entry 1 0 + kernel_entry 1 1).
    assert (Hinside : 0 < inside < total) by (unfold inside, total; lra).
    match goal with
    | |- relax _ _ ?blurred < _ =>
        replace blurred with (0.3 * (inside / total)) by (unfold inside; field; lra)
    end.
    assert (Hratio : 0 < inside / total < 1).
    { split; [apply Rdiv_lt_0_compat; lra |].
      apply (Rmult_lt_reg_r total); [exact Htotal |].
      unfold Rdiv. rewrite Rmult_assoc, Rinv_l by lra. lra. }
    unfold relax. change (dopamine_baseline (reset default_field)) with 0.3.
    match goal with
    | |- context [exp ?t] => pose proof (exp_pos t) as Hdecay; set (decay := exp t) in *
    end.
    set (ratio := inside / total) in *.
    unfold clip, Rmin, Rmax.
    destruct (Rle_dec (0.3 + (0.3 * ratio - 0.3) * decay) 0);
      destruct (Rle_dec 1 _); nra.
  - assert (Hpos : position_to_grid default_field (0, 0) = Some (0, 0)%Z).
    { unfold position_to_grid.
      change (space_size default_field) with (400, 400)%Z.
      change (grid_size default_field) with 20%Z.
      cbn [Z.eqb orb fst snd].
      replace (0 / IZR 400 * IZR 20) with 0 by (field; lra).
      rewrite int_of_0. reflexivity. }
    unfold release. rewrite Hpos.
    change (String.eqb "dopamine" "dopamine") with true. cbv iota.
    eexists. split; [reflexivity |].
    cbn. unfold Rmin. destruct (Rle_dec 1 (0 + -1)); lra.
Qed.

End DiffusionFacts.

(** ** What [reset] restores *)

Module ResetFacts.
Import Numeric NumericFacts.

Lemma integrate_any_parameters (n : Neuron.neuron) (d : Neuron.drive) :
  Neuron.same_parameters (Neuron.lif_of n) (Neuron.lif_of (Neuron.integrate_any n d)).
Proof.
  unfold Neuron.same_parameters. destruct n as [n | n | n]; simpl.
  - unfold Neuron.integrate. destruct (Rgt_dec _ _); simpl; auto.
  - unfold Neuron.pyramidal_integrate.
    destruct (Rgt_dec (Neuron.refractory_counter _) 0); simpl; auto.
  - unfold Neuron.fast_integrate.
    destruct (Rgt_dec (Neuron.refractory_counter _) 0); simpl; auto.
Qed.

Lemma integrate_all_parameters (ds : list Neuron.drive) (n : Neuron.neuron) :
  Neuron.same_parameters (Neuron.lif_of n) (Neuron.lif_of (Neuron.integrate_all n ds)).
Proof.
  revert n. induction ds as [| d ds IH]; intros n; simpl.
  - unfold Neuron.same_parameters. auto.
  - destruct (integrate_any_parameters n d) as (H1 & H2 & H3 & H4 & H5).
    destruct (IH (Neuron.integrate_any n d)) as (K1 & K2 & K3 & K4 & K5).
    unfold Neuron.same_parameters. repeat split; congruence.
Qed.

Lemma reset_is_init (n : Neuron.LIFNeuron) :
  Neuron.reset n =
    Neuron.init (Neuron.rest_potential n) (Neuron.threshold n) (Neuron.tau_membrane n)
                (Neuron.tau_refractory n) (Neuron.max_firing_rate n).
Proof. reflexivity. Qed.

Lemma lif_of_reset_any (n : Neuron.neuron) :
  Neuron.lif_of (Neuron.reset_any n) = Neuron.reset (Neuron.lif_of n).
Proof. destruct n; reflexivity. Qed.

Lemma reset_same_parameters (n n' : Neuron.LIFNeuron) :
  Neuron.same_parameters n n' -> Neuron.reset n' = Neuron.reset n.
Proof.
  intros (H1 & H2 & H3 & H4 & H5). rewrite !reset_is_init. congruence.
Qed.

Lemma initial_is_reset (n : Neuron.neuron) :
  Neuron.initial n -> Neuron.reset (Neuron.lif_of n) = Neuron.lif_of n.
Proof.
  intros Hi. destruct Hi as [? ? ? ? ? | ? ? ? ? ? | ? ? ? | n]; try reflexivity.
  destruct n; reflexivity.
Qed.

Lemma reset_state_fresh (n : Neuron.LIFNeuron) : Neuron.lif_state_fresh (Neuron.reset n).
Proof. unfold Neuron.lif_state_fresh. simpl. repeat split. Qed.

Lemma column_reset_fresh (c : Tectum.TectalColumn) :
  Tectum.column_neurons_fresh (Tectum.column_reset c).
Proof.
  unfold Tectum.column_neurons_fresh. simpl.
  repeat split; apply Forall_map, Forall_forall; intros n _; apply reset_state_fresh.
Qed.

(** The claim C9 as stated fails: a freshly constructed default field has
    zero concentration everywhere, and [reset()] on it fills the maps with
    the baselines. *)
Lemma field_reset_differs_from_fresh :
  Diffusion.init_default = Some Diffusion.default_field /\
  Diffusion.cell (Diffusion.dopamine_map Diffusion.default_field) 0 0 = 0 /\
  Diffusion.cell (Diffusion.dopamine_map (Diffusion.reset Diffusion.default_field)) 0 0 = 0.3 /\
  Diffusion.reset Diffusion.default_field <> Diffusion.default_field.
Proof.
  split; [reflexivity |]. split; [reflexivity |]. split; [reflexivity |].
  intros Heq.
  assert (H : Diffusion.cell (Diffusion.dopamine_map (Diffusion.reset Diffusion.default_field)) 0 0
              = Diffusion.cell (Diffusion.dopamine_map Diffusion.default_field) 0 0)
    by (rewrite Heq; reflexivity).
  change (0.3 = 0) in H. lra.
Qed.

(** C9, amended.  [reset()] restores the [LIFNeuron] attributes of a
    neuron of any class: after any sequence of [integrate] calls from a
    fresh or reset instance they are again those of that instance, so a
    basic LIF neuron is exactly as constructed.  [reset()] of the
    neuromodulator field keeps the shape of each map and sets every cell
    to that transmitter's baseline, not to the zero of a fresh field.
    [reset()] of the tectum gives every neuron of every column the state
    of a fresh one and zeroes [tectal_output]. *)
Theorem reset_restores_lif_state_and_baselines :
  (forall (start : Neuron.neuron) (ds : list Neuron.drive),
     Neuron.initial start ->
     Neuron.lif_of (Neuron.reset_any (Neuron.integrate_all start ds)) = Neuron.lif_of start) /\
  (forall (n0 : Neuron.LIFNeuron) (ds : list Neuron.drive),
     Neuron.initial (Neuron.Basic n0) ->
     Neuron.reset_any (Neuron.integrate_all (Neuron.Basic n0) ds) = Neuron.Basic n0) /\
  (forall (d : Diffusion.NeurotransmitterDiffusion) (i j : nat),
     (Diffusion.in_grid (Diffusion.dopamine_map d) i j ->
        Diffusion.in_grid (Diffusion.dopamine_map (Diffusion.reset d)) i j /\
        Diffusion.cell (Diffusion.dopamine_map (Diffusion.reset d)) i j =
          Diffusion.dopamine_baseline d) /\
     (Diffusion.in_grid (Diffusion.serotonin_map d) i j ->
        Diffusion.in_grid (Diffusion.serotonin_map (Diffusion.reset d)) i j /\
        Diffusion.cell (Diffusion.serotonin_map (Diffusion.reset d)) i j =
          Diffusion.serotonin_baseline d) /\
     (Diffusion.in_grid (Diffusion.acetylcholine_map d) i j ->
        Diffusion.in_grid (Diffusion.acetylcholine_map (Diffusion.reset d)) i j /\
        Diffusion.cell (Diffusion.acetylcholine_map (Diffusion.reset d)) i j =
          Diffusion.acetylcholine_baseline d)) /\
  (forall t : Tectum.Tectum,
     Tectum.tectal_output (Tectum.reset t) = repeat 0 (Z.to_nat (Tectum.num_columns t)) /\
     Forall Tectum.column_neurons_fresh (Tectum.columns (Tectum.reset t))).
Proof.
  assert (Hlif : forall (start : Neuron.neuron) (ds : list Neuron.drive),
             Neuron.initial start ->
             Neuron.lif_of (Neuron.reset_any (Neuron.integrate_all start ds))
             = Neuron.lif_of start).
  { intros start ds Hi. rewrite lif_of_reset_any.
    rewrite (reset_same_parameters (integrate_all_parameters ds start)).
    apply initial_is_reset. exact Hi. }
  split; [exact Hlif |]. split; [| split].
  - intros n0 ds Hi. specialize (Hlif (Neuron.Basic n0) ds Hi).
    assert (Hshape : forall ds' m, exists m', Neuron.integrate_all (Neuron.Basic m) ds' = Neuron.Basic m').
    { induction ds' as [| d ds' IH]; intros m; simpl; [eauto | apply IH]. }
    destruct (Hshape ds n0) as [m' Hm']. rewrite Hm' in *. simpl in *. congruence.
  - intros d i j. split; [| split]; intros Hin; simpl; unfold Diffusion.fill;
      (split; [apply -> DiffusionFacts.in_grid_map_map; exact Hin
              | rewrite (DiffusionFacts.cell_map_map _ Hin); reflexivity]).
  - intros t. split; [reflexivity |]. simpl.
    apply Forall_map, Forall_forall. intros c _. apply column_reset_fresh.
Qed.

Lemma reset_restores_lif_state_and_baselines_witness :
  Neuron.reset_any
    (Neuron.integrate_all (Neuron.Basic Neuron.init_default)
       [Neuron.mkDrive 3 1000 None; Neuron.mkDrive 3 0 None])
  = Neuron.Basic Neuron.init_default.
Proof.
  apply (proj1 (proj2 reset_restores_lif_state_and_baselines)).
  apply Neuron.initial_basic.
Defined.

End ResetFacts.

(** ** Structural plasticity properties *)

Module StructuralFacts.
Import Numeric NumericFacts Structural.






End StructuralFacts.

(** ** Functional plasticity properties *)

Module FunctionalFacts.
Import Numeric NumericFacts Functional.

(** A loop whose body leaves the store alone leaves the store alone. *)
Lemma for_each_frame {A : Type} (body : A -> action unit) (l : list A) :
  (forall x w, body x w = (tt, w)) -> forall w, for_each l body w = (tt, w).
Proof.
  intros Hbody. induction l as [| x rest IH]; intros w; simpl.
  - reflexivity.
  - unfold bind. rewrite Hbody. apply IH.
Qed.

(** C7.  [apply_homeostatic_scaling] computes, for each neuron, a scaling
    factor from its recent activity ([1 - rate * dt] above 1.5 times the
    target, [1 + rate * dt] below half the target, [1] otherwise) and
    applies it to nothing: whatever the manager, the list of neurons and
    [dt], the store after the call is the store before it, so every
    attribute of every neuron and every synapse is as it was. *)
Theorem homeostatic_scaling_changes_nothing
    (m : FunctionalPlasticityManager) (neurons : list nat) (dt : R) (w : world) :
  apply_homeostatic_scaling m neurons dt w = (tt, w) /\
  neurons_of (snd (apply_homeostatic_scaling m neurons dt w)) = neurons_of w /\
  synapses_of (snd (apply_homeostatic_scaling m neurons dt w)) = synapses_of w /\
  (forall a : R,
     (a > homeostatic_target m * 1.5 ->
        scaling_factor m dt a = 1 - homeostatic_learning_rate m * dt) /\
     (a <= homeostatic_target m * 1.5 -> a < homeostatic_target m * 0.5 ->
        scaling_factor m dt a = 1 + homeostatic_learning_rate m * dt) /\
     (a <= homeostatic_target m * 1.5 -> a >= homeostatic_target m * 0.5 ->
        scaling_factor m dt a = 1)).
Proof.
  assert (Hframe : apply_homeostatic_scaling m neurons dt w = (tt, w)).
  { unfold apply_homeostatic_scaling.
    destruct (negb (synaptic_scaling_enabled m)); [reflexivity |].
    apply for_each_frame. intros r w'. unfold bind, read_neuron.
    destruct (nth_error (neurons_of w') r); reflexivity. }
  rewrite Hframe. simpl. repeat split.
  - intros Ha. unfold scaling_factor.
    destruct (Rgt_dec _ _); [reflexivity | contradiction].
  - intros Ha Hb. unfold scaling_factor.
    destruct (Rgt_dec _ _); [lra |]. destruct (Rlt_dec _ _); [reflexivity | contradiction].
  - intros Ha Hb. unfold scaling_factor.
    destruct (Rgt_dec _ _); [lra |]. destruct (Rlt_dec _ _); [lra | reflexivity].
Qed.

Lemma homeostatic_scaling_changes_nothing_witness :
  let n := Neuron.with_state Neuron.init_default (-70) 0 0 (-1000) [-30] in
  let w := {| neurons_of := [Neuron.Basic n];
              synapses_of := [Synapse.init_default 0.5] |} in
  apply_homeostatic_scaling init [0%nat] 1 w = (tt, w) /\
  scaling_factor init 1 1 = 1 - homeostatic_learning_rate init * 1.
Proof.
  intros n w.
  pose proof (homeostatic_scaling_changes_nothing init [0%nat] 1 w) as (H1 & _ & _ & H4).
  split; [exact H1 |].
  apply (proj1 (H4 1)). simpl. lra.
Defined.

(** The sibling routine is not a no-op: a neuron whose recorded potential
    is above its threshold gets a higher threshold. *)
Lemma intrinsic_plasticity_raises_threshold :
  let n := Neuron.with_state Neuron.init_default (-70) 0 0 (-1000) [-30] in
  let w := {| neurons_of := [Neuron.Basic n]; synapses_of := [] |} in
  option_map (fun x => Neuron.threshold (Neuron.lif_of x))
    (nth_error (neurons_of (snd (apply_intrinsic_plasticity init [0%nat] 1 w))) 0)
  = Some (-40 + 0.0001 * 1).
Proof.
  intros n w. unfold apply_intrinsic_plasticity. simpl.
  unfold bind, read_neuron. simpl.
  assert (Hrate : recent_spike_rate n = 1).
  { unfold recent_spike_rate, mean, last_n. simpl.
    destruct (Rgt_dec (-30) (-40)) as [_ | Hn]; [| exfalso; apply Hn; lra].
    simpl. field. }
  rewrite Hrate.
  destruct (Rgt_dec 1 (0.3 * 1.5)) as [_ | Hn]; [| exfalso; apply Hn; lra].
  reflexivity.
Qed.

End FunctionalFacts.

(** ** Properties of the orchestrator *)

Module BrainFacts.
Import Numeric NumericFacts Brain.

Section WithCollaborators.
Context {C : Collaborators}.

Lemma neuromodulation_frame (b : BioFrogBrain) (reward activity dt0 : R) :
  stage (fst (update_neuromodulation b reward activity dt0)) = stage b /\
  synapses (fst (update_neuromodulation b reward activity dt0)) = synapses b /\
  functional_plasticity (fst (update_neuromodulation b reward activity dt0))
    = functional_plasticity b.
Proof.
  unfold update_neuromodulation.
  destruct (if Rgt_dec reward 0 then _ else _); simpl; auto.
Qed.

Lemma neuromodulation_ready (b : BioFrogBrain) (reward activity dt0 : R) :
  Diffusion.ready (neurotransmitter_system b) ->
  snd (update_neuromodulation b reward activity dt0) = None /\
  Diffusion.ready (neurotransmitter_system (fst (update_neuromodulation b reward activity dt0))).
Proof.
  intros Hready. unfold update_neuromodulation.
  destruct (Rgt_dec reward 0).
  - destruct (DiffusionFacts.release_dopamine_ready (400, 300) reward Hready)
      as (d' & Hrel & Hready').
    rewrite Hrel. simpl. split; [reflexivity |].
    apply DiffusionFacts.diffuse_ready. exact Hready'.
  - simpl. split; [reflexivity |]. apply DiffusionFacts.diffuse_ready. exact Hready.
Qed.

Lemma plasticity_frame (b b' : BioFrogBrain) (activity : list R) (g g' : rng) :
  apply_plasticity b activity g = inr (b', g') ->
  stage b' = stage b /\ neurotransmitter_system b' = neurotransmitter_system b.
Proof.
  unfold apply_plasticity.
  destruct (0 <? List.length (synapses b))%nat.
  - destruct (call_update (functional_plasticity b)); [discriminate |].
    destruct (Structural.update_structure _ _ _ _ _) as [[m g1] l].
    intros H. injection H as <- <-. simpl. auto.
  - intros H. injection H as <- <-. auto.
Qed.

(** With a synapse in the list, step 6 looks up [update] on the
    functional manager, which has no such attribute. *)
Lemma plasticity_raises (b : BioFrogBrain) (activity : list R) (g : rng) :
  synapses b <> [] ->
  apply_plasticity b activity g =
    inl (AttributeError "FunctionalPlasticityManager" "update").
Proof.
  intros Hne. unfold apply_plasticity.
  destruct (synapses b) as [| s l]; [contradiction |]. reflexivity.
Qed.

Lemma plasticity_skipped (b : BioFrogBrain) (activity : list R) (g : rng) :
  synapses b = [] -> apply_plasticity b activity g = inr (b, g).
Proof. intros Hnil. unfold apply_plasticity. rewrite Hnil. reflexivity. Qed.

(** Whatever happens later in a tick, its effect on the developmental
    state is that of the first statements of [update]. *)
Lemma update_stage (b : BioFrogBrain) (g : rng) (t : tick) :
  stage (fst (fst (update_with b g t))) = stage (advance_age b).
Proof.
  unfold update_with, update.
  destruct (process_sensory_input _ _) as [s1 retinal].
  destruct (process_motion _ _ _) as [s2 command].
  destruct (generate_motor_output _ _) as [s3 muscles].
  match goal with
  | |- context [update_neuromodulation ?x ?r ?a ?d] =>
      pose proof (neuromodulation_frame x r a d) as (Hstage & _ & _);
      destruct (update_neuromodulation x r a d) as [b1 [e |]]
  end; simpl in Hstage.
  - simpl. exact Hstage.
  - match goal with
    | |- context [apply_plasticity ?x ?a ?gg] =>
        destruct (apply_plasticity x a gg) as [e | [b2 g2]] eqn:Hp
    end.
    + simpl. exact Hstage.
    + apply plasticity_frame in Hp. destruct Hp as [Hp _]. simpl in *.
      unfold stage in *. simpl in *. congruence.
Qed.

(** A tick of a brain without synapses and with a well-formed field
    returns its snapshot, and leaves such a brain. *)
Lemma update_returns (b : BioFrogBrain) (g : rng) (t : tick) :
  synapses b = [] -> Diffusion.ready (neurotransmitter_system b) ->
  synapses (fst (fst (update_with b g t))) = [] /\
  Diffusion.ready (neurotransmitter_system (fst (fst (update_with b g t)))) /\
  exists snap : snapshot,
    snd (update_with b g t) = inr snap /\
    snap_is_juvenile snap = is_juvenile (advance_age b) /\
    snap_reward snap = tick_reward t.
Proof.
  intros Hnil Hready. unfold update_with, update.
  destruct (process_sensory_input _ _) as [s1 retinal].
  destruct (process_motion _ _ _) as [s2 command].
  destruct (generate_motor_output _ _) as [s3 muscles].
  match goal with
  | |- context [update_neuromodulation ?x ?r ?a ?d] =>
      pose proof (neuromodulation_frame x r a d) as (Hstage & Hsyn & _);
      pose proof (@neuromodulation_ready x r a d Hready) as (Hok & Hready1);
      destruct (update_neuromodulation x r a d) as [b1 o]
  end.
  simpl in Hstage, Hsyn, Hok, Hready1. subst o.
  assert (Hnil1 : synapses b1 = []) by (rewrite Hsyn; exact Hnil).
  rewrite plasticity_skipped by (simpl; exact Hnil1).
  simpl. split; [exact Hnil1 |]. split; [exact Hready1 |].
  eexists. split; [reflexivity |]. simpl.
  unfold stage in Hstage. simpl in Hstage. split; [congruence | reflexivity].
Qed.

(** With a synapse in the list every tick ends with an exception. *)
Lemma update_raises (b : BioFrogBrain) (g : rng) (t : tick) :
  synapses b <> [] -> exists e : exn, snd (update_with b g t) = inl e.
Proof.
  intros Hne. unfold update_with, update.
  destruct (process_sensory_input _ _) as [s1 retinal].
  destruct (process_motion _ _ _) as [s2 command].
  destruct (generate_motor_output _ _) as [s3 muscles].
  match goal with
  | |- context [update_neuromodulation ?x ?r ?a ?d] =>
      pose proof (neuromodulation_frame x r a d) as (_ & Hsyn & _);
      destruct (update_neuromodulation x r a d) as [b1 [e |]]
  end; simpl in Hsyn.
  - simpl. eauto.
  - rewrite plasticity_raises by (simpl; rewrite Hsyn; exact Hne).
    simpl. eauto.
Qed.

Lemma advance_age_stage (b : BioFrogBrain) :
  stage (advance_age b) =
    (is_juvenile b && (juvenile_age b + 1 <? juvenile_duration b)%Z,
     (juvenile_age b + 1)%Z, juvenile_duration b).
Proof.
  unfold stage, advance_age. simpl.
  destruct (is_juvenile b); simpl; [| reflexivity].
  destruct (Z.leb_spec (juvenile_duration b) (juvenile_age b + 1));
    destruct (Z.ltb_spec (juvenile_age b + 1) (juvenile_duration b));
    try reflexivity; lia.
Qed.

Lemma update_all_cons (b : BioFrogBrain) (g : rng) (t : tick) (ts : list tick) :
  update_all b g (t :: ts) =
    update_all (fst (fst (update_with b g t))) (snd (fst (update_with b g t))) ts.
Proof.
  unfold update_all. simpl. destruct (update_with b g t) as [[b1 g1] out]. reflexivity.
Qed.

Lemma update_all_snoc (b : BioFrogBrain) (g : rng) (ts : list tick) (t : tick) :
  update_all b g (ts ++ [t]) =
    fst (update_with (fst (update_all b g ts)) (snd (update_all b g ts)) t).
Proof. unfold update_all. rewrite fold_left_app. reflexivity. Qed.

(** The developmental state after a sequence of ticks, whatever the
    inputs and whether or not a tick raised. *)
Lemma update_all_stage (ts : list tick) (b : BioFrogBrain) (g : rng) :
  stage (fst (update_all b g ts)) =
    (is_juvenile b &&
       ((Z.of_nat (List.length ts) =? 0)%Z
        || (juvenile_age b + Z.of_nat (List.length ts) <? juvenile_duration b)%Z),
     (juvenile_age b + Z.of_nat (List.length ts))%Z,
     juvenile_duration b).
Proof.
  revert b g. induction ts as [| t ts IH]; intros b g.
  - unfold update_all, stage. simpl. rewrite andb_true_r, Z.add_0_r. reflexivity.
  - rewrite update_all_cons, IH.
    pose proof (update_stage b g t) as Hs. rewrite advance_age_stage in Hs.
    unfold stage in Hs. injection Hs as Hflag Hage Hdur.
    rewrite Hflag, Hage, Hdur. cbn [List.length].
    rewrite Nat2Z.inj_succ.
    pose proof (Nat2Z.is_nonneg (List.length ts)) as Hn.
    set (n := Z.of_nat (List.length ts)) in *.
    replace (juvenile_age b + 1 + n)%Z with (juvenile_age b + Z.succ n)%Z by lia.
    do 2 f_equal.
    destruct (is_juvenile b); cbn [andb]; [| reflexivity].
    destruct (Z.ltb_spec (juvenile_age b + 1) (juvenile_duration b));
      destruct (Z.eqb_spec n 0);
      destruct (Z.eqb_spec (Z.succ n) 0);
      destruct (Z.ltb_spec (juvenile_age b + Z.succ n) (juvenile_duration b));
      cbn [andb orb]; try reflexivity; lia.
Qed.

Lemma update_all_returns (ts : list tick) (b : BioFrogBrain) (g : rng) :
  synapses b = [] -> Diffusion.ready (neurotransmitter_system b) ->
  synapses (fst (update_all b g ts)) = [] /\
  Diffusion.ready (neurotransmitter_system (fst (update_all b g ts))).
Proof.
  revert b g. induction ts as [| t ts IH]; intros b g Hnil Hready.
  - unfold update_all. simpl. auto.
  - rewrite update_all_cons.
    destruct (@update_returns b g t Hnil Hready) as (Hnil1 & Hready1 & _).
    apply IH; assumption.
Qed.

(** C4.  From a juvenile brain of age 0 with [juvenile_duration = D], the
    [k]-th call of [update] leaves the age at [k] and reports the flag
    [is_juvenile] as true exactly when [k < D], whatever the scenes, motion
    vectors, rewards and time steps of the calls; and from any brain whose
    flag is false, no sequence of [update] calls makes it true again. *)
Theorem juvenile_transition_exact_and_one_way
    (b : BioFrogBrain) (g : rng) (D : Z) (ts : list tick) (t : tick) :
  is_juvenile b = true ->
  juvenile_age b = 0%Z ->
  juvenile_duration b = D ->
  synapses b = [] ->
  Diffusion.ready (neurotransmitter_system b) ->
  let k := (Z.of_nat (List.length ts) + 1)%Z in
  let before := update_all b g ts in
  let result := update_with (fst before) (snd before) t in
  juvenile_age (fst (fst result)) = k /\
  is_juvenile (fst (fst result)) = (k <? D)%Z /\
  (exists snap : snapshot,
     snd result = inr snap /\ snap_is_juvenile snap = (k <? D)%Z) /\
  (forall (b0 : BioFrogBrain) (g0 : rng) (ts0 : list tick),
     is_juvenile b0 = false -> is_juvenile (fst (update_all b0 g0 ts0)) = false).
Proof.
  intros Hflag Hage Hdur Hnil Hready k before result.
  pose proof (update_all_stage (ts ++ [t]) b g) as Hall.
  rewrite update_all_snoc in Hall. fold before in Hall. fold result in Hall.
  rewrite Hflag, Hage, Hdur in Hall. rewrite length_app in Hall.
  cbn [List.length] in Hall.
  replace (Z.of_nat (List.length ts + 1)) with k in Hall by (unfold k; lia).
  replace (k =? 0)%Z with false in Hall by (symmetry; apply Z.eqb_neq; unfold k; lia).
  simpl in Hall. unfold stage in Hall. injection Hall as Hf Ha _.
  destruct (@update_all_returns ts b g Hnil Hready) as (Hnil' & Hready').
  fold before in Hnil', Hready'.
  destruct (@update_returns (fst before) (snd before) t Hnil' Hready')
    as (_ & _ & snap & Hsnap & Hjuv & _).
  fold result in Hsnap.
  pose proof (update_stage (fst before) (snd before) t) as Hst.
  fold result in Hst. apply (f_equal (fun p => fst (fst p))) in Hst.
  unfold stage in Hst. cbn [fst] in Hst.
  split; [exact Ha |]. split; [exact Hf |]. split.
  - exists snap. split; [exact Hsnap |]. rewrite Hjuv, <- Hst. exact Hf.
  - intros b0 g0 ts0 Hadult.
    pose proof (update_all_stage ts0 b0 g0) as H0. rewrite Hadult in H0.
    unfold stage in H0. injection H0 as H0 _ _. exact H0.
Qed.

(** C6, as the code has it.  With at least one synapse in the brain's
    list, step 6 raises: [apply_plasticity] ends with the [AttributeError]
    of the missing method [update] of the functional manager, and so does
    every tick (or with the exception of an earlier step). *)
Theorem tick_raises_with_synapses
    (b : BioFrogBrain) (g : rng) (t : tick) (activity : list R) :
  synapses b <> [] ->
  apply_plasticity b activity g =
    inl (AttributeError "FunctionalPlasticityManager" "update") /\
  (exists e : exn, snd (update_with b g t) = inl e).
Proof.
  intros Hne. split; [apply plasticity_raises; exact Hne |].
  apply update_raises. exact Hne.
Qed.

End WithCollaborators.

Lemma default_field_ready : Diffusion.ready Diffusion.default_field.
Proof.
  unfold Diffusion.ready, Diffusion.square. simpl.
  repeat split; try lia; try discriminate.
  repeat constructor.
Qed.

Lemma juvenile_transition_exact_and_one_way_witness :
  is_juvenile
    (fst (fst (update_with (fst (update_all sample_brain (mkRng (fun _ => 0) 0) []))
                           (snd (update_all sample_brain (mkRng (fun _ => 0) 0) []))
                           sample_tick)))
  = (Z.of_nat (List.length (@nil (@tick idle_collaborators))) + 1 <? 5000)%Z.
Proof.
  exact (proj1 (proj2
    (@juvenile_transition_exact_and_one_way idle_collaborators sample_brain
       (mkRng (fun _ => 0) 0) 5000%Z [] sample_tick
       eq_refl eq_refl eq_refl eq_refl default_field_ready))).
Defined.

Lemma tick_raises_with_synapses_witness :
  apply_plasticity sample_brain_with_synapse [] (mkRng (fun _ => 0) 0) =
    inl (AttributeError "FunctionalPlasticityManager" "update").
Proof.
  refine (proj1 (@tick_raises_with_synapses idle_collaborators sample_brain_with_synapse
                   (mkRng (fun _ => 0) 0) sample_tick [] _)).
  simpl. discriminate.
Defined.

End BrainFacts.

(** ** Further synapse properties *)

Module SynapseMore.
Import Numeric NumericFacts Synapse.


Lemma decay_factor (dt tau : R) : 0 <= dt -> 0 < tau -> 0 < exp (- dt / tau) <= 1.
Proof.
  intros Hdt Htau.
  replace (- dt / tau) with (- (dt / tau)) by (field; lra).
  apply exp_neg_le_1. apply Rmult_le_pos; [exact Hdt |].
  left. apply Rinv_0_lt_compat. exact Htau.
Qed.

Lemma short_term_step (s : BiologicalSynapse) (c : call) :
  DynamicSynapse.short_term_invariant s -> DynamicSynapse.forward_in_time c ->
  DynamicSynapse.short_term_invariant (perform s c).
Proof.
  unfold DynamicSynapse.short_term_invariant.
  intros (Hft & Hdt & Hf & Hd & He) Hc.
  destruct c as [[pre |] [post |] | dt spike]; simpl; auto.
  - destruct (Rlt_dec _ _); simpl; auto.
  - simpl in Hc. destruct spike.
    + repeat split; try lra. apply clip_id. lra.
    + pose proof (decay_factor Hc Hft) as Hef.
      pose proof (decay_factor Hc Hdt) as Hed.
      set (ef := exp (- dt / facilitation_tau s)) in *.
      set (ed := exp (- dt / depression_tau s)) in *.
      assert (H1 : 0 <= facilitation_state s * ef <= 1) by nra.
      assert (H2 : 0 <= depression_state s * ed <= 1) by nra.
      repeat split; try lra. apply clip_id. lra.
Qed.

Lemma short_term_all (cs : list call) (s : BiologicalSynapse) :
  DynamicSynapse.short_term_invariant s -> Forall DynamicSynapse.forward_in_time cs ->
  DynamicSynapse.short_term_invariant (perform_all s cs).
Proof.
  revert s. induction cs as [| c cs IH]; intros s Hs Hcs; simpl; [exact Hs |].
  inversion Hcs as [| ? ? Hc Hrest]; subst.
  apply IH; [apply short_term_step; assumption | exact Hrest].
Qed.

Lemma init_short_term (max_w : R) (iw : option R) (min_w window amplitude u : R) :
  DynamicSynapse.short_term_invariant (init max_w iw min_w window amplitude u).
Proof. unfold DynamicSynapse.short_term_invariant. simpl. repeat split; lra. Qed.

Lemma clip_between (w c lo hi : R) :
  lo <= w <= hi ->
  (0 <= c -> w <= clip (w + c) lo hi <= w + c) /\
  (c <= 0 -> w + c <= clip (w + c) lo hi <= w).
Proof.
  intros Hw. unfold clip, Rmin, Rmax.
  destruct (Rle_dec (w + c) lo); destruct (Rle_dec hi _); split; intros; lra.
Qed.

(** The change [apply_stdp] adds before clamping, for spike times inside
    the window: at most the amplitude in size, of the sign of
    [delta]. *)
Lemma stdp_raw_change (amplitude window delta : R) :
  0 <= amplitude -> Rabs delta < window ->
  (delta > 0 -> 0 <= amplitude * exp (- delta / window) <= amplitude) /\
  (delta <= 0 -> - amplitude <= - amplitude * exp (delta / window) <= 0).
Proof.
  intros Ha Hin.
  assert (Hw : 0 < window) by (pose proof (Rabs_pos delta); lra).
  split; intros Hd.
  - pose proof (@decay_factor delta window (Rlt_le _ _ Hd) Hw) as He. nra.
  - assert (Hneg : 0 <= - delta) by lra.
    pose proof (decay_factor Hneg Hw) as He.
    replace (- - delta / window) with (delta / window) in He by (field; lra). nra.
Qed.



(** X2.  From the constructor, whatever the calls, as long as no
    short-term plasticity call has a negative [dt]: the facilitation and
    depression traces stay in [[0, 1]] and the efficacy is exactly
    [1 + 0.3 * facilitation - 0.5 * depression], a value in
    [[0.5, 1.3]]; the clamp to [[0.1, 2.0]] never cuts. *)
Theorem short_term_clamp_never_cuts
    (max_w : R) (initial_weight : option R) (min_w window amplitude u : R)
    (cs : list call) :
  Forall DynamicSynapse.forward_in_time cs ->
  let s := perform_all (init max_w initial_weight min_w window amplitude u) cs in
  0 <= facilitation_state s <= 1 /\
  0 <= depression_state s <= 1 /\
  current_efficacy s = 1 + 0.3 * facilitation_state s - 0.5 * depression_state s /\
  0.5 <= current_efficacy s <= 1.3.
Proof.
  intros Hcs s.
  destruct (short_term_all (init_short_term max_w initial_weight min_w window amplitude u) Hcs)
    as (_ & _ & Hf & Hd & He).
  fold s in Hf, Hd, He. repeat split; try lra.
Qed.

Lemma short_term_clamp_never_cuts_witness :
  let s := perform_all (init 1 None 0 50 0.01 0.5)
             [CallStp 1 true; CallStp 20 false; CallStdp (Some 0) (Some 5)] in
  0.5 <= current_efficacy s <= 1.3.
Proof.
  assert (Hcs : Forall DynamicSynapse.forward_in_time
                  [CallStp 1 true; CallStp 20 false; CallStdp (Some 0) (Some 5)]).
  { repeat constructor; simpl; lra. }
  exact (proj2 (proj2 (proj2 (@short_term_clamp_never_cuts 1 None 0 50 0.01 0.5 _ Hcs)))).
Defined.

(** X3.  On a synapse whose weight is within its bounds, with a
    non-negative amplitude and a non-negative modulation blend, one
    [apply_stdp] call moves the weight by at most [amplitude * blend]; it
    never lowers the weight when the postsynaptic spike comes after the
    presynaptic one and never raises it otherwise. *)
Theorem stdp_change_is_bounded_and_signed (s : BiologicalSynapse) (pre post : R) :
  weight_in_bounds s -> 0 <= stdp_amplitude s -> 0 <= modulation s ->
  let s' := apply_stdp s (Some pre) (Some post) in
  Rabs (weight s' - weight s) <= stdp_amplitude s * modulation s /\
  (post - pre > 0 -> weight s <= weight s') /\
  (post - pre <= 0 -> weight s' <= weight s).
Proof.
  intros Hw Ha Hm s'. unfold s', apply_stdp. unfold weight_in_bounds in Hw.
  destruct (Rlt_dec (Rabs (post - pre)) (stdp_window s)) as [Hin | Hout].
  - destruct (@stdp_raw_change _ _ (post - pre) Ha Hin) as [Hpos Hneg].
    destruct (Rgt_dec (post - pre) 0) as [Hd | Hd]; simpl.
    + specialize (Hpos Hd).
      set (c := stdp_amplitude s * exp (- (post - pre) / stdp_window s)) in *.
      assert (Hc : 0 <= c * modulation s <= stdp_amplitude s * modulation s) by nra.
      destruct (clip_between (c * modulation s) Hw) as [Hb _].
      specialize (Hb (proj1 Hc)).
      split; [| split]; intros; try lra.
      unfold Rabs. destruct (Rcase_abs _); lra.
    + assert (Hd' : post - pre <= 0) by lra. specialize (Hneg Hd').
      set (c := - stdp_amplitude s * exp ((post - pre) / stdp_window s)) in *.
      assert (Hc : - (stdp_amplitude s * modulation s) <= c * modulation s <= 0) by nra.
      destruct (clip_between (c * modulation s) Hw) as [_ Hb].
      specialize (Hb (proj2 Hc)).
      split; [| split]; intros; try lra.
      unfold Rabs. destruct (Rcase_abs _); lra.
  - assert (Hz : 0 <= stdp_amplitude s * modulation s) by nra.
    rewrite Rminus_diag, Rabs_R0. split; [exact Hz |]. split; intros; lra.
Qed.

Lemma stdp_change_is_bounded_and_signed_witness :
  weight (init 1 (Some 0.5) 0 50 0.01 0)
  <= weight (apply_stdp (init 1 (Some 0.5) 0 50 0.01 0) (Some 0) (Some 10)).
Proof.
  assert (Hw : weight_in_bounds (init 1 (Some 0.5) 0 50 0.01 0)).
  { unfold weight_in_bounds. simpl. destruct (Req_dec_T 0.5 0); lra. }
  assert (Ha : 0 <= stdp_amplitude (init 1 (Some 0.5) 0 50 0.01 0)) by (simpl; lra).
  assert (Hm : 0 <= modulation (init 1 (Some 0.5) 0 50 0.01 0))
    by (unfold modulation; simpl; lra).
  apply (proj1 (proj2 (@stdp_change_is_bounded_and_signed _ 0 10 Hw Ha Hm))). lra.
Defined.

(** X4.  Learning is gated by the modulators: after
    [update_modulators(0, 0, ach)] no [apply_stdp] call, whatever the spike
    times, changes a weight that is within its bounds. *)
Theorem zero_modulators_freeze_stdp
    (s : BiologicalSynapse) (acetylcholine : R) (pre post : option R) :
  weight_in_bounds s ->
  weight (apply_stdp (update_modulators s 0 0 acetylcholine) pre post) = weight s.
Proof.
  intros Hw. unfold weight_in_bounds in Hw.
  destruct pre as [p |], post as [q |]; try reflexivity.
  unfold apply_stdp. cbn [stdp_window update_modulators].
  destruct (Rlt_dec _ _); [| reflexivity].
  unfold modulation. cbn [weight set_weight update_modulators dopamine_modulation
                          serotonin_modulation min_weight max_weight].
  match goal with
  | |- clip (_ + ?c * _) _ _ = _ => generalize c
  end.
  intros change.
  replace (weight s + change * (0.7 * 0 + 0.3 * 0)) with (weight s) by ring.
  apply clip_id. exact Hw.
Qed.

Lemma zero_modulators_freeze_stdp_witness :
  weight (apply_stdp (update_modulators (init 1 (Some 0.5) 0 50 0.01 0) 0 0 0.3)
                     (Some 0) (Some 10))
  = weight (init 1 (Some 0.5) 0 50 0.01 0).
Proof.
  apply zero_modulators_freeze_stdp.
  unfold weight_in_bounds. simpl. destruct (Req_dec_T 0.5 0); lra.
Defined.

(** X5.  A [DynamicSynapse] of any type (every string other than
    ["depressing"] gets the facilitating preset [200 / 100 / 0.3]) keeps
    positive time constants, so after any calls without a negative [dt]
    [transmit_dynamic] returns, for non-negative output and resources,
    between [0.5] and [1.3] times [output * resources], whatever the
    weight of the synapse. *)
Theorem dynamic_transmission_is_bounded
    (synapse_type : string) (max_w : R) (initial_weight : option R)
    (min_w window amplitude u : R) (cs : list call) (output resources : R) :
  let s0 := DynamicSynapse.init synapse_type max_w initial_weight min_w window amplitude u in
  Forall DynamicSynapse.forward_in_time cs -> 0 <= output -> 0 <= resources ->
  (synapse_type <> "depressing"%string ->
     facilitation_tau (DynamicSynapse.base s0) = 200 /\
     depression_tau (DynamicSynapse.base s0) = 100 /\
     DynamicSynapse.initial_release s0 = 0.3) /\
  0.5 * (output * resources)
  <= DynamicSynapse.transmit_dynamic (DynamicSynapse.perform_all s0 cs) output resources
  <= 1.3 * (output * resources).
Proof.
  intros s0 Hcs Hout Hres. split.
  - intros Hty. unfold s0, DynamicSynapse.init.
    destruct (String.eqb_spec synapse_type "depressing"); [contradiction |].
    simpl. auto.
  - assert (Hbase : forall cs' d,
               DynamicSynapse.base (DynamicSynapse.perform_all d cs')
               = perform_all (DynamicSynapse.base d) cs').
    { induction cs' as [| c cs' IH]; intros d; simpl; [reflexivity |].
      rewrite IH. reflexivity. }
    assert (H0 : DynamicSynapse.short_term_invariant (DynamicSynapse.base s0)).
    { unfold s0, DynamicSynapse.init, DynamicSynapse.short_term_invariant.
      destruct (String.eqb synapse_type "depressing"); simpl; repeat split; lra. }
    destruct (short_term_all H0 Hcs) as (_ & _ & Hf & Hd & He).
    unfold DynamicSynapse.transmit_dynamic. rewrite Hbase.
    set (e := current_efficacy (perform_all (DynamicSynapse.base s0) cs)) in *.
    assert (Hb : 0.5 <= e <= 1.3) by lra.
    assert (Hp : 0 <= output * resources) by nra.
    replace (output * e * resources) with (e * (output * resources)) by ring.
    split; nra.
Qed.

Lemma dynamic_transmission_is_bounded_witness :
  0.5 * (1 * 1)
  <= DynamicSynapse.transmit_dynamic
       (DynamicSynapse.perform_all
          (DynamicSynapse.init "facilitating" 1 None 0 50 0.01 0.5)
          [CallStp 1 true; CallStp 20 false]) 1 1
  <= 1.3 * (1 * 1).
Proof.
  assert (Hcs : Forall DynamicSynapse.forward_in_time [CallStp 1 true; CallStp 20 false]).
  { repeat constructor; simpl; lra. }
  assert (H1 : 0 <= 1) by lra.
  exact (proj2 (@dynamic_transmission_is_bounded "facilitating" 1 None 0 50 0.01 0.5
                  _ 1 1 Hcs H1 H1)).
Defined.

End SynapseMore.

(** ** Further neuron properties *)

Module NeuronMore.
Import Numeric NumericFacts Neuron NeuronRuns.

Lemma last_n_length {A : Type} (k : nat) (l : list A) :
  (List.length (last_n k l) <= k)%nat.
Proof. unfold last_n. rewrite length_skipn. lia. Qed.

Lemma leak_and_fire_history (n : LIFNeuron) (dt current : R) :
  (List.length (membrane_potential_history (leak_and_fire n dt current true)) <= 1000)%nat /\
  membrane_potential_history (leak_and_fire n dt current false)
  = membrane_potential_history n.
Proof.
  unfold leak_and_fire. simpl. split; [| reflexivity].
  destruct (1000 <? _)%nat eqn:Hlen.
  - apply last_n_length.
  - apply Nat.ltb_ge in Hlen. exact Hlen.
Qed.

Lemma integrate_any_history (n : neuron) (d : drive) :
  (List.length (membrane_potential_history (lif_of n)) <= 1000)%nat ->
  (List.length (membrane_potential_history (lif_of (integrate_any n d))) <= 1000)%nat /\
  (is_subclass n ->
   is_subclass (integrate_any n d) /\
   membrane_potential_history (lif_of (integrate_any n d))
   = membrane_potential_history (lif_of n)).
Proof.
  intros Hlen. destruct n as [n | n | n]; simpl in *.
  - split; [| contradiction]. unfold integrate.
    destruct (Rgt_dec _ _); [exact Hlen | apply leak_and_fire_history].
  - unfold pyramidal_integrate.
    destruct (Rgt_dec (refractory_counter _) 0); simpl; auto.
  - unfold fast_integrate.
    destruct (Rgt_dec (refractory_counter _) 0); simpl; auto.
Qed.

Lemma integrate_all_history (ds : list drive) (n : neuron) :
  (List.length (membrane_potential_history (lif_of n)) <= 1000)%nat ->
  (List.length (membrane_potential_history (lif_of (integrate_all n ds))) <= 1000)%nat /\
  (is_subclass n ->
   membrane_potential_history (lif_of (integrate_all n ds))
   = membrane_potential_history (lif_of n)).
Proof.
  revert n. induction ds as [| d ds IH]; intros n Hlen; simpl; [auto |].
  destruct (integrate_any_history n d Hlen) as [Hlen1 Hsub1].
  destruct (IH _ Hlen1) as [Hlen2 Hsub2].
  split; [exact Hlen2 |]. intros Hsub. destruct (Hsub1 Hsub) as [Hs Heq].
  rewrite (Hsub2 Hs). exact Heq.
Qed.

Lemma initial_history (n : neuron) :
  initial n -> membrane_potential_history (lif_of n) = [].
Proof.
  intros Hi. destruct Hi as [? ? ? ? ? | ? ? ? ? ? | ? ? ? | n]; try reflexivity.
  destruct n; reflexivity.
Qed.

(** X6.  The history buffer of a neuron never holds more than 1000
    potentials: from a fresh or reset instance, after any sequence of
    [integrate] calls.  Only the basic class records at all; a pyramidal
    or fast-spiking neuron keeps the empty history it started with. *)
Theorem history_is_bounded (start : neuron) (ds : list drive) :
  initial start ->
  (List.length (membrane_potential_history (lif_of (integrate_all start ds))) <= 1000)%nat /\
  (is_subclass start ->
   membrane_potential_history (lif_of (integrate_all start ds)) = []).
Proof.
  intros Hi. pose proof (initial_history Hi) as H0.
  assert (Hlen : (List.length (membrane_potential_history (lif_of start)) <= 1000)%nat)
    by (rewrite H0; simpl; lia).
  destruct (integrate_all_history ds start Hlen) as [H1 H2].
  split; [exact H1 |]. intros Hsub. rewrite (H2 Hsub). exact H0.
Qed.

Lemma history_is_bounded_witness :
  (List.length
     (membrane_potential_history
        (lif_of (integrate_all (Basic init_default)
                   [mkDrive 1 10 None; mkDrive 1 10 None]))) <= 1000)%nat.
Proof.
  exact (proj1 (@history_is_bounded (Basic init_default)
                  [mkDrive 1 10 None; mkDrive 1 10 None]
                  (initial_basic (-70) (-40) 20 2 200))).
Defined.

(** With an empty history [apply_intrinsic_plasticity] skips the neuron. *)
Lemma intrinsic_plasticity_skips_empty
    (m : Functional.FunctionalPlasticityManager) (refs : list nat) (dt : R)
    (w : Functional.world) :
  Forall (fun n => membrane_potential_history (lif_of n) = []) (Functional.neurons_of w) ->
  Functional.apply_intrinsic_plasticity m refs dt w = (tt, w).
Proof.
  intros Hall. unfold Functional.apply_intrinsic_plasticity.
  destruct (negb (Functional.intrinsic_plasticity_enabled m)); [reflexivity |].
  revert w Hall. induction refs as [| r refs IH]; intros w Hall; simpl; [reflexivity |].
  unfold Functional.bind at 1. unfold Functional.bind at 1. unfold Functional.read_neuron.
  destruct (nth_error (Functional.neurons_of w) r) as [n |] eqn:Hn.
  - assert (Hh : membrane_potential_history (lif_of n) = []).
    { apply nth_error_In in Hn. exact (proj1 (Forall_forall _ _) Hall n Hn). }
    rewrite Hh. simpl. apply IH. exact Hall.
  - simpl. apply IH. exact Hall.
Qed.

(** X8.  [apply_intrinsic_plasticity] judges a neuron by its recorded
    potentials, and the pyramidal and fast-spiking classes record none: on
    a store whose neurons are all of these two classes, each integrated
    any number of times from a fresh or reset instance, the routine
    changes nothing, whatever the manager, the references and [dt]. *)
Theorem intrinsic_plasticity_never_reaches_subclasses
    (m : Functional.FunctionalPlasticityManager) (refs : list nat) (dt : R)
    (w : Functional.world) :
  Forall (fun n => exists start ds,
            initial start /\ is_subclass start /\ n = integrate_all start ds)
         (Functional.neurons_of w) ->
  Functional.apply_intrinsic_plasticity m refs dt w = (tt, w).
Proof.
  intros Hall. apply intrinsic_plasticity_skips_empty.
  apply Forall_forall. intros n Hn.
  destruct (proj1 (Forall_forall _ _) Hall n Hn) as (start & ds & Hi & Hsub & ->).
  pose proof (initial_history Hi) as H0.
  assert (Hlen : (List.length (membrane_potential_history (lif_of start)) <= 1000)%nat)
    by (rewrite H0; simpl; lia).
  rewrite (proj2 (integrate_all_history ds start Hlen) Hsub). exact H0.
Qed.

Lemma intrinsic_plasticity_never_reaches_subclasses_witness :
  let n := integrate_all (Dendritic pyramidal_default) [mkDrive 1 1000 None] in
  let w := {| Functional.neurons_of := [n]; Functional.synapses_of := [] |} in
  Functional.apply_intrinsic_plasticity Functional.init [0%nat] 1 w = (tt, w).
Proof.
  intros n w. apply intrinsic_plasticity_never_reaches_subclasses.
  constructor; [| constructor].
  exists (Dendritic pyramidal_default), [mkDrive 1 1000 None].
  split; [apply initial_dendritic |]. split; [exact I | reflexivity].
Defined.





Lemma fast_integrate_count (n : FastSpikingInterneuron) (dt current : R) :
  0 <= adaptation_current n ->
  let n' := fast_integrate n dt current in
  0 <= adaptation_current n' /\
  spike_count n' =
    (spike_count n
     + (if Req_dec_T (spike_output (fast_lif n')) 1 then 1 else 0))%Z.
Proof.
  intros Ha. unfold fast_integrate.
  destruct (Rgt_dec (refractory_counter (fast_lif n)) 0); cbv zeta.
  - simpl. split; [exact Ha |].
    destruct (Req_dec_T 0 1) as [Habs | _]; [lra | lia].
  - pose proof (exp_pos (- dt / adaptation_tau n)) as He.
    unfold leak_and_fire. simpl.
    destruct (Rge_dec _ _); simpl.
    + split; [nra |]. destruct (Req_dec_T 1 1) as [_ | Habs]; [reflexivity | lra].
    + split; [nra |]. destruct (Req_dec_T 0 1) as [Habs | _]; [lra | lia].
Qed.

(** X9.  On a fast-spiking interneuron [spike_count] counts exactly the
    [integrate] calls that produced a spike, and the adaptation current
    never becomes negative: from any state with a non-negative adaptation
    current, after any sequence of calls with any [dt] and input. *)
Theorem fast_spike_count_counts_spikes
    (n : FastSpikingInterneuron) (ds : list (R * R)) :
  0 <= adaptation_current n ->
  spike_count (fast_integrate_all n ds) = (spike_count n + fast_spikes n ds)%Z /\
  0 <= adaptation_current (fast_integrate_all n ds) /\
  (0 <= fast_spikes n ds <= Z.of_nat (List.length ds))%Z.
Proof.
  revert n. induction ds as [| d ds IH]; intros n Ha.
  - simpl. split; [lia |]. split; [exact Ha | lia].
  - destruct (@fast_integrate_count n (fst d) (snd d) Ha) as [Ha1 Hc1].
    destruct (IH _ Ha1) as (Hc2 & Ha2 & Hs2).
    unfold fast_integrate_all in *. cbn [fold_left fast_spikes List.length].
    rewrite Hc2, Hc1. split; [lia |]. split; [exact Ha2 |].
    destruct (Req_dec_T _ 1); lia.
Qed.

Lemma fast_spike_count_counts_spikes_witness :
  spike_count (fast_integrate_all fast_default [(1, 1000); (1, 0)])
  = Z.add (spike_count fast_default) (fast_spikes fast_default [(1, 1000); (1, 0)]).
Proof.
  assert (Ha : 0 <= adaptation_current fast_default) by (simpl; lra).
  exact (proj1 (@fast_spike_count_counts_spikes fast_default [(1, 1000); (1, 0)] Ha)).
Defined.

Lemma pyramidal_integrate_dendrites (lo hi : R) (n : PyramidalNeuron)
    (dt basal : R) (apical : option R) :
  0 <= dt -> lo <= basal <= hi ->
  lo <= match apical with Some a => a | None => 0 end <= hi ->
  dendrites_within lo hi n ->
  dendrites_within lo hi (pyramidal_integrate n dt basal apical).
Proof.
  intros Hdt Hb Ha (Hp & Hbd & Had & Hs). unfold pyramidal_integrate.
  destruct (Rgt_dec (refractory_counter (pyr_lif n)) 0); cbv zeta.
  - unfold dendrites_within. simpl. auto.
  - assert (Htau : 0 < 50) by lra.
    pose proof (SynapseMore.decay_factor Hdt Htau) as He.
    set (e := exp (- dt / 50)) in *.
    set (a := match apical with Some a => a | None => 0 end) in *.
    unfold dendrites_within. simpl.
    repeat split; try lra;
      try (destruct (Rgt_dec a 0.5); [destruct (Rgt_dec _ 0.3) |]; nra).
Qed.

(** X10.  From the constructor, after any calls with [dt >= 0] whose basal
    and apical inputs lie in [[lo, hi]] (with [lo <= 0 <= hi]; an absent
    apical input counts as 0), a pyramidal neuron has its plateau
    potential in [[0, 1]], both filtered dendritic inputs in [[lo, hi]],
    and its [soma_input] attribute still 0: no call writes it. *)
Theorem pyramidal_dendrites_stay_bounded
    (rest thr tau_m tau_r rate lo hi : R) (ds : list (R * R * option R)) :
  lo <= 0 <= hi ->
  Forall (fun d => 0 <= fst (fst d) /\ lo <= snd (fst d) <= hi /\
                   lo <= match snd d with Some a => a | None => 0 end <= hi) ds ->
  let n := pyramidal_integrate_all (pyramidal_init rest thr tau_m tau_r rate) ds in
  0 <= dendritic_plateau_potential n <= 1 /\
  lo <= basal_dendrite_input n <= hi /\
  lo <= apical_dendrite_input n <= hi /\
  soma_input n = 0.
Proof.
  intros Hlohi Hds n.
  assert (H0 : dendrites_within lo hi (pyramidal_init rest thr tau_m tau_r rate)).
  { unfold dendrites_within. simpl. repeat split; lra. }
  assert (Hrun : forall ds' m, dendrites_within lo hi m ->
             Forall (fun d => 0 <= fst (fst d) /\ lo <= snd (fst d) <= hi /\
                              lo <= match snd d with Some a => a | None => 0 end <= hi) ds' ->
             dendrites_within lo hi (pyramidal_integrate_all m ds')).
  { induction ds' as [| d ds' IH]; intros m Hm Hq; [exact Hm |].
    inversion Hq as [| ? ? (Hd1 & Hd2 & Hd3) Hrest]; subst.
    unfold pyramidal_integrate_all. cbn [fold_left]. apply IH; [| exact Hrest].
    apply pyramidal_integrate_dendrites; assumption. }
  exact (Hrun ds _ H0 Hds).
Qed.

Lemma pyramidal_dendrites_stay_bounded_witness :
  0 <= dendritic_plateau_potential
         (pyramidal_integrate_all pyramidal_default [(1, 1, Some 1); (1, 0, None)]) <= 1.
Proof.
  assert (Hlohi : 0 <= 0 <= 1) by lra.
  assert (Hds : Forall (fun d : R * R * option R =>
                          0 <= fst (fst d) /\ 0 <= snd (fst d) <= 1 /\
                          0 <= match snd d with Some a => a | None => 0 end <= 1)
                       [(1, 1, Some 1); (1, 0, None)]).
  { repeat constructor; simpl; lra. }
  exact (proj1 (@pyramidal_dendrites_stay_bounded (-70) (-40) 20 2 200 0 1 _ Hlohi Hds)).
Defined.

End NeuronMore.

(** ** Further properties of the neuromodulator field *)

Module DiffusionMore.
Import Numeric NumericFacts Diffusion Transmitters.

Lemma kernel_total_pos : 0 < kernel_total.
Proof.
  unfold kernel_total, grid_sum. cbn [seq map fold_right].
  pose proof (DiffusionFacts.kernel_entry_pos 0 0). pose proof (DiffusionFacts.kernel_entry_pos 0 1).
  pose proof (DiffusionFacts.kernel_entry_pos 0 2). pose proof (DiffusionFacts.kernel_entry_pos 1 0).
  pose proof (DiffusionFacts.kernel_entry_pos 1 1). pose proof (DiffusionFacts.kernel_entry_pos 1 2).
  pose proof (DiffusionFacts.kernel_entry_pos 2 0). pose proof (DiffusionFacts.kernel_entry_pos 2 1).
  pose proof (DiffusionFacts.kernel_entry_pos 2 2). lra.
Qed.

Lemma kernel_rows :
  create_diffusion_kernel =
    [[kernel_entry 0 0 / kernel_total; kernel_entry 0 1 / kernel_total;
      kernel_entry 0 2 / kernel_total];
     [kernel_entry 1 0 / kernel_total; kernel_entry 1 1 / kernel_total;
      kernel_entry 1 2 / kernel_total];
     [kernel_entry 2 0 / kernel_total; kernel_entry 2 1 / kernel_total;
      kernel_entry 2 2 / kernel_total]].
Proof. reflexivity. Qed.

Lemma kernel_weight_pos (i j : nat) : 0 < kernel_entry i j / kernel_total.
Proof.
  apply Rdiv_lt_0_compat; [apply DiffusionFacts.kernel_entry_pos | apply kernel_total_pos].
Qed.

Lemma kernel_weights_sum :
  kernel_entry 0 0 / kernel_total + kernel_entry 0 1 / kernel_total
  + kernel_entry 0 2 / kernel_total + kernel_entry 1 0 / kernel_total
  + kernel_entry 1 1 / kernel_total + kernel_entry 1 2 / kernel_total
  + kernel_entry 2 0 / kernel_total + kernel_entry 2 1 / kernel_total
  + kernel_entry 2 2 / kernel_total = 1.
Proof.
  pose proof kernel_total_pos as Hpos.
  assert (Ht : kernel_total =
               kernel_entry 0 0 + kernel_entry 0 1 + kernel_entry 0 2
               + kernel_entry 1 0 + kernel_entry 1 1 + kernel_entry 1 2
               + kernel_entry 2 0 + kernel_entry 2 1 + kernel_entry 2 2).
  { unfold kernel_total, grid_sum. cbn [seq map fold_right]. ring. }
  set (t := kernel_total) in *.
  replace (kernel_entry 0 0 / t + kernel_entry 0 1 / t + kernel_entry 0 2 / t
           + kernel_entry 1 0 / t + kernel_entry 1 1 / t + kernel_entry 1 2 / t
           + kernel_entry 2 0 / t + kernel_entry 2 1 / t + kernel_entry 2 2 / t)
    with ((kernel_entry 0 0 + kernel_entry 0 1 + kernel_entry 0 2
           + kernel_entry 1 0 + kernel_entry 1 1 + kernel_entry 1 2
           + kernel_entry 2 0 + kernel_entry 2 1 + kernel_entry 2 2) / t)
    by (field; lra).
  rewrite <- Ht. field. lra.
Qed.

Lemma kernel_entry_symmetric (i j : nat) : kernel_entry i j = kernel_entry j i.
Proof. unfold kernel_entry. cbv zeta. apply f_equal. field. Qed.

Lemma kernel_entry_centre (i j : nat) : kernel_entry i j <= kernel_entry 1 1.
Proof.
  unfold kernel_entry. cbn [INR].
  replace (- ((1 - 1) * (1 - 1) + (1 - 1) * (1 - 1)) / (2 * (1 * 1))) with 0 by field.
  rewrite exp_0.
  replace (- ((INR i - 1) * (INR i - 1) + (INR j - 1) * (INR j - 1)) / (2 * (1 * 1)))
    with (- (((INR i - 1) * (INR i - 1) + (INR j - 1) * (INR j - 1)) / 2)) by field.
  pose proof (Rle_0_sqr (INR i - 1)) as Hi. pose proof (Rle_0_sqr (INR j - 1)) as Hj.
  unfold Rsqr in Hi, Hj.
  assert (Hx : 0 <= ((INR i - 1) * (INR i - 1) + (INR j - 1) * (INR j - 1)) / 2) by lra.
  exact (proj2 (exp_neg_le_1 Hx)).
Qed.

(** X11.  The diffusion kernel is a normalised 3 x 3 Gaussian: three rows
    of three positive weights that add up to 1, symmetric under
    transposition, none larger than the centre. *)
Theorem diffusion_kernel_is_normalised :
  List.length create_diffusion_kernel = 3%nat /\
  Forall (fun row => List.length row = 3%nat) create_diffusion_kernel /\
  grid_sum create_diffusion_kernel = 1 /\
  all_cells (fun v => 0 < v) create_diffusion_kernel /\
  (forall i j : nat, (i < 3)%nat -> (j < 3)%nat ->
     cell create_diffusion_kernel i j = cell create_diffusion_kernel j i /\
     cell create_diffusion_kernel i j <= cell create_diffusion_kernel 1 1).
Proof.
  rewrite kernel_rows.
  split; [reflexivity |]. split; [repeat constructor |]. split; [| split].
  - unfold grid_sum. cbn [map fold_right]. rewrite <- kernel_weights_sum. ring.
  - unfold all_cells. repeat constructor; apply kernel_weight_pos.
  - intros i j Hi Hj.
    assert (Hcell : forall p q, (p < 3)%nat -> (q < 3)%nat ->
              cell [[kernel_entry 0 0 / kernel_total; kernel_entry 0 1 / kernel_total;
                     kernel_entry 0 2 / kernel_total];
                    [kernel_entry 1 0 / kernel_total; kernel_entry 1 1 / kernel_total;
                     kernel_entry 1 2 / kernel_total];
                    [kernel_entry 2 0 / kernel_total; kernel_entry 2 1 / kernel_total;
                     kernel_entry 2 2 / kernel_total]] p q
              = kernel_entry p q / kernel_total).
    { intros p q Hp Hq.
      destruct p as [| [| [| p]]]; try lia;
        destruct q as [| [| [| q]]]; try lia; reflexivity. }
    rewrite !Hcell by lia.
    pose proof kernel_total_pos as Hpos.
    split.
    + rewrite (kernel_entry_symmetric i j). reflexivity.
    + unfold Rdiv. apply Rmult_le_compat_r.
      * left. apply Rinv_0_lt_compat. exact Hpos.
      * apply kernel_entry_centre.
Qed.

Lemma int_of_floor (v : R) (n : Z) :
  0 <= v -> (0 <= int_of v)%Z /\ (v < IZR n -> (int_of v < n)%Z) /\
            (IZR n <= v -> (n <= int_of v)%Z).
Proof.
  intros Hv. unfold int_of. destruct (Rle_dec 0 v) as [_ | Hn]; [| contradiction].
  destruct (base_Int_part v) as [Hlo Hhi].
  split; [| split].
  - assert (H : -1 < IZR (Int_part v)) by lra.
    apply lt_IZR in H. lia.
  - intros Hlt. apply lt_IZR. lra.
  - intros Hle. assert (H : IZR n - 1 < IZR (Int_part v)) by lra.
    rewrite <- minus_IZR in H. apply lt_IZR in H. lia.
Qed.

Lemma int_of_negative (v : R) : v < 0 -> (int_of v <= 0)%Z.
Proof.
  intros Hv. unfold int_of. destruct (Rle_dec 0 v) as [Hn | _]; [lra |].
  destruct (base_Int_part (- v)) as [Hlo Hhi].
  assert (H : -1 < IZR (Int_part (- v))) by lra.
  apply lt_IZR in H. lia.
Qed.

(** The grid index of one coordinate: inside the arena the floor of the
    scaled coordinate, left of it the first cell, right of it the last. *)
Lemma coordinate_index (p : R) (w g : Z) :
  (0 < w)%Z -> (1 <= g)%Z ->
  let x := Z.min (g - 1) (Z.max (int_of (p / IZR w * IZR g)) 0) in
  (0 <= x < g)%Z /\
  (0 <= p < IZR w -> x = Int_part (p / IZR w * IZR g)) /\
  (p < 0 -> x = 0%Z) /\
  (IZR w <= p -> x = (g - 1)%Z).
Proof.
  intros Hw Hg x.
  assert (Hwr : 0 < IZR w) by (apply IZR_lt; exact Hw).
  assert (Hgr : 1 <= IZR g) by (apply IZR_le; exact Hg).
  split; [unfold x; lia |]. split; [| split].
  - intros [Hp0 Hp1].
    assert (Hq : 0 <= p / IZR w < 1).
    { split; [apply Rmult_le_pos; [exact Hp0 | left; apply Rinv_0_lt_compat; exact Hwr] |].
      apply (Rmult_lt_reg_r (IZR w)); [exact Hwr |].
      unfold Rdiv. rewrite Rmult_assoc, Rinv_l by lra. lra. }
    assert (Hv : 0 <= p / IZR w * IZR g < IZR g) by nra.
    destruct (@int_of_floor (p / IZR w * IZR g) g (proj1 Hv)) as (H0 & H1 & _).
    specialize (H1 (proj2 Hv)).
    assert (Hint : int_of (p / IZR w * IZR g) = Int_part (p / IZR w * IZR g)).
    { unfold int_of. destruct (Rle_dec 0 _); [reflexivity | lra]. }
    unfold x. rewrite <- Hint. lia.
  - intros Hneg.
    assert (Hq : p / IZR w < 0).
    { unfold Rdiv. assert (0 < / IZR w) by (apply Rinv_0_lt_compat; exact Hwr). nra. }
    assert (Hv : p / IZR w * IZR g < 0) by nra.
    pose proof (int_of_negative Hv). unfold x. lia.
  - intros Hbig.
    assert (Hq : 1 <= p / IZR w).
    { apply (Rmult_le_reg_r (IZR w)); [exact Hwr |].
      unfold Rdiv. rewrite Rmult_assoc, Rinv_l by lra. lra. }
    assert (Hv : IZR g <= p / IZR w * IZR g) by nra.
    assert (Hv0 : 0 <= p / IZR w * IZR g) by lra.
    destruct (@int_of_floor (p / IZR w * IZR g) g Hv0) as (_ & _ & H2).
    specialize (H2 Hv). unfold x. lia.
Qed.

(** X12.  [_position_to_grid] never leaves the grid: over a space with
    positive dimensions and a grid of at least one cell, every position
    gets an index in [[0, grid_size - 1]] on both axes.  A coordinate
    inside the arena is mapped to the floor of [p / size * grid_size], one
    below 0 to the first cell and one at or beyond the size to the last
    cell. *)
Theorem position_always_lands_in_grid
    (d : NeurotransmitterDiffusion) (position : R * R) :
  (0 < fst (space_size d))%Z -> (0 < snd (space_size d))%Z -> (1 <= grid_size d)%Z ->
  exists x y : Z,
    position_to_grid d position = Some (x, y) /\
    (0 <= x < grid_size d)%Z /\ (0 <= y < grid_size d)%Z /\
    (0 <= fst position < IZR (fst (space_size d)) ->
       x = Int_part (fst position / IZR (fst (space_size d)) * IZR (grid_size d))) /\
    (fst position < 0 -> x = 0%Z) /\
    (IZR (fst (space_size d)) <= fst position -> x = (grid_size d - 1)%Z) /\
    (0 <= snd position < IZR (snd (space_size d)) ->
       y = Int_part (snd position / IZR (snd (space_size d)) * IZR (grid_size d))) /\
    (snd position < 0 -> y = 0%Z) /\
    (IZR (snd (space_size d)) <= snd position -> y = (grid_size d - 1)%Z).
Proof.
  intros Hw Hh Hg. unfold position_to_grid.
  destruct (space_size d) as [w h]. cbn [fst snd] in *.
  assert (Hwz : (w =? 0)%Z = false) by (apply Z.eqb_neq; lia).
  assert (Hhz : (h =? 0)%Z = false) by (apply Z.eqb_neq; lia).
  rewrite Hwz, Hhz. cbn [orb].
  destruct (@coordinate_index (fst position) w (grid_size d) Hw Hg) as (X0 & X1 & X2 & X3).
  destruct (@coordinate_index (snd position) h (grid_size d) Hh Hg) as (Y0 & Y1 & Y2 & Y3).
  eexists. eexists. split; [reflexivity |].
  repeat split; try lia; auto.
Qed.

Lemma position_always_lands_in_grid_witness :
  exists x y : Z,
    position_to_grid default_field (-5, 1000) = Some (x, y) /\
    x = 0%Z /\ y = 19%Z.
Proof.
  assert (Hw : (0 < fst (space_size default_field))%Z) by (simpl; lia).
  assert (Hh : (0 < snd (space_size default_field))%Z) by (simpl; lia).
  assert (Hg : (1 <= grid_size default_field)%Z) by (simpl; lia).
  destruct (@position_always_lands_in_grid default_field (-5, 1000) Hw Hh Hg)
    as (x & y & Hpos & _ & _ & _ & Hx & _ & _ & _ & Hy).
  exists x, y. split; [exact Hpos |]. split.
  - apply Hx. simpl. lra.
  - rewrite Hy; [reflexivity |]. simpl. lra.
Defined.

Lemma nth_set_nth {A : Type} (l : list A) (j : nat) (v d : A) :
  (j < List.length l)%nat -> nth j (set_nth l j v) d = v.
Proof.
  revert j. induction l as [| x l IH]; intros j Hj; simpl in *; [lia |].
  destruct j; simpl; [reflexivity | apply IH; lia].
Qed.





(** Writing and reading one cell of a square array at an index inside
    it. *)
Lemma add_then_read (g : Z) (a : grid) (x y : Z) (amount : R) :
  square g a -> (0 <= x < g)%Z -> (0 <= y < g)%Z ->
  read_at a x y = Some (cell a (Z.to_nat x) (Z.to_nat y)) /\
  exists a', add_at a (x, y) amount = Some a' /\ square g a' /\
             read_at a' x y = Some (Rmin 1 (cell a (Z.to_nat x) (Z.to_nat y) + amount)).
Proof.
  intros Hsq Hx Hy. pose proof Hsq as [Hlen Hrows].
  assert (Hx0 : (x <? 0)%Z = false) by (apply Z.ltb_ge; lia).
  assert (Hy0 : (y <? 0)%Z = false) by (apply Z.ltb_ge; lia).
  assert (Hx1 : (g <=? x)%Z = false) by (apply Z.leb_gt; lia).
  assert (Hy1 : (g <=? y)%Z = false) by (apply Z.leb_gt; lia).
  assert (Hi : (Z.to_nat x < List.length a)%nat) by lia.
  pose proof (DiffusionFacts.square_row Hsq Hi) as Hrow.
  assert (Hread : forall b, square g b -> read_at b x y = Some (cell b (Z.to_nat x) (Z.to_nat y))).
  { intros b Hb. pose proof Hb as [Hblen _].
    assert (Hbi : (Z.to_nat x < List.length b)%nat) by lia.
    unfold read_at. cbv zeta. rewrite Hx0. cbv iota. rewrite Hx0, Hblen, Hx1.
    rewrite (DiffusionFacts.square_row Hb Hbi). rewrite Hy0. cbv iota.
    rewrite Hy0, Hy1. reflexivity. }
  split; [apply Hread; exact Hsq |].
  destruct (@DiffusionFacts.add_at_square g a (x, y) amount Hsq Hx Hy) as (a' & Hadd & Hsq').
  exists a'. split; [exact Hadd |]. split; [exact Hsq' |].
  rewrite (Hread a' Hsq'). f_equal.
  unfold add_at in Hadd. cbv zeta in Hadd. cbn [fst snd] in Hadd.
  rewrite Hx0 in Hadd. cbv iota in Hadd. rewrite Hx0, Hlen, Hx1 in Hadd.
  cbn [orb] in Hadd. rewrite Hrow, Hy0 in Hadd. cbv iota in Hadd.
  rewrite Hy0, Hy1 in Hadd. cbn [orb] in Hadd.
  injection Hadd as <-. unfold cell at 1.
  rewrite nth_set_nth by exact Hi. apply nth_set_nth. lia.
Qed.

Lemma get_concentration_unfold (d : NeurotransmitterDiffusion) (position : R * R)
    (ty : string) :
  get_concentration d position ty =
    match position_to_grid d position with
    | None => None
    | Some (x, y) =>
        match map_of d ty with
        | Some a => read_at a x y
        | None => Some 0
        end
    end.
Proof.
  unfold get_concentration, map_of.
  destruct (position_to_grid d position) as [[x y] |]; [| reflexivity].
  destruct (String.eqb ty "dopamine"); [reflexivity |].
  destruct (String.eqb ty "serotonin"); [reflexivity |].
  destruct (String.eqb ty "acetylcholine"); reflexivity.
Qed.

Lemma well_formed_ready (d : NeurotransmitterDiffusion) : well_formed d -> ready d.
Proof. intros (H1 & H2 & H3 & H4 & _). unfold ready. auto. Qed.

Lemma known_cases (ty : string) :
  known ty \/ (String.eqb ty "dopamine" = false /\ String.eqb ty "serotonin" = false /\
               String.eqb ty "acetylcholine" = false).
Proof.
  unfold known.
  destruct (String.eqb_spec ty "dopamine"); [auto |].
  destruct (String.eqb_spec ty "serotonin"); [auto |].
  destruct (String.eqb_spec ty "acetylcholine"); auto.
Qed.

(** X13.  On a field over a space with non-zero dimensions, with
    [grid_size >= 1] and three maps of [grid_size] by [grid_size] cells, a
    release of any amount of a known transmitter at any position succeeds
    and can be read back: [get_concentration] at that position returns the
    previous concentration plus the amount, capped at 1.  The field stays
    well formed and the concentrations of the other transmitters are the
    same everywhere. *)
Theorem release_then_read_back
    (d : NeurotransmitterDiffusion) (position : R * R) (amount : R) (ty : string) :
  well_formed d -> known ty ->
  exists (d' : NeurotransmitterDiffusion) (c : R),
    get_concentration d position ty = Some c /\
    release d position amount ty = Some d' /\
    get_concentration d' position ty = Some (Rmin 1 (c + amount)) /\
    well_formed d' /\
    (forall (ty' : string) (position' : R * R),
       ty' <> ty ->
       get_concentration d' position' ty' = get_concentration d position' ty').
Proof.
  intros Hwf Hknown. pose proof Hwf as (Hw & Hh & Hg & Hda & Hse & Hach).
  destruct (DiffusionFacts.position_to_grid_ready position (well_formed_ready Hwf))
    as ([x y] & Hpos & Hx & Hy). cbn [fst snd] in Hx, Hy.
  assert (Hsame : forall d1 position',
            space_size d1 = space_size d -> grid_size d1 = grid_size d ->
            position_to_grid d1 position' = position_to_grid d position').
  { intros d1 position' Hs Hgs. unfold position_to_grid. rewrite Hs, Hgs. reflexivity. }
  destruct Hknown as [-> | [-> | ->]].
  - destruct (@add_then_read _ _ x y amount Hda Hx Hy) as (Hread & a' & Hadd & Hsq' & Hread').
    exists (with_maps d a' (serotonin_map d) (acetylcholine_map d)),
           (cell (dopamine_map d) (Z.to_nat x) (Z.to_nat y)).
    split; [rewrite get_concentration_unfold, Hpos; exact Hread |].
    split; [unfold release; rewrite Hpos;
            change (String.eqb "dopamine" "dopamine") with true; cbv iota;
            rewrite Hadd; reflexivity |].
    split; [rewrite get_concentration_unfold, (Hsame (with_maps d a' (serotonin_map d) (acetylcholine_map d)) position eq_refl eq_refl), Hpos;
            exact Hread' |].
    split; [unfold well_formed; simpl; tauto |].
    intros ty' position' Hne.
    rewrite !get_concentration_unfold, (Hsame (with_maps d a' (serotonin_map d) (acetylcholine_map d)) position' eq_refl eq_refl).
    destruct (position_to_grid d position') as [[x' y'] |]; [| reflexivity].
    unfold map_of. destruct (String.eqb_spec ty' "dopamine"); [contradiction |].
    reflexivity.
  - destruct (@add_then_read _ _ x y amount Hse Hx Hy) as (Hread & a' & Hadd & Hsq' & Hread').
    exists (with_maps d (dopamine_map d) a' (acetylcholine_map d)),
           (cell (serotonin_map d) (Z.to_nat x) (Z.to_nat y)).
    split; [rewrite get_concentration_unfold, Hpos; exact Hread |].
    split; [unfold release; rewrite Hpos;
            change (String.eqb "serotonin" "dopamine") with false;
            change (String.eqb "serotonin" "serotonin") with true; cbv iota;
            rewrite Hadd; reflexivity |].
    split; [rewrite get_concentration_unfold, (Hsame (with_maps d (dopamine_map d) a' (acetylcholine_map d)) position eq_refl eq_refl), Hpos;
            exact Hread' |].
    split; [unfold well_formed; simpl; tauto |].
    intros ty' position' Hne.
    rewrite !get_concentration_unfold, (Hsame (with_maps d (dopamine_map d) a' (acetylcholine_map d)) position' eq_refl eq_refl).
    destruct (position_to_grid d position') as [[x' y'] |]; [| reflexivity].
    unfold map_of. destruct (String.eqb ty' "dopamine"); [reflexivity |].
    destruct (String.eqb_spec ty' "serotonin"); [contradiction |].
    reflexivity.
  - destruct (@add_then_read _ _ x y amount Hach Hx Hy) as (Hread & a' & Hadd & Hsq' & Hread').
    exists (with_maps d (dopamine_map d) (serotonin_map d) a'),
           (cell (acetylcholine_map d) (Z.to_nat x) (Z.to_nat y)).
    split; [rewrite get_concentration_unfold, Hpos; exact Hread |].
    split; [unfold release; rewrite Hpos;
            change (String.eqb "acetylcholine" "dopamine") with false;
            change (String.eqb "acetylcholine" "serotonin") with false;
            change (String.eqb "acetylcholine" "acetylcholine") with true; cbv iota;
            rewrite Hadd; reflexivity |].
    split; [rewrite get_concentration_unfold, (Hsame (with_maps d (dopamine_map d) (serotonin_map d) a') position eq_refl eq_refl), Hpos;
            exact Hread' |].
    split; [unfold well_formed; simpl; tauto |].
    intros ty' position' Hne.
    rewrite !get_concentration_unfold, (Hsame (with_maps d (dopamine_map d) (serotonin_map d) a') position' eq_refl eq_refl).
    destruct (position_to_grid d position') as [[x' y'] |]; [| reflexivity].
    unfold map_of. destruct (String.eqb ty' "dopamine"); [reflexivity |].
    destruct (String.eqb ty' "serotonin"); [reflexivity |].
    destruct (String.eqb_spec ty' "acetylcholine"); [contradiction |].
    reflexivity.
Qed.

Lemma default_field_well_formed : well_formed default_field.
Proof.
  unfold well_formed, square. simpl.
  repeat split; try lia; try discriminate; repeat constructor.
Qed.

Lemma release_then_read_back_witness :
  exists (d' : NeurotransmitterDiffusion) (c : R),
    get_concentration default_field (200, 200) "serotonin" = Some c /\
    release default_field (200, 200) 0.4 "serotonin" = Some d' /\
    get_concentration d' (200, 200) "serotonin" = Some (Rmin 1 (c + 0.4)).
Proof.
  assert (Hk : known "serotonin") by (unfold known; auto).
  destruct (@release_then_read_back default_field (200, 200) 0.4 "serotonin"
              default_field_well_formed Hk) as (d' & c & H1 & H2 & H3 & _).
  exists d', c. auto.
Defined.

(** X14.  A transmitter type the field does not know is ignored: over a
    space with non-zero dimensions, [release] with any other string
    leaves the field exactly as it was, and [get_concentration] returns
    [0.0] for it at every position. *)
Theorem unknown_transmitter_is_ignored
    (d : NeurotransmitterDiffusion) (position : R * R) (amount : R) (ty : string) :
  fst (space_size d) <> 0%Z -> snd (space_size d) <> 0%Z -> ~ known ty ->
  release d position amount ty = Some d /\
  get_concentration d position ty = Some 0.
Proof.
  intros Hw Hh Hunknown.
  destruct (known_cases ty) as [Hk | (H1 & H2 & H3)]; [contradiction |].
  assert (Hpos : exists pos, position_to_grid d position = Some pos).
  { unfold position_to_grid. destruct (space_size d) as [w h]. cbn [fst snd] in *.
    assert (Hwz : (w =? 0)%Z = false) by (apply Z.eqb_neq; exact Hw).
    assert (Hhz : (h =? 0)%Z = false) by (apply Z.eqb_neq; exact Hh).
    rewrite Hwz, Hhz. cbn [orb]. eauto. }
  destruct Hpos as [[x y] Hpos]. split.
  - unfold release. rewrite Hpos, H1, H2, H3. reflexivity.
  - rewrite get_concentration_unfold, Hpos. unfold map_of. rewrite H1, H2, H3. reflexivity.
Qed.

Lemma unknown_transmitter_is_ignored_witness :
  release default_field (10, 10) 0.5 "gaba" = Some default_field /\
  get_concentration default_field (10, 10) "gaba" = Some 0.
Proof.
  apply unknown_transmitter_is_ignored; simpl; try discriminate.
  unfold known. intros [H | [H | H]]; discriminate.
Defined.











Lemma relaxation_step (b l x : R) :
  b + (l + (b - l) * 0.01 - b) * x = b + (l - b) * (0.99 * x).
Proof.
  assert (H : 0.99 = 1 - 0.01) by lra. rewrite H. generalize 0.01. intros r. ring.
Qed.

(** X16.  [MultiNeurotransmitterSystem.update] relaxes every level of the
    dictionary geometrically toward its baseline ([0.2] for acetylcholine,
    [0.3] for every other key), whatever the time steps: after [n] calls
    the keys are the same, in the same order, and each level is
    [baseline + (level - baseline) * 0.99 ^ n], which lies between the
    baseline and the level it started from. *)
Theorem modulator_levels_relax_geometrically
    (sys : MultiNeurotransmitterSystem) (dts : list R) :
  modulator_levels (Transmitters.update_all sys dts) =
    map (fun entry =>
           (fst entry,
            baseline_of (fst entry)
            + (snd entry - baseline_of (fst entry)) * 0.99 ^ List.length dts))
        (modulator_levels sys) /\
  Forall2 (fun before after =>
             fst after = fst before /\
             (baseline_of (fst before) <= snd before ->
                baseline_of (fst before) <= snd after <= snd before) /\
             (snd before <= baseline_of (fst before) ->
                snd before <= snd after <= baseline_of (fst before)))
          (modulator_levels sys)
          (modulator_levels (Transmitters.update_all sys dts)).
Proof.
  assert (Hform : forall dts' sys',
            modulator_levels (Transmitters.update_all sys' dts') =
            map (fun entry =>
                   (fst entry,
                    baseline_of (fst entry)
                    + (snd entry - baseline_of (fst entry)) * 0.99 ^ List.length dts'))
                (modulator_levels sys')).
  { induction dts' as [| dt dts' IH]; intros sys'.
    - unfold Transmitters.update_all. simpl. rewrite <- (map_id (modulator_levels sys')) at 1.
      apply map_ext. intros [k l]. simpl. f_equal. ring.
    - unfold Transmitters.update_all in *. cbn [fold_left List.length]. rewrite IH.
      cbn [Transmitters.update modulator_levels]. rewrite map_map.
      apply map_ext. intros [k l]. cbn [fst snd]. f_equal.
      rewrite relaxation_step. simpl. reflexivity. }
  split; [apply Hform |].
  rewrite Hform.
  assert (Hpow : 0 < 0.99 ^ List.length dts <= 1).
  { split; [apply pow_lt; lra |].
    rewrite <- (pow1 (List.length dts)). apply pow_incr. lra. }
  set (x := 0.99 ^ List.length dts) in *.
  induction (modulator_levels sys) as [| [k l] rest IH]; simpl; constructor; [| exact IH].
  simpl. split; [reflexivity |]. split; intros; nra.
Qed.

End DiffusionMore.

(** ** Neurons that never reach their threshold *)

Module NeuronBoundsFacts.
Import Numeric NumericFacts Neuron NeuronBounds.

Lemma decay_times_growth (x : R) : 0 <= x -> 0 < exp (- x) /\ exp (- x) * (1 + x) <= 1.
Proof.
  intros Hx. pose proof (exp_pos (- x)) as Hp. pose proof (exp_pos x) as Hq.
  pose proof (exp_ineq1_le x) as Hle.
  assert (Hone : exp (- x) * exp x = 1) by (rewrite exp_Ropp; field; lra).
  split; [exact Hp | nra].
Qed.

(** The potential after the leak and the input, when the input is at most
    [limit]. *)
Lemma leak_bound (u d x current limit : R) :
  0 <= x -> 0 < d -> d * (1 + x) <= 1 -> 0 <= limit -> current <= limit ->
  u <= limit * (1 + x) ->
  u * d + current * x <= limit * (1 + x).
Proof.
  intros Hx Hd Hdx Hl Hc Hu.
  assert (H1 : u * d <= limit * (1 + x) * d) by nra.
  assert (H2 : limit * ((1 + x) * d) <= limit * 1) by nra.
  assert (H3 : current * x <= limit * x) by nra.
  nra.
Qed.

Lemma leak_and_fire_held (n : LIFNeuron) (dt current limit : R) (keep : bool) :
  0 <= dt -> 0 <= limit -> current <= limit -> held_below limit dt n ->
  held_below limit dt (leak_and_fire n dt current keep) /\
  same_parameters n (leak_and_fire n dt current keep).
Proof.
  intros Hdt Hl Hc (Htau & Hcount & Hout & Hpot & Hthr).
  assert (Hx : 0 <= dt / tau_membrane n).
  { apply Rmult_le_pos; [exact Hdt |]. left. apply Rinv_0_lt_compat. exact Htau. }
  destruct (decay_times_growth Hx) as [Hd Hdx].
  unfold leak_and_fire. cbv zeta.
  replace (- dt / tau_membrane n) with (- (dt / tau_membrane n)) by (field; lra).
  replace (current * dt / tau_membrane n) with (current * (dt / tau_membrane n))
    by (field; lra).
  set (x := dt / tau_membrane n) in *.
  set (d := exp (- x)) in *.
  assert (Hv : rest_potential n + (membrane_potential n - rest_potential n) * d
               + current * x - rest_potential n <= limit * (1 + x)).
  { pose proof (@leak_bound (membrane_potential n - rest_potential n) d x current limit
                  Hx Hd Hdx Hl Hc Hpot). lra. }
  destruct (Rge_dec _ (threshold n)) as [Hfire | Hquiet]; [lra |].
  unfold held_below, same_parameters, with_state. cbn.
  fold x. repeat split; try reflexivity; try assumption.
Qed.

Lemma integrate_held (n : LIFNeuron) (dt current limit : R) :
  0 <= dt -> 0 <= limit -> current <= limit -> held_below limit dt n ->
  held_below limit dt (integrate n dt current) /\
  same_parameters n (integrate n dt current).
Proof.
  intros Hdt Hl Hc Hn. unfold integrate.
  destruct (Rgt_dec (refractory_counter n) 0) as [Hr | _].
  - destruct Hn as (_ & Hcount & _). lra.
  - apply leak_and_fire_held; assumption.
Qed.

(** [PyramidalNeuron.integrate] without apical input. *)
Lemma pyramidal_integrate_held (n : PyramidalNeuron) (dt basal limit : R) :
  0 <= dt -> 0 <= limit -> basal <= limit -> held_below limit dt (pyr_lif n) ->
  held_below limit dt (pyr_lif (pyramidal_integrate n dt basal None)) /\
  same_parameters (pyr_lif n) (pyr_lif (pyramidal_integrate n dt basal None)).
Proof.
  intros Hdt Hl Hc Hn. unfold pyramidal_integrate.
  destruct (Rgt_dec (refractory_counter (pyr_lif n)) 0) as [Hr | _].
  - destruct Hn as (_ & Hcount & _). lra.
  - cbv zeta. cbn [pyr_lif].
    match goal with
    | |- context [leak_and_fire (pyr_lif n) dt ?soma false] =>
        assert (Hsoma : soma <= limit);
        [| exact (@leak_and_fire_held (pyr_lif n) dt soma limit false Hdt Hl Hsoma Hn)]
    end.
    destruct (Rgt_dec 0 0.5); [lra |]. lra.
Qed.

(** [FastSpikingInterneuron.integrate]: the adaptation current only
    lowers the input. *)
Lemma fast_integrate_held (n : FastSpikingInterneuron) (dt current limit : R) :
  0 <= dt -> 0 <= limit -> current <= limit ->
  held_below limit dt (fast_lif n) -> 0 <= adaptation_current n ->
  held_below limit dt (fast_lif (fast_integrate n dt current)) /\
  same_parameters (fast_lif n) (fast_lif (fast_integrate n dt current)) /\
  0 <= adaptation_current (fast_integrate n dt current).
Proof.
  intros Hdt Hl Hc Hn Ha. unfold fast_integrate.
  destruct (Rgt_dec (refractory_counter (fast_lif n)) 0) as [Hr | _].
  - destruct Hn as (_ & Hcount & _). lra.
  - cbv zeta. cbn [fast_lif adaptation_current].
    pose proof (exp_pos (- dt / adaptation_tau n)) as He.
    match goal with
    | |- context [leak_and_fire (fast_lif n) dt ?net false] =>
        assert (Hnet : net <= limit) by nra;
        destruct (@leak_and_fire_held (fast_lif n) dt net limit false Hdt Hl Hnet Hn)
          as [Hheld Hsame];
        set (lif := leak_and_fire (fast_lif n) dt net false) in *
    end.
    split; [exact Hheld |]. split; [exact Hsame |].
    destruct Hheld as (_ & _ & _ & Hpot & Hthr).
    destruct Hsame as (Hrest & Hthreshold & Htau' & _).
    rewrite Hrest, Hthreshold, Htau' in *.
    destruct (Rge_dec (membrane_potential lif) (threshold (fast_lif n))); [lra | nra].
Qed.

Lemma reset_held (n : LIFNeuron) (dt limit : R) :
  0 <= dt -> 0 <= limit -> held_below limit dt n -> held_below limit dt (reset n).
Proof.
  intros Hdt Hl (Htau & Hcount & Hout & Hpot & Hthr).
  unfold held_below, reset, with_state. cbn.
  assert (Hx : 0 <= dt / tau_membrane n).
  { apply Rmult_le_pos; [exact Hdt |]. left. apply Rinv_0_lt_compat. exact Htau. }
  repeat split; try assumption; try lra. nra.
Qed.

End NeuronBoundsFacts.

(** ** The retina never fires *)

Module RetinaFacts.
Import Numeric NumericFacts Neuron NeuronBounds NeuronBoundsFacts Retina.

Lemma input_current_range (f : CenterSurroundFilter) (stimulus : R * R) :
  0 <= input_current f stimulus <= 20.
Proof.
  unfold input_current. cbv zeta.
  match goal with
  | |- context [clip ?a 0 1] => pose proof (@clip_bounds a 0 1 ltac:(lra)) as Hc
  end.
  lra.
Qed.

Lemma filter_init_calm (position0 : R * R) (center_size0 surround_size0 : R)
    (filter_type0 : string) :
  calm (filter_init position0 center_size0 surround_size0 filter_type0).
Proof.
  unfold calm, held_below, filter_init, init_default, init. cbn.
  repeat split; lra.
Qed.

Lemma process_calm (f : CenterSurroundFilter) (stimulus : R * R) :
  calm f ->
  calm (fst (process f stimulus)) /\ snd (process f stimulus) = 0 /\
  surround_neuron (fst (process f stimulus)) = surround_neuron f.
Proof.
  intros (Hheld & Hrest & Htau & Hout).
  destruct (input_current_range f stimulus) as [_ Hcur].
  destruct (@integrate_held (center_neuron f) 0.01 (input_current f stimulus) 20
              ltac:(lra) ltac:(lra) Hcur Hheld) as [Hheld' (Hrest' & _ & Htau' & _)].
  unfold process, calm. cbn [fst snd center_neuron output surround_neuron].
  pose proof Hheld' as (_ & _ & Hspike & _).
  split; [| split; [exact Hspike | reflexivity]].
  split; [exact Hheld' |]. split; [congruence |]. split; [congruence | exact Hspike].
Qed.

Lemma process_all_calm (stimuli : list (R * R)) (f : CenterSurroundFilter) :
  calm f ->
  calm (process_all f stimuli) /\
  surround_neuron (process_all f stimuli) = surround_neuron f.
Proof.
  revert f. induction stimuli as [| s rest IH]; intros f Hf; [split; [exact Hf | reflexivity] |].
  unfold process_all in *. cbn [fold_left].
  destruct (process_calm s Hf) as (Hf' & _ & Hs).
  destruct (IH _ Hf') as [Hcalm Hsur]. split; [exact Hcalm | congruence].
Qed.

Lemma respond_steps (visual_scene : list (R * R * R)) (f : CenterSurroundFilter)
    (total : R) :
  calm f ->
  let result :=
    fold_left
      (fun state object =>
         let '(obj_x, obj_y, brightness) := object in
         let '(f', response) := process (fst state) (obj_x, obj_y) in
         (f', snd state + response * brightness))
      visual_scene (f, total) in
  calm (fst result) /\ snd result = total.
Proof.
  revert f total. induction visual_scene as [| [[x y] b] rest IH]; intros f total Hf.
  - split; [exact Hf | reflexivity].
  - cbn [fold_left fst snd].
    destruct (process_calm (x, y) Hf) as (Hf' & Hzero & _).
    destruct (process f (x, y)) as [f' response] eqn:Hp. cbn [fst snd] in *.
    subst response.
    replace (total + 0 * b) with total by ring.
    exact (IH f' total Hf').
Qed.

Lemma respond_calm (f : CenterSurroundFilter) (visual_scene : list (R * R * R)) :
  calm f -> calm (fst (respond f visual_scene)) /\ snd (respond f visual_scene) = 0.
Proof. intros Hf. exact (respond_steps visual_scene 0 Hf). Qed.

Lemma responses_are_zero (visual_scene : list (R * R * R)) (fs : list CenterSurroundFilter) :
  Forall calm fs ->
  map snd (map (fun f => respond f visual_scene) fs) = repeat 0 (List.length fs) /\
  Forall calm (map fst (map (fun f => respond f visual_scene) fs)).
Proof.
  induction 1 as [| f fs Hf Hfs IH]; [split; [reflexivity | constructor] |].
  destruct IH as [IH1 IH2]. destruct (respond_calm visual_scene Hf) as [Hc Hz].
  cbn [map List.length repeat]. rewrite Hz, IH1. split; [reflexivity |].
  constructor; assumption.
Qed.

Lemma length_grid (A B : Type) (f : A -> A -> B) (l : list A) :
  List.length (flat_map (fun i => map (fun j => f i j) l) l)
  = (List.length l * List.length l)%nat.
Proof.
  assert (H : forall l1 l2 : list A,
            List.length (flat_map (fun i => map (fun j => f i j) l2) l1)
            = (List.length l1 * List.length l2)%nat).
  { induction l1 as [| a l1 IH]; intros l2; [reflexivity |].
    cbn [flat_map List.length]. rewrite length_app, length_map, IH. lia. }
  apply H.
Qed.

Lemma init_steady (size : R * R) (n : Z) : (0 <= n)%Z -> steady n (init size n).
Proof.
  intros Hn. unfold steady, init. cbn.
  assert (Hlen : List.length
                   (flat_map (fun i => map (fun j => filter_at size n i j) (range n))
                             (range n)) = Z.to_nat (n * n)).
  { rewrite length_grid. unfold range. rewrite length_map, length_seq.
    rewrite Z2Nat.inj_mul by lia. reflexivity. }
  split; [reflexivity |]. split; [exact Hlen |]. split.
  - apply Forall_forall. intros f Hin. apply in_flat_map in Hin.
    destruct Hin as (i & _ & Hin). apply in_map_iff in Hin.
    destruct Hin as (j & <- & _). unfold filter_at. apply filter_init_calm.
  - rewrite Hlen. reflexivity.
Qed.

Lemma process_visual_input_steady (n : Z) (r : RetinalProcessing)
    (visual_scene : list (R * R * R)) :
  (0 <= n)%Z -> steady n r ->
  exists r', process_visual_input r visual_scene = Some r' /\ steady n r'.
Proof.
  intros Hn (Hside & Hlen & Hcalm & Hout).
  destruct (responses_are_zero visual_scene Hcalm) as [Hzero Hcalm'].
  unfold process_visual_input. cbv zeta. rewrite Hzero, Hside.
  unfold reshape. rewrite repeat_length, Hlen.
  assert (Hfit : ((0 <=? n) && (Z.of_nat (Z.to_nat (n * n)) =? n * n))%Z = true).
  { apply andb_true_iff. split; [apply Z.leb_le; lia | apply Z.eqb_eq; nia]. }
  rewrite Hfit. eexists. split; [reflexivity |].
  unfold steady. cbn. rewrite !length_map.
  repeat split; try assumption.
Qed.

Lemma reset_steady (n : Z) (r : RetinalProcessing) :
  steady n r -> steady n (reset r).
Proof.
  intros (Hside & Hlen & Hcalm & Hout). unfold steady, reset. cbn.
  rewrite length_map, Hlen. repeat split; try assumption.
  apply Forall_map. apply Forall_forall. intros f Hin.
  destruct (proj1 (Forall_forall _ _) Hcalm f Hin) as (Hheld & Hrest & Htau & Hzero).
  unfold calm. cbn. split; [| auto].
  apply reset_held; [lra | lra | exact Hheld].
Qed.

Lemma run_steady (n : Z) (uses : list use) (r : RetinalProcessing) :
  (0 <= n)%Z -> steady n r -> exists r', run r uses = Some r' /\ steady n r'.
Proof.
  intros Hn. revert r. induction uses as [| [scene |] rest IH]; intros r Hr.
  - exists r. split; [reflexivity | exact Hr].
  - destruct (process_visual_input_steady scene Hn Hr) as (r1 & Hrun & Hr1).
    cbn [run]. rewrite Hrun. apply IH. exact Hr1.
  - cbn [run]. apply IH. apply reset_steady. exact Hr.
Qed.

(** X17.  A centre-surround filter never fires.  Its input current is
    capped at 20, which holds the centre neuron (rest -70, threshold -40,
    time constant 20, called with [dt = 0.01]) at most 20.01 above rest:
    after any sequence of stimuli the output is 0, the potential is at
    most -49.99, the neuron never enters its refractory period, and one
    more [process] call returns 0 again.  The surround neuron is never
    integrated: it is still as the constructor built it. *)
Theorem filter_never_fires
    (position0 : R * R) (center_size0 surround_size0 : R) (filter_type0 : string)
    (stimuli : list (R * R)) :
  center_size0 <> 0 -> surround_size0 <> 0 ->
  let f := process_all (filter_init position0 center_size0 surround_size0 filter_type0)
                       stimuli in
  output f = 0 /\
  spike_output (center_neuron f) = 0 /\
  refractory_counter (center_neuron f) <= 0 /\
  membrane_potential (center_neuron f) <= -49.99 /\
  surround_neuron f = init_default /\
  forall stimulus : R * R, snd (process f stimulus) = 0.
Proof.
  intros _ _ f.
  destruct (@process_all_calm stimuli _
              (filter_init_calm position0 center_size0 surround_size0 filter_type0))
    as [Hcalm Hsur].
  fold f in Hcalm, Hsur.
  pose proof Hcalm as ((Htau & Hcount & Hspike & Hpot & Hthr) & Hrest & Htau20 & Hout).
  rewrite Htau20, Hrest in Hpot.
  split; [exact Hout |]. split; [exact Hspike |]. split; [exact Hcount |].
  split; [lra |]. split; [exact Hsur |].
  intros stimulus. exact (proj1 (proj2 (process_calm stimulus Hcalm))).
Qed.

Lemma filter_never_fires_witness :
  output (process_all (filter_init (20, 20) 10 30 "on_center") [(20, 20); (20, 20)]) = 0.
Proof.
  refine (proj1 (@filter_never_fires (20, 20) 10 30 "on_center" [(20, 20); (20, 20)] _ _));
    lra.
Defined.

(** X18.  The retina is blind.  A [RetinalProcessing] built with
    [n >= 0] filters per side has [n * n] filters, and whatever scenes it
    is shown, with resets in between or not, no call raises and
    [retinal_output] is a vector of [n * n] zeros.  With a negative [n]
    there is no filter and every [process_visual_input] call raises. *)
Theorem retinal_output_is_always_zero
    (size : R * R) (n : Z) (uses : list use) (visual_scene : list (R * R * R)) :
  ((0 <= n)%Z ->
   exists r : RetinalProcessing,
     run (init size n) uses = Some r /\
     List.length (filters r) = Z.to_nat (n * n) /\
     retinal_output r = repeat 0 (Z.to_nat (n * n)) /\
     Forall (fun f => output f = 0) (filters r)) /\
  ((n < 0)%Z ->
   filters (init size n) = [] /\
   process_visual_input (init size n) visual_scene = None).
Proof.
  split.
  - intros Hn.
    destruct (@run_steady n uses (init size n) Hn (init_steady size Hn))
      as (r & Hrun & Hside & Hlen & Hcalm & Hout).
    exists r. split; [exact Hrun |]. split; [exact Hlen |]. split; [exact Hout |].
    apply Forall_forall. intros f Hin.
    exact (proj2 (proj2 (proj2 (proj1 (Forall_forall _ _) Hcalm f Hin)))).
  - intros Hn.
    assert (Hrange : range n = []).
    { unfold range. destruct n; try lia. reflexivity. }
    assert (Hfs : filters (init size n) = []).
    { unfold init. cbn. rewrite Hrange. reflexivity. }
    split; [exact Hfs |].
    unfold process_visual_input. cbv zeta. rewrite Hfs. cbn [map].
    unfold reshape. cbn [num_filters_per_side init].
    assert (Hneg : (0 <=? n)%Z = false) by (apply Z.leb_gt; lia).
    rewrite Hneg. reflexivity.
Qed.

Lemma retinal_output_is_always_zero_witness :
  exists r : RetinalProcessing,
    run (init (800, 600) 10) [Look [(100, 100, 1)]; Reset; Look [(5, 5, 0.5)]] = Some r /\
    List.length (filters r) = 100%nat /\
    retinal_output r = repeat 0 100.
Proof.
  destruct (proj1 (@retinal_output_is_always_zero (800, 600) 10
                     [Look [(100, 100, 1)]; Reset; Look [(5, 5, 0.5)]] [])
                  ltac:(lia))
    as (r & Hrun & Hlen & Hout & _).
  exists r. split; [exact Hrun |]. split; [exact Hlen | exact Hout].
Defined.

End RetinaFacts.

(** ** The tectum under weak input *)

Module TectumProcessFacts.
Import Numeric NumericFacts NeuronBounds NeuronBoundsFacts TectumProcess.

Lemma tuning_range (angle preferred : R) : 0 < Geometry.tuning angle preferred <= 1.
Proof.
  unfold Geometry.tuning. cbv zeta.
  match goal with |- context [Rmin ?a ?b] => set (d := Rmin a b) end.
  replace (- d ^ 2 / (2 * 0.5 ^ 2)) with (- (d ^ 2 / (2 * 0.5 ^ 2))) by (unfold Rdiv; ring).
  apply exp_neg_le_1. pose proof (pow2_ge_0 d) as Hd.
  apply Rmult_le_pos; [exact Hd |]. left. apply Rinv_0_lt_compat. simpl. lra.
Qed.

Lemma selectivity_range (c : Tectum.TectalColumn) (motion_vector : R * R) :
  0 < selectivity c motion_vector <= 1.
Proof.
  unfold selectivity. destruct (Rgt_dec _ _); [apply tuning_range | lra].
Qed.

Lemma total_zero (l : list R) : Forall (fun x => x = 0) l -> Geometry.total l = 0.
Proof.
  induction 1 as [| x l Hx _ IH]; [reflexivity |].
  unfold Geometry.total in *. cbn [fold_right]. rewrite Hx, IH. ring.
Qed.

Lemma mean_zero (l : list R) : Forall (fun x => x = 0) l -> mean l = 0.
Proof.
  intros H. unfold mean. pose proof (total_zero H) as Ht. unfold Geometry.total in Ht.
  rewrite Ht. unfold Rdiv. ring.
Qed.

Lemma pyramidal_silent (limit : R) (neurons : list Neuron.PyramidalNeuron) :
  Forall (fun n => held_below limit 0.01 (Neuron.pyr_lif n)) neurons ->
  mean (pyramidal_spikes neurons) = 0.
Proof.
  intros H. apply mean_zero. unfold pyramidal_spikes. apply Forall_map.
  apply (Forall_impl _ (P := fun n => held_below limit 0.01 (Neuron.pyr_lif n))); [| exact H].
  intros n (_ & _ & Hout & _). exact Hout.
Qed.

Lemma interneurons_silent (limit : R) (neurons : list Neuron.FastSpikingInterneuron) :
  Forall (fun n => held_below limit 0.01 (Neuron.fast_lif n) /\
                   0 <= Neuron.adaptation_current n) neurons ->
  mean (interneuron_spikes neurons) = 0.
Proof.
  intros H. apply mean_zero. unfold interneuron_spikes. apply Forall_map.
  apply (Forall_impl _ (P := fun n => held_below limit 0.01 (Neuron.fast_lif n) /\
                                      0 <= Neuron.adaptation_current n)); [| exact H].
  intros n [(_ & _ & Hout & _) _]. exact Hout.
Qed.

Lemma pyramidal_layer_held (limit current : R) (neurons : list Neuron.PyramidalNeuron) :
  0 <= limit -> current <= limit ->
  Forall (fun n => held_below limit 0.01 (Neuron.pyr_lif n)) neurons ->
  Forall (fun n => held_below limit 0.01 (Neuron.pyr_lif n))
         (map (fun n => Neuron.pyramidal_integrate n 0.01 current None) neurons).
Proof.
  intros Hl Hc H. apply Forall_map.
  apply (Forall_impl _ (P := fun n => held_below limit 0.01 (Neuron.pyr_lif n))); [| exact H].
  intros n Hn.
  exact (proj1 (@pyramidal_integrate_held n 0.01 current limit ltac:(lra) Hl Hc Hn)).
Qed.

Lemma interneuron_layer_held (limit current : R)
    (neurons : list Neuron.FastSpikingInterneuron) :
  0 <= limit -> current <= limit ->
  Forall (fun n => held_below limit 0.01 (Neuron.fast_lif n) /\
                   0 <= Neuron.adaptation_current n) neurons ->
  Forall (fun n => held_below limit 0.01 (Neuron.fast_lif n) /\
                   0 <= Neuron.adaptation_current n)
         (map (fun n => Neuron.fast_integrate n 0.01 current) neurons).
Proof.
  intros Hl Hc H. apply Forall_map.
  apply (Forall_impl _ (P := fun n => held_below limit 0.01 (Neuron.fast_lif n) /\
                                      0 <= Neuron.adaptation_current n)); [| exact H].
  intros n [Hn Ha].
  destruct (@fast_integrate_held n 0.01 current limit ltac:(lra) Hl Hc Hn Ha)
    as (H1 & _ & H2).
  split; assumption.
Qed.

Lemma pyramidal_default_held (limit : R) :
  0 <= limit <= 29 -> held_below limit 0.01 (Neuron.pyr_lif Neuron.pyramidal_default).
Proof.
  intros Hl. unfold held_below, Neuron.pyramidal_default, Neuron.pyramidal_init, Neuron.init.
  cbn. repeat split; lra.
Qed.

Lemma fast_default_held :
  held_below 0 0.01 (Neuron.fast_lif Neuron.fast_default) /\
  0 <= Neuron.adaptation_current Neuron.fast_default.
Proof.
  unfold held_below, Neuron.fast_default, Neuron.fast_init, Neuron.init.
  cbn. repeat split; lra.
Qed.

Lemma Forall_repeat (A : Type) (P : A -> Prop) (a : A) (n : nat) :
  P a -> Forall P (repeat a n).
Proof.
  intros Ha. apply Forall_forall. intros x Hx. apply repeat_spec in Hx. subst x. exact Ha.
Qed.

Lemma column_init_calm (position0 : R * R) (preferred_direction0 : R) (g : rng) :
  column_calm (fst (Tectum.column_init position0 preferred_direction0 g)).
Proof.
  unfold Tectum.column_init.
  destruct (Tectum.synapse_matrix 8 4 g) as [p2i g1].
  destruct (Tectum.synapse_matrix 4 2 g1) as [i2o g2].
  unfold column_calm. cbn [fst Tectum.pyramidal_neurons Tectum.interneurons
                           Tectum.output_neurons Tectum.output].
  split; [apply Forall_repeat; apply pyramidal_default_held; lra |].
  split; [apply Forall_repeat; exact fast_default_held |].
  split; [apply Forall_repeat; apply pyramidal_default_held; lra | reflexivity].
Qed.

Lemma process_visual_input_calm (c : Tectum.TectalColumn) (visual_input : R)
    (motion_vector : R * R) :
  visual_input <= 2.9 -> column_calm c ->
  column_calm (fst (process_visual_input c visual_input motion_vector)) /\
  snd (process_visual_input c visual_input motion_vector) = 0.
Proof.
  intros Hv (Hpyr & Hinter & Hout & _).
  pose proof (selectivity_range c motion_vector) as Hsel.
  unfold process_visual_input. cbv zeta.
  set (current := visual_input * 10 * selectivity c motion_vector).
  assert (Hcur : current <= 29) by (unfold current; nra).
  set (pyramidal := map (fun pyr => Neuron.pyramidal_integrate pyr 0.01 current None)
                        (Tectum.pyramidal_neurons c)).
  assert (Hp : Forall (fun n => held_below 29 0.01 (Neuron.pyr_lif n)) pyramidal)
    by (apply pyramidal_layer_held; [lra | exact Hcur | exact Hpyr]).
  rewrite (pyramidal_silent Hp).
  replace (0 * 15) with 0 by ring. replace (0 * 10) with 0 by ring.
  set (inter := map (fun n => Neuron.fast_integrate n 0.01 0) (Tectum.interneurons c)).
  assert (Hi : Forall (fun n => held_below 0 0.01 (Neuron.fast_lif n) /\
                                0 <= Neuron.adaptation_current n) inter)
    by (apply interneuron_layer_held; [lra | lra | exact Hinter]).
  rewrite (interneurons_silent Hi).
  replace (0 - 0 * 5) with 0 by ring.
  set (out := map (fun n => Neuron.pyramidal_integrate n 0.01 0 None)
                  (Tectum.output_neurons c)).
  assert (Ho : Forall (fun n => held_below 0 0.01 (Neuron.pyr_lif n)) out)
    by (apply pyramidal_layer_held; [lra | lra | exact Hout]).
  rewrite (pyramidal_silent Ho).
  unfold column_calm. cbn [fst snd Tectum.pyramidal_neurons Tectum.interneurons
                           Tectum.output_neurons Tectum.output].
  split; [| reflexivity]. split; [exact Hp |]. split; [exact Hi |].
  split; [exact Ho | reflexivity].
Qed.

Lemma column_reset_calm (c : Tectum.TectalColumn) :
  column_calm c -> column_calm (Tectum.column_reset c).
Proof.
  intros (Hpyr & Hinter & Hout & Hzero).
  unfold column_calm, Tectum.column_reset.
  cbn [Tectum.pyramidal_neurons Tectum.interneurons Tectum.output_neurons Tectum.output].
  split; [| split; [| split; [| exact Hzero]]].
  - apply Forall_map.
    apply (Forall_impl _ (P := fun n => held_below 29 0.01 (Neuron.pyr_lif n)));
      [| exact Hpyr].
    intros n Hn. cbn. apply reset_held; [lra | lra | exact Hn].
  - apply Forall_map.
    apply (Forall_impl _ (P := fun n => held_below 0 0.01 (Neuron.fast_lif n) /\
                                        0 <= Neuron.adaptation_current n));
      [| exact Hinter].
    intros n [Hn Ha]. cbn. split; [apply reset_held; [lra | lra | exact Hn] | exact Ha].
  - apply Forall_map.
    apply (Forall_impl _ (P := fun n => held_below 0 0.01 (Neuron.pyr_lif n)));
      [| exact Hout].
    intros n Hn. cbn. apply reset_held; [lra | lra | exact Hn].
Qed.

Lemma build_columns_calm (total : Z) (n : nat) :
  forall (i : Z) (g : rng),
  List.length (fst (Tectum.build_columns total i n g)) = n /\
  Forall column_calm (fst (Tectum.build_columns total i n g)).
Proof.
  induction n as [| n IH]; intros i g; [split; [reflexivity | constructor] |].
  cbn [Tectum.build_columns]. cbv zeta.
  pose proof (column_init_calm (IZR (i mod 4) * 100, IZR (i / 4) * 100)
                (IZR i / IZR total * 2 * PI) g) as Hc.
  destruct (Tectum.column_init _ _ g) as [column g1].
  specialize (IH (i + 1)%Z g1).
  destruct (Tectum.build_columns total (i + 1) n g1) as [rest g2].
  cbn [fst List.length] in *. destruct IH as [Hlen Hall].
  split; [lia | constructor; assumption].
Qed.

Lemma tectum_init_calm (columns0 neurons_per_column0 : Z) (g : rng) :
  tectum_calm columns0 (fst (Tectum.init columns0 neurons_per_column0 g)).
Proof.
  unfold Tectum.init.
  destruct (build_columns_calm columns0 (Z.to_nat columns0) 0 g) as [Hlen Hall].
  destruct (Tectum.build_columns columns0 0 (Z.to_nat columns0) g) as [cols g1].
  unfold tectum_calm. cbn in *. auto.
Qed.

Lemma outputs_are_zero (visual_input : R) (motion_vector : R * R)
    (cs : list Tectum.TectalColumn) :
  visual_input <= 2.9 -> Forall column_calm cs ->
  map snd (map (fun c => process_visual_input c visual_input motion_vector) cs)
    = repeat 0 (List.length cs) /\
  Forall column_calm
    (map fst (map (fun c => process_visual_input c visual_input motion_vector) cs)).
Proof.
  intros Hv. induction 1 as [| c cs Hc Hcs IH]; [split; [reflexivity | constructor] |].
  destruct IH as [IH1 IH2].
  destruct (process_visual_input_calm motion_vector Hv Hc) as [Hcalm Hzero].
  cbn [map List.length repeat]. rewrite Hzero, IH1. split; [reflexivity |].
  constructor; assumption.
Qed.

Lemma total_repeat_zero (n : nat) : Geometry.total (repeat 0 n) = 0.
Proof. apply total_zero. apply Forall_repeat. reflexivity. Qed.

Lemma tectum_process_calm (n : Z) (t : Tectum.Tectum) (retinal_input : list R)
    (motion_vectors : list (R * R)) :
  (0 <= n)%Z -> mean_visual_input retinal_input <= 2.9 -> tectum_calm n t ->
  exists t', process t retinal_input motion_vectors = Some t' /\ tectum_calm n t'.
Proof.
  intros Hn Hv (Hnum & Hlen & Hall & Hout & Hdir).
  destruct (outputs_are_zero (aggregated_motion motion_vectors) Hv Hall) as [Hzero Hall'].
  unfold process. rewrite Hnum, Hlen.
  assert (H1 : (n <? 0)%Z = false) by (apply Z.ltb_ge; lia).
  assert (H2 : (n <? Z.of_nat (Z.to_nat n))%Z = false) by (apply Z.ltb_ge; lia).
  rewrite H1, H2. cbv zeta. rewrite Hzero, Hlen, Nat.sub_diag. cbn [repeat].
  rewrite app_nil_r, total_repeat_zero.
  destruct (Rgt_dec 0 0) as [Habs | _]; [lra |].
  eexists. split; [reflexivity |].
  unfold tectum_calm. cbn. rewrite !length_map. auto.
Qed.

Lemma tectum_reset_calm (n : Z) (t : Tectum.Tectum) :
  tectum_calm n t -> tectum_calm n (Tectum.reset t).
Proof.
  intros (Hnum & Hlen & Hall & Hout & Hdir). unfold tectum_calm, Tectum.reset. cbn.
  rewrite length_map, Hnum. repeat split; try assumption.
  apply Forall_map.
  apply (Forall_impl _ (P := column_calm)); [| exact Hall].
  intros c Hc. apply column_reset_calm. exact Hc.
Qed.

Lemma tectum_run_calm (n : Z) (uses : list use) :
  (0 <= n)%Z -> Forall (at_most 2.9) uses ->
  forall t : Tectum.Tectum, tectum_calm n t ->
  exists t', run t uses = Some t' /\ tectum_calm n t'.
Proof.
  intros Hn. induction 1 as [| u uses Hu _ IH]; intros t Ht.
  - exists t. split; [reflexivity | exact Ht].
  - destruct u as [retinal_input motion_vectors |]; cbn [run].
    + destruct (@tectum_process_calm n t retinal_input motion_vectors Hn Hu Ht) as (t1 & Hrun & Ht1).
      rewrite Hrun. apply IH. exact Ht1.
    + apply IH. apply tectum_reset_calm. exact Ht.
Qed.

Lemma calm_command (n : Z) (t : Tectum.Tectum) :
  tectum_calm n t -> get_movement_command t = (0, 0).
Proof.
  intros (_ & _ & _ & Hout & _). unfold get_movement_command.
  rewrite Hout, total_repeat_zero.
  destruct (Req_dec_T 0 0) as [_ | Habs]; [reflexivity | lra].
Qed.

(** X19.  A tectum fed a mean visual input of at most 2.9 never answers.
    The pyramidal layer of a column gets at most [2.9 * 10] times a
    selectivity that is at most 1, which holds its neurons under their
    threshold; so the interneurons and the output neurons get no input at
    all.  From the constructor, after any sequence of such [process] calls
    and resets, with any motion vectors: no call raises, [tectal_output]
    is all zeros, every column's output is 0, [dominant_direction] is
    still 0 and [get_movement_command] returns [(0.0, 0.0)]. *)
Theorem weak_input_never_moves_the_tectum
    (columns0 neurons_per_column0 : Z) (g : rng) (uses : list use) :
  (0 <= columns0)%Z -> Forall (at_most 2.9) uses ->
  exists t : Tectum.Tectum,
    run (fst (Tectum.init columns0 neurons_per_column0 g)) uses = Some t /\
    Tectum.tectal_output t = repeat 0 (Z.to_nat columns0) /\
    Forall (fun c => Tectum.output c = 0) (Tectum.columns t) /\
    Tectum.dominant_direction t = 0 /\
    get_movement_command t = (0, 0).
Proof.
  intros Hn Huses.
  destruct (tectum_run_calm Hn Huses (tectum_init_calm columns0 neurons_per_column0 g))
    as (t & Hrun & Ht).
  exists t. split; [exact Hrun |].
  pose proof (calm_command Ht) as Hcmd.
  destruct Ht as (_ & _ & Hall & Hout & Hdir).
  split; [exact Hout |]. split; [| split; [exact Hdir | exact Hcmd]].
  apply (Forall_impl _ (P := column_calm)); [| exact Hall].
  intros c (_ & _ & _ & Hzero). exact Hzero.
Qed.

Lemma weak_input_never_moves_the_tectum_witness :
  exists t : Tectum.Tectum,
    run (fst (Tectum.init 16 12 {| sample := fun _ => 0.5; cursor := 0 |}))
        [Process [1; 0] [(1, 0)]; Reset; Process [] []] = Some t /\
    get_movement_command t = (0, 0).
Proof.
  assert (Huses : Forall (at_most 2.9) [Process [1; 0] [(1, 0)]; Reset; Process [] []]).
  { repeat constructor; unfold at_most, mean_visual_input, mean; simpl; lra. }
  destruct (@weak_input_never_moves_the_tectum 16 12
              {| sample := fun _ => 0.5; cursor := 0 |} _ ltac:(lia) Huses)
    as (t & Hrun & _ & _ & _ & Hcmd).
  exists t. split; [exact Hrun | exact Hcmd].
Defined.

End TectumProcessFacts.

(** ** The motor hierarchy under gentle commands *)

Module MotorFacts.
Import Numeric NumericFacts NeuronBounds NeuronBoundsFacts TectumProcess
       TectumProcessFacts Motor.

Lemma spikes_zero (limit : R) (neurons : list Neuron.PyramidalNeuron) :
  Forall (fun n => held_below limit 0.01 (Neuron.pyr_lif n)) neurons ->
  pyramidal_spikes neurons = repeat 0 (List.length neurons).
Proof.
  induction 1 as [| n l (_ & _ & Hout & _) _ IH]; [reflexivity |].
  unfold pyramidal_spikes in *. cbn [map List.length repeat]. rewrite Hout, IH. reflexivity.
Qed.

Lemma tune_executive_held (magnitude input_angle : R) (angles0 : list R) :
  0 <= magnitude <= 1.9 ->
  forall neurons : list Neuron.PyramidalNeuron,
  (List.length neurons <= List.length angles0)%nat ->
  Forall (fun n => held_below 29 0.01 (Neuron.pyr_lif n)) neurons ->
  exists l : list Neuron.PyramidalNeuron,
    tune_executive magnitude input_angle angles0 neurons = Some l /\
    List.length l = List.length neurons /\
    Forall (fun n => held_below 29 0.01 (Neuron.pyr_lif n)) l.
Proof.
  intros Hm. induction angles0 as [| angle angles0 IH]; intros neurons Hlen Hall.
  - destruct neurons; [| cbn in Hlen; lia].
    exists []. repeat split; constructor.
  - destruct neurons as [| n rest].
    + exists []. repeat split; constructor.
    + inversion Hall as [| ? ? Hn Hrest]; subst.
      cbn [List.length] in Hlen.
      destruct (IH rest ltac:(lia) Hrest) as (l & Hrun & Hl & Hheld).
      cbn [tune_executive]. cbv zeta. rewrite Hrun. cbn [option_map].
      eexists. split; [reflexivity |]. split; [cbn [List.length]; lia |].
      constructor; [| exact Hheld].
      pose proof (tuning_range input_angle angle) as Ht.
      assert (Hcur : magnitude * Geometry.tuning input_angle angle * 15 <= 29) by nra.
      exact (proj1 (@pyramidal_integrate_held n 0.01 _ 29 ltac:(lra) ltac:(lra) Hcur Hn)).
Qed.

Lemma inh_feedback_bound (proprioceptive_feedback : list R) (i : nat) :
  Forall (fun x => -5 <= x) proprioceptive_feedback ->
  -25 <= inh_feedback proprioceptive_feedback i.
Proof.
  intros Hfb. unfold inh_feedback.
  destruct (i <? List.length proprioceptive_feedback)%nat eqn:Hi; [| lra].
  apply Nat.ltb_lt in Hi.
  pose proof (proj1 (Forall_forall _ _) Hfb _ (nth_In proprioceptive_feedback 0 Hi)) as Hx.
  cbv beta in Hx. lra.
Qed.

Lemma drive_motor_held (proprioceptive_feedback : list R) :
  Forall (fun x => -5 <= x) proprioceptive_feedback ->
  forall (neurons : list Neuron.PyramidalNeuron) (i : nat),
  Forall (fun n => held_below 29 0.01 (Neuron.pyr_lif n)) neurons ->
  List.length (drive_motor 0 proprioceptive_feedback i neurons) = List.length neurons /\
  Forall (fun n => held_below 29 0.01 (Neuron.pyr_lif n))
         (drive_motor 0 proprioceptive_feedback i neurons).
Proof.
  intros Hfb. induction neurons as [| n rest IH]; intros i Hall.
  - split; [reflexivity | constructor].
  - inversion Hall as [| ? ? Hn Hrest]; subst.
    destruct (IH (S i) Hrest) as [Hlen Hheld].
    cbn [drive_motor List.length]. cbv zeta. split; [lia |].
    constructor; [| exact Hheld].
    pose proof (inh_feedback_bound i Hfb) as Hb.
    assert (Hcur : 0 * 10 - inh_feedback proprioceptive_feedback i <= 29) by lra.
    exact (proj1 (@pyramidal_integrate_held n 0.01 _ 29 ltac:(lra) ltac:(lra) Hcur Hn)).
Qed.

Lemma motor_init_calm : motor_calm init.
Proof.
  unfold motor_calm, init. cbn [executive_neurons coordination_interneurons
                                motor_neurons muscle_activation].
  split; [cbn; lia |].
  split; [apply Forall_repeat; apply pyramidal_default_held; lra |].
  split; [apply Forall_repeat; exact fast_default_held |].
  split; [reflexivity |].
  split; [apply Forall_repeat; apply pyramidal_default_held; lra | reflexivity].
Qed.

Lemma execute_calm (m : MotorHierarchy) (command : R * R)
    (proprioceptive_feedback : list R) :
  Geometry.norm command <= 1.9 ->
  Forall (fun x => -5 <= x) proprioceptive_feedback ->
  motor_calm m ->
  exists m', execute_movement_command m command proprioceptive_feedback = Some m' /\
             motor_calm m'.
Proof.
  intros Hnorm Hfb (Hfour & Hexec & Hinter & Htwelve & Hmotor & Hmuscle).
  assert (Hmag : 0 <= Geometry.norm command) by (unfold Geometry.norm; apply sqrt_pos).
  assert (Hexecutive :
            exists l : list Neuron.PyramidalNeuron,
              (if Rgt_dec (Geometry.norm command) 0.01 then
                 tune_executive (Geometry.norm command)
                   (Geometry.arctan2 (snd command) (fst command)) angles
                   (executive_neurons m)
               else
                 Some (map (fun neuron => Neuron.pyramidal_integrate neuron 0.01 0 None)
                           (executive_neurons m))) = Some l /\
              List.length l = List.length (executive_neurons m) /\
              Forall (fun n => held_below 29 0.01 (Neuron.pyr_lif n)) l).
  { destruct (Rgt_dec (Geometry.norm command) 0.01).
    - apply tune_executive_held; [lra | exact Hfour | exact Hexec].
    - eexists. split; [reflexivity |]. split; [apply length_map |].
      apply pyramidal_layer_held; [lra | lra | exact Hexec]. }
  destruct Hexecutive as (executive & Hrun & Hlen & Hheld).
  unfold execute_movement_command. cbv zeta. rewrite Hrun.
  rewrite (pyramidal_silent Hheld). replace (0 * 10) with 0 by ring.
  set (inter := map (fun n => Neuron.fast_integrate n 0.01 0) (coordination_interneurons m)).
  assert (Hi : Forall (fun n => held_below 0 0.01 (Neuron.fast_lif n) /\
                                0 <= Neuron.adaptation_current n) inter)
    by (apply interneuron_layer_held; [lra | lra | exact Hinter]).
  rewrite (interneurons_silent Hi).
  destruct (@drive_motor_held _ Hfb (motor_neurons m) 0%nat Hmotor) as [Hmlen Hmheld].
  rewrite Hmlen, Htwelve, Hmuscle, (spikes_zero Hmheld), Hmlen, Htwelve.
  cbn [List.length repeat Nat.ltb Nat.leb skipn app].
  eexists. split; [reflexivity |].
  unfold motor_calm. cbn [executive_neurons coordination_interneurons motor_neurons
                          muscle_activation].
  split; [lia |]. split; [exact Hheld |]. split; [exact Hi |].
  split; [lia |]. split; [exact Hmheld | reflexivity].
Qed.

Lemma motor_reset_calm (m : MotorHierarchy) : motor_calm m -> motor_calm (reset m).
Proof.
  intros (Hfour & Hexec & Hinter & Htwelve & Hmotor & Hmuscle).
  unfold motor_calm, reset. cbn [executive_neurons coordination_interneurons
                                 motor_neurons muscle_activation].
  rewrite !length_map.
  split; [exact Hfour |]. split; [| split; [| split; [exact Htwelve | split; [| reflexivity]]]].
  - apply Forall_map.
    apply (Forall_impl _ (P := fun n => held_below 29 0.01 (Neuron.pyr_lif n)));
      [| exact Hexec].
    intros n Hn. cbn. apply reset_held; [lra | lra | exact Hn].
  - apply Forall_map.
    apply (Forall_impl _ (P := fun n => held_below 0 0.01 (Neuron.fast_lif n) /\
                                        0 <= Neuron.adaptation_current n));
      [| exact Hinter].
    intros n [Hn Ha]. cbn. split; [apply reset_held; [lra | lra | exact Hn] | exact Ha].
  - apply Forall_map.
    apply (Forall_impl _ (P := fun n => held_below 29 0.01 (Neuron.pyr_lif n)));
      [| exact Hmotor].
    intros n Hn. cbn. apply reset_held; [lra | lra | exact Hn].
Qed.

Lemma motor_run_calm (uses : list use) :
  Forall gentle uses ->
  forall m : MotorHierarchy, motor_calm m ->
  exists m', run m uses = Some m' /\ motor_calm m'.
Proof.
  induction 1 as [| u uses Hu _ IH]; intros m Hm.
  - exists m. split; [reflexivity | exact Hm].
  - destruct u as [command feedback |]; cbn [run].
    + destruct Hu as [Hnorm Hfb].
      destruct (@execute_calm m command feedback Hnorm Hfb Hm) as (m1 & Hrun & Hm1).
      rewrite Hrun. apply IH. exact Hm1.
    + apply IH. apply motor_reset_calm. exact Hm.
Qed.

(** X20.  A movement command no longer than 1.9 activates no muscle.  The
    executive neurons get at most [1.9 * 15] times a tuning that is at
    most 1, the motor neurons at most [25] when no feedback entry is
    below [-5]; both stay under the threshold, and the interneurons in
    between get nothing.  From the constructor, after any sequence of such
    [execute_movement_command] calls and resets, no call raises,
    [muscle_activation] is twelve zeros and no neuron of the three layers
    has fired. *)
Theorem gentle_commands_activate_no_muscle (uses : list use) :
  Forall gentle uses ->
  exists m : MotorHierarchy,
    run init uses = Some m /\
    muscle_activation m = repeat 0 12 /\
    pyramidal_spikes (executive_neurons m) = repeat 0 (List.length (executive_neurons m)) /\
    mean (interneuron_spikes (coordination_interneurons m)) = 0 /\
    pyramidal_spikes (motor_neurons m) = repeat 0 12.
Proof.
  intros Huses.
  destruct (motor_run_calm Huses motor_init_calm)
    as (m & Hrun & Hfour & Hexec & Hinter & Htwelve & Hmotor & Hmuscle).
  exists m. split; [exact Hrun |]. split; [exact Hmuscle |].
  split; [exact (spikes_zero Hexec) |].
  split; [exact (interneurons_silent Hinter) |].
  rewrite (spikes_zero Hmotor), Htwelve. reflexivity.
Qed.

Lemma gentle_commands_activate_no_muscle_witness :
  exists m : MotorHierarchy,
    run init [Execute (1, 0) [0; 0; 0]; Reset; Execute (0, 0) []] = Some m /\
    muscle_activation m = repeat 0 12.
Proof.
  assert (Huses : Forall gentle [Execute (1, 0) [0; 0; 0]; Reset; Execute (0, 0) []]).
  { constructor; [| constructor; [exact I | constructor; [| constructor]]].
    - split; [| repeat constructor; lra].
      unfold Geometry.norm. cbn [fst snd].
      replace (1 * 1 + 0 * 0) with 1 by ring. rewrite sqrt_1. lra.
    - split; [| constructor].
      unfold Geometry.norm. cbn [fst snd].
      replace (0 * 0 + 0 * 0) with 0 by ring. rewrite sqrt_0. lra. }
  destruct (gentle_commands_activate_no_muscle Huses) as (m & Hrun & Hmuscle & _).
  exists m. split; [exact Hrun | exact Hmuscle].
Defined.

End MotorFacts.

(** ** Energy budgets *)

Module MetabolismFacts.
Import Numeric NumericFacts Metabolism.

Lemma float_mod_range (x m : R) : 0 < m -> 0 <= float_mod x m < m.
Proof.
  intros Hm. unfold float_mod. destruct (base_Int_part (x / m)) as [Hlo Hhi].
  assert (Hx : m * (x / m) = x) by (field; lra).
  set (k := IZR (Int_part (x / m))) in *. set (y := x / m) in *.
  assert (H1 : m * k <= m * y) by nra.
  assert (H2 : m * y - m * k < m) by nra.
  split; lra.
Qed.

Lemma clip_below (a bound : R) : a <= bound -> bound <= 1.5 -> clip a 0 1.5 <= Rmax 0 bound.
Proof.
  intros Ha Hb. unfold clip, Rmin, Rmax.
  destruct (Rle_dec a 0); destruct (Rle_dec 1.5 _); destruct (Rle_dec 0 bound); lra.
Qed.

Lemma update_sound (m : SystemicMetabolism) (dt movement_intensity neural_activity : R) :
  sound m -> 0 <= dt -> 0 <= movement_intensity -> 0 <= neural_activity ->
  let m' := update m dt movement_intensity neural_activity in
  sound m' /\
  glucose_level m' <= Rmax 0 (glucose_level m - 0.0005 * dt) /\
  oxygen_level m' <= Rmax 0 (oxygen_level m - 0.0005 * dt).
Proof.
  intros (Hgc & Hoc & Hgr & Hor & Hf & Hn & Hmv & Hg & Ho & Hl & Hp) Hdt Hmi Hna m'.
  unfold m', update. cbv zeta. rewrite Hgc, Hoc, Hgr, Hor.
  set (neural := 0.9 * neural_activity_level m + 0.1 * neural_activity).
  set (movement := 0.9 * movement_activity_level m + 0.1 * movement_intensity).
  assert (Hneural : 0 <= neural) by (unfold neural; lra).
  assert (Hmovement : 0 <= movement) by (unfold movement; lra).
  set (glucose := glucose_level m - 0.001 * (1 + (neural + movement)) * dt
                  + 0.0005 * (1 - 0.5 * fatigue_level m) * dt).
  set (oxygen := oxygen_level m - 0.0015 * (1 + (neural + movement)) * dt
                 + 0.001 * (1 - 0.5 * fatigue_level m) * dt).
  assert (Hact : 0 <= (neural + movement) * dt) by (apply Rmult_le_pos; lra).
  assert (Hfat : 0 <= fatigue_level m * dt) by (apply Rmult_le_pos; lra).
  assert (Hglucose : glucose <= glucose_level m - 0.0005 * dt) by (unfold glucose; nra).
  assert (Hoxygen : oxygen <= oxygen_level m - 0.0005 * dt) by (unfold oxygen; nra).
  pose proof (@float_mod_range (circadian_phase m + dt / 10000) (2 * PI)
                ltac:(pose proof PI_RGT_0; lra)) as Hphase.
  pose proof (exp_pos (- dt / 100)) as Hexp.
  unfold sound. cbn.
  split; [| split; [apply clip_below; lra | apply clip_below; lra]].
  split; [reflexivity |]. split; [reflexivity |]. split; [reflexivity |].
  split; [reflexivity |].
  split; [apply clip_bounds; lra |].
  split; [exact Hneural |]. split; [exact Hmovement |].
  split; [apply clip_bounds; lra |]. split; [apply clip_bounds; lra |].
  split; [| exact Hphase].
  apply Rmult_le_pos; [| lra].
  assert (0 <= (neural + movement) * 0.01 * dt) by nra. lra.
Qed.

Lemma elapsed_nonneg (calls : list (R * R * R)) : Forall forward calls -> 0 <= elapsed calls.
Proof.
  induction 1 as [| c calls (Hdt & _) _ IH]; unfold elapsed in *; cbn; lra.
Qed.

Lemma update_all_sound (calls : list (R * R * R)) :
  Forall forward calls ->
  forall m : SystemicMetabolism, sound m ->
  sound (update_all m calls) /\
  glucose_level (update_all m calls) <= Rmax 0 (glucose_level m - 0.0005 * elapsed calls) /\
  oxygen_level (update_all m calls) <= Rmax 0 (oxygen_level m - 0.0005 * elapsed calls).
Proof.
  induction 1 as [| c calls Hc Hcalls IH]; intros m Hm.
  - unfold update_all, elapsed. cbn. split; [exact Hm |].
    destruct Hm as (_ & _ & _ & _ & _ & _ & _ & Hg & Ho & _).
    unfold Rmax. split; destruct (Rle_dec _ _); lra.
  - pose proof (elapsed_nonneg Hcalls) as He.
    destruct Hc as (Hdt & Hmi & Hna).
    destruct (@update_sound m (fst (fst c)) (snd (fst c)) (snd c) Hm Hdt Hmi Hna)
      as (Hm1 & Hg1 & Ho1).
    destruct (IH _ Hm1) as (Hm2 & Hg2 & Ho2).
    change (update_all m (c :: calls))
      with (update_all (update m (fst (fst c)) (snd (fst c)) (snd c)) calls).
    set (m1 := update m (fst (fst c)) (snd (fst c)) (snd c)) in *.
    set (mf := update_all m1 calls) in *.
    split; [exact Hm2 |].
    assert (HE : elapsed (c :: calls) = fst (fst c) + elapsed calls) by reflexivity.
    rewrite HE. set (E := elapsed calls) in *.
    unfold Rmax in *.
    split;
      repeat match goal with
             | H : context [Rle_dec ?a ?b] |- _ => destruct (Rle_dec a b)
             | |- context [Rle_dec ?a ?b] => destruct (Rle_dec a b)
             end; lra.
Qed.

Lemma init_sound : sound init.
Proof.
  unfold sound, init. cbn. pose proof PI_RGT_0. repeat split; lra.
Qed.

(** X21.  The reserves of the organism only fall.  Consumption
    ([0.001] and [0.0015] per unit of time, more under activity) always
    exceeds recovery ([0.0005] and [0.001], less under fatigue), so from
    the constructor, after any [update] calls with non-negative [dt] and
    activities, glucose and oxygen are at most [1 - 0.0005 * t] where [t]
    is the time elapsed, and exactly 0 once [t >= 2000]; one more call
    never raises either.  Throughout, both stay in [[0, 1.5]], fatigue in
    [[0, 1]], lactate is non-negative and the circadian phase is in
    [[0, 2 pi)]. *)
Theorem reserves_only_fall (calls : list (R * R * R)) :
  Forall forward calls ->
  let m := update_all init calls in
  0 <= glucose_level m <= Rmax 0 (1 - 0.0005 * elapsed calls) /\
  0 <= oxygen_level m <= Rmax 0 (1 - 0.0005 * elapsed calls) /\
  (2000 <= elapsed calls -> glucose_level m = 0 /\ oxygen_level m = 0) /\
  (forall call : R * R * R, forward call ->
     glucose_level (update_with m call) <= glucose_level m /\
     oxygen_level (update_with m call) <= oxygen_level m) /\
  0 <= fatigue_level m <= 1 /\
  0 <= lactate_level m /\
  0 <= circadian_phase m < 2 * PI.
Proof.
  intros Hcalls m.
  destruct (update_all_sound Hcalls init_sound) as (Hm & Hg & Ho).
  fold m in Hm, Hg, Ho. cbn [glucose_level oxygen_level init] in Hg, Ho.
  pose proof Hm as (_ & _ & _ & _ & Hf & _ & _ & Hg0 & Ho0 & Hl & Hp).
  split; [lra |]. split; [lra |].
  split.
  { intros He. unfold Rmax in Hg, Ho.
    destruct (Rle_dec 0 (1 - 0.0005 * elapsed calls)); lra. }
  split; [| tauto].
  intros call (Hdt & Hmi & Hna).
  destruct (@update_sound m (fst (fst call)) (snd (fst call)) (snd call) Hm Hdt Hmi Hna)
    as (_ & Hg1 & Ho1).
  unfold update_with. unfold Rmax in Hg1, Ho1.
  split.
  - destruct (Rle_dec 0 (glucose_level m - 0.0005 * fst (fst call))); lra.
  - destruct (Rle_dec 0 (oxygen_level m - 0.0005 * fst (fst call))); lra.
Qed.

Lemma reserves_only_fall_witness :
  glucose_level (update_all init [(1000, 0, 0); (1000, 0.5, 0.2)]) = 0.
Proof.
  assert (Hcalls : Forall forward [(1000, 0, 0); (1000, 0.5, 0.2)]).
  { repeat constructor; cbn; lra. }
  refine (proj1 (proj1 (proj2 (proj2 (reserves_only_fall Hcalls))) _)).
  unfold elapsed. cbn. lra.
Defined.

Lemma update_all_rates (calls : list (R * R * R)) (m : SystemicMetabolism) :
  glucose_consumption_rate (update_all m calls) = glucose_consumption_rate m /\
  oxygen_consumption_rate (update_all m calls) = oxygen_consumption_rate m /\
  glucose_recovery_rate (update_all m calls) = glucose_recovery_rate m /\
  oxygen_recovery_rate (update_all m calls) = oxygen_recovery_rate m.
Proof.
  revert m. induction calls as [| c calls IH]; intros m; [repeat split |].
  unfold update_all in *. cbn [fold_left].
  destruct (IH (update_with m c)) as (H1 & H2 & H3 & H4).
  rewrite H1, H2, H3, H4. repeat split.
Qed.

(** X22.  [SystemicMetabolism.reset] restores the three levels, the
    fatigue and the circadian phase, but not the two running averages of
    activity: after any [update] calls, the reset instance is the
    constructed one with [neural_activity_level] and
    [movement_activity_level] as the calls left them, and it equals a
    fresh instance exactly when both are zero. *)
Theorem reset_keeps_the_activity_levels (calls : list (R * R * R)) :
  let m := update_all init calls in
  reset m =
    {| glucose_level := 1;
       oxygen_level := 1;
       lactate_level := 0.1;
       glucose_consumption_rate := 0.001;
       oxygen_consumption_rate := 0.0015;
       glucose_recovery_rate := 0.0005;
       oxygen_recovery_rate := 0.001;
       neural_activity_level := neural_activity_level m;
       movement_activity_level := movement_activity_level m;
       circadian_phase := 0;
       fatigue_level := 0 |} /\
  (reset m = init <-> neural_activity_level m = 0 /\ movement_activity_level m = 0).
Proof.
  intros m. destruct (update_all_rates calls init) as (H1 & H2 & H3 & H4).
  fold m in H1, H2, H3, H4. cbn in H1, H2, H3, H4.
  assert (Hreset : reset m =
            {| glucose_level := 1; oxygen_level := 1; lactate_level := 0.1;
               glucose_consumption_rate := 0.001; oxygen_consumption_rate := 0.0015;
               glucose_recovery_rate := 0.0005; oxygen_recovery_rate := 0.001;
               neural_activity_level := neural_activity_level m;
               movement_activity_level := movement_activity_level m;
               circadian_phase := 0; fatigue_level := 0 |}).
  { unfold reset. rewrite H1, H2, H3, H4. reflexivity. }
  split; [exact Hreset |]. rewrite Hreset. unfold init. split.
  - intros Heq. injection Heq as Hn Hmv. split; assumption.
  - intros [Hn Hmv]. rewrite Hn, Hmv. reflexivity.
Qed.

Lemma neuron_perform_all_bounds (cs : list neuron_call) (m : NeuronMetabolism) :
  0 <= max_atp m -> 0 <= atp_level m <= max_atp m ->
  0.1 <= excitability_modifier m <= 2 ->
  let m' := neuron_perform_all m cs in
  0 <= atp_level m' <= max_atp m /\ 0.1 <= excitability_modifier m' <= 2 /\
  max_atp m' = max_atp m /\ baseline_atp m' = baseline_atp m.
Proof.
  revert m. induction cs as [| c cs IH]; intros m Hmax Hatp Hex; [cbn; tauto |].
  unfold neuron_perform_all in *. cbn [fold_left].
  assert (Hstep : 0 <= atp_level (neuron_perform m c) <= max_atp m /\
                  0.1 <= excitability_modifier (neuron_perform m c) <= 2 /\
                  max_atp (neuron_perform m c) = max_atp m /\
                  baseline_atp (neuron_perform m c) = baseline_atp m).
  { destruct c as [spiked rate dt | dt o g |]; cbn.
    - split; [apply clip_bounds; exact Hmax | tauto].
    - split; [apply clip_bounds; exact Hmax | tauto].
    - split; [exact Hatp |]. split; [apply clip_bounds; lra | tauto]. }
  destruct Hstep as (Ha & He & Hm1 & Hb1).
  specialize (IH (neuron_perform m c)). rewrite Hm1, Hb1 in IH.
  apply IH; assumption.
Qed.

(** X23.  The ATP level of a neuron built with
    [0 <= baseline_atp <= max_atp] stays in [[0, max_atp]] under any calls,
    whatever their arguments.  Its excitability is not monotone in the
    ATP level: with a positive baseline and ATP at most three baselines
    the clamp to [[0.1, 2]] never cuts, the value is
    [0.3 + 1.4 * atp / baseline] below half the baseline and
    [0.5 + 0.5 * atp / baseline] from there on, so it falls from almost 1
    to 0.75 when the level reaches half the baseline, and every level in
    [[0.33, 0.5)] baselines gives more than the level of exactly one
    half. *)
Theorem excitability_jumps_at_half_baseline :
  (forall (baseline max : R) (cs : list neuron_call),
     0 <= baseline <= max ->
     0 <= atp_level (neuron_perform_all (neuron_init baseline max) cs) <= max) /\
  (forall m : NeuronMetabolism,
     0 < baseline_atp m -> 0 <= atp_level m <= 3 * baseline_atp m ->
     snd (affects_excitability m) = excitability m /\
     (atp_level m < baseline_atp m / 2 ->
        excitability m = 0.3 + 1.4 * atp_level m / baseline_atp m /\
        0.3 <= excitability m < 1) /\
     (baseline_atp m / 2 <= atp_level m ->
        excitability m = 0.5 + 0.5 * atp_level m / baseline_atp m /\
        0.75 <= excitability m <= 2) /\
     snd (affects_excitability (with_atp m (baseline_atp m / 2))) = 0.75 /\
     (0.33 * baseline_atp m <= atp_level m < baseline_atp m / 2 ->
        snd (affects_excitability m)
        > snd (affects_excitability (with_atp m (baseline_atp m / 2))))).
Proof.
  split.
  - intros baseline max cs Hb.
    destruct (@neuron_perform_all_bounds cs (neuron_init baseline max)) as (H & _);
      cbn; try lra. exact H.
  - intros m Hb Hatp.
    set (b := baseline_atp m) in *. set (a := atp_level m) in *.
    assert (Hab : a / b * b = a) by (field; lra).
    assert (H14 : 1.4 * a / b = 1.4 * (a / b)) by (unfold Rdiv; ring).
    assert (H05 : 0.5 * a / b = 0.5 * (a / b)) by (unfold Rdiv; ring).
    assert (E1 : a / (b * 0.5) = 2 * (a / b)).
    { unfold Rdiv. rewrite Rinv_mult. replace (/ 0.5) with 2 by lra. ring. }
    assert (E2 : (a - b) / b = a / b - 1).
    { unfold Rdiv. rewrite Rmult_minus_distr_r, Rinv_r by lra. reflexivity. }
    assert (E3 : (b / 2 - b) / b = - (1 / 2)) by (field; lra).
    set (q := a / b) in *.
    assert (Hq : 0 <= q <= 3) by (split; nra).
    assert (Hlow : a < b / 2 -> q < 1 / 2) by (intros; nra).
    assert (Hhigh : b / 2 <= a -> 1 / 2 <= q) by (intros; nra).
    assert (Hval : excitability m =
                   if Rlt_dec a (b * 0.5) then 0.3 + 1.4 * a / b else 0.5 + 0.5 * a / b).
    { unfold excitability. fold a b. rewrite E1, E2, H14, H05.
      destruct (Rlt_dec a (b * 0.5)); lra. }
    assert (Hhalf : snd (affects_excitability (with_atp m (b / 2))) = 0.75).
    { unfold affects_excitability, excitability, with_atp. cbn. fold b.
      destruct (Rlt_dec (b / 2) (b * 0.5)) as [Habs | _]; [lra |].
      rewrite E3. replace (1 + 0.5 * - (1 / 2)) with 0.75 by lra. apply clip_id. lra. }
    assert (Hrange : 0.3 <= excitability m <= 2).
    { rewrite Hval, H14, H05.
      destruct (Rlt_dec a (b * 0.5)) as [Hlt | Hge]; lra. }
    assert (Hclip : snd (affects_excitability m) = excitability m).
    { unfold affects_excitability. cbn [snd]. apply clip_id. lra. }
    split; [exact Hclip |].
    split.
    { intros Hlt. rewrite Hval.
      destruct (Rlt_dec a (b * 0.5)) as [_ | Hge]; [| lra].
      split; [reflexivity |]. specialize (Hlow Hlt). rewrite H14. lra. }
    split.
    { intros Hge. rewrite Hval.
      destruct (Rlt_dec a (b * 0.5)) as [Hlt | _]; [lra |].
      split; [reflexivity |]. specialize (Hhigh Hge). rewrite H05. lra. }
    split; [exact Hhalf |].
    intros [Hlo Hlt]. rewrite Hhalf, Hclip, Hval.
    destruct (Rlt_dec a (b * 0.5)) as [_ | Hge]; [| lra].
    assert (Hq33 : 0.33 <= q) by nra.
    rewrite H14. lra.
Qed.

Lemma excitability_jumps_at_half_baseline_witness :
  snd (affects_excitability (with_atp neuron_default 0.4))
  > snd (affects_excitability (with_atp neuron_default 0.5)).
Proof.
  pose proof (proj2 excitability_jumps_at_half_baseline (with_atp neuron_default 0.4)) as H.
  cbn [baseline_atp atp_level with_atp neuron_default neuron_init] in H.
  destruct (H ltac:(lra) ltac:(lra)) as (_ & _ & _ & _ & Hjump).
  replace 0.5 with (1 / 2) by lra.
  apply Hjump. lra.
Defined.

End MetabolismFacts.

(** ** Astrocytes and the glial network *)

Module GliaFacts.
Import Numeric NumericFacts Glia.








Lemma in_range (g i : Z) : In i (Retina.range g) -> (0 <= i < g)%Z.
Proof.
  unfold Retina.range. intros Hin. apply in_map_iff in Hin.
  destruct Hin as (k & <- & Hk). apply in_seq in Hk. lia.
Qed.

Lemma cell_centre_inside (i g : Z) (w : R) :
  (0 <= i < g)%Z -> 0 < w -> 0 < (IZR i + 0.5) * w / IZR g < w.
Proof.
  intros Hi Hw.
  assert (HI : 0 <= IZR i) by (apply IZR_le; lia).
  assert (HG : IZR i + 1 <= IZR g).
  { rewrite <- plus_IZR. apply IZR_le. lia. }
  assert (Hr : 0 < / IZR g) by (apply Rinv_0_lt_compat; lra).
  assert (Hone : IZR g * / IZR g = 1) by (apply Rinv_r; lra).
  set (G := IZR g) in *. set (I := IZR i) in *. set (r := / G) in *.
  unfold Rdiv. fold r.
  assert (Ht : 0 < (I + 0.5) * r < 1) by (split; nra).
  replace ((I + 0.5) * w * r) with ((I + 0.5) * r * w) by ring.
  split; nra.
Qed.

Lemma square_grid_length (num : Z) (size : R * R) :
  (0 <= num)%Z ->
  exists n : GlialNetwork,
    init num size = Some n /\
    List.length (astrocytes n) = Z.to_nat (Z.sqrt num * Z.sqrt num).
Proof.
  intros Hnum. unfold init.
  assert (Hneg : (num <? 0)%Z = false) by (apply Z.ltb_ge; lia).
  rewrite Hneg. cbv zeta. eexists. split; [reflexivity |].
  cbn [astrocytes]. pose proof (Z.sqrt_nonneg num) as Hs.
  rewrite RetinaFacts.length_grid. unfold Retina.range.
  rewrite length_map, length_seq, Z2Nat.inj_mul by lia. reflexivity.
Qed.

(** X25.  A [GlialNetwork] is a square grid: asked for [num >= 0]
    astrocytes it builds [isqrt(num) ** 2] of them, never more than [num]
    and exactly [num] only for a perfect square (the 24 the brain asks for
    are 16), while [num_astrocytes] keeps the number asked for.  Each
    astrocyte has the radius [brain_size[0] / (2 * isqrt(num))] and lies
    strictly inside a brain of positive size.  A negative [num] raises. *)
Theorem glial_network_is_a_square_grid (num : Z) (size : R * R) :
  ((0 <= num)%Z ->
   exists n : GlialNetwork,
     init num size = Some n /\
     num_astrocytes n = num /\
     List.length (astrocytes n) = Z.to_nat (Z.sqrt num * Z.sqrt num) /\
     (Z.of_nat (List.length (astrocytes n)) <= num)%Z /\
     (Z.of_nat (List.length (astrocytes n)) = num <->
      exists k : Z, (0 <= k)%Z /\ num = (k * k)%Z) /\
     Forall (fun a =>
               influence_radius a = fst size / (2 * IZR (Z.sqrt num)) /\
               (0 < fst size -> 0 < fst (position a) < fst size) /\
               (0 < snd size -> 0 < snd (position a) < snd size))
            (astrocytes n)) /\
  ((num < 0)%Z -> init num size = None).
Proof.
  split.
  - intros Hnum. unfold init.
    assert (Hneg : (num <? 0)%Z = false) by (apply Z.ltb_ge; lia).
    rewrite Hneg. cbv zeta. eexists. split; [reflexivity |].
    cbn [num_astrocytes astrocytes].
    pose proof (Z.sqrt_spec num Hnum) as Hspec. cbv zeta in Hspec.
    pose proof (Z.sqrt_nonneg num) as Hs.
    set (g := Z.sqrt num) in *.
    assert (Hlen : List.length
                     (flat_map (fun i => map (fun j => astrocyte_at size g i j)
                                             (Retina.range g)) (Retina.range g))
                   = Z.to_nat (g * g)).
    { rewrite RetinaFacts.length_grid. unfold Retina.range.
      rewrite length_map, length_seq, Z2Nat.inj_mul by lia. reflexivity. }
    split; [reflexivity |]. split; [exact Hlen |]. rewrite Hlen.
    rewrite Z2Nat.id by nia.
    split; [lia |]. split.
    + split.
      * intros Heq. exists g. split; [exact Hs | lia].
      * intros (k & Hk & ->). unfold g. rewrite Z.sqrt_square by exact Hk. reflexivity.
    + apply Forall_forall. intros a Hin. apply in_flat_map in Hin.
      destruct Hin as (i & Hi & Hin). apply in_map_iff in Hin.
      destruct Hin as (j & <- & Hj). apply in_range in Hi. apply in_range in Hj.
      unfold astrocyte_at, astrocyte_init. cbn.
      split; [reflexivity |].
      split; intros Hpos; apply cell_centre_inside; assumption.
  - intros Hnum. unfold init.
    assert (Hneg : (num <? 0)%Z = true) by (apply Z.ltb_lt; lia).
    rewrite Hneg. reflexivity.
Qed.

Lemma glial_network_is_a_square_grid_witness :
  exists n : GlialNetwork,
    init 24 (400, 400) = Some n /\ num_astrocytes n = 24%Z /\
    List.length (astrocytes n) = 16%nat.
Proof.
  destruct (proj1 (glial_network_is_a_square_grid 24 (400, 400)) ltac:(lia))
    as (n & Hinit & Hnum & Hlen & _).
  exists n. split; [exact Hinit |]. split; [exact Hnum |]. rewrite Hlen. reflexivity.
Defined.

End GliaFacts.

(** ** The subsystems of the brain together *)

Module FrogFacts.
Import Numeric NumericFacts Frog.

Lemma respond_each_without_positions (l : list Glia.Astrocyte) (dt0 : R) :
  Glia.respond_each l [] [] dt0 = Some l.
Proof.
  induction l as [| a l IH]; [reflexivity |].
  cbn [Glia.respond_each]. unfold Glia.respond_to_neural_activity at 1.
  cbn [List.length Nat.eqb]. rewrite IH. reflexivity.
Qed.

(** A network whose astrocytes have released nothing is not changed by
    [update({}, [], dt)]. *)
Lemma glia_update_idle (n : Glia.GlialNetwork) (dt0 : R) :
  Forall (fun a => Glia.gliotransmitter_release a = 0) (Glia.astrocytes n) ->
  Glia.average_gliotransmitter n = 0 ->
  Glia.brain_state n = "resting"%string ->
  Glia.update n [] [] dt0 = Some n.
Proof.
  intros Hall Havg Hstate. unfold Glia.update.
  rewrite respond_each_without_positions. cbv zeta.
  assert (Hmean : mean (map Glia.gliotransmitter_release (Glia.astrocytes n)) = 0).
  { apply TectumProcessFacts.mean_zero. apply Forall_map. exact Hall. }
  rewrite Hmean.
  destruct (Rgt_dec 0 0.5) as [Habs | _]; [lra |].
  destruct (Rgt_dec 0 0.2) as [Habs | _]; [lra |].
  destruct n as [num size l avg state]. cbn in *. subst avg state. reflexivity.
Qed.

Lemma constructed_glia (n : Glia.GlialNetwork) (num : Z) (size : R * R) :
  Glia.init num size = Some n ->
  Forall (fun a => Glia.gliotransmitter_release a = 0) (Glia.astrocytes n) /\
  Glia.average_gliotransmitter n = 0 /\
  Glia.brain_state n = "resting"%string.
Proof.
  unfold Glia.init. destruct (num <? 0)%Z; [discriminate |].
  intros H. injection H as <-. cbn.
  split; [| split; reflexivity].
  apply Forall_forall. intros a Hin. apply in_flat_map in Hin.
  destruct Hin as (i & _ & Hin). apply in_map_iff in Hin.
  destruct Hin as (j & <- & _). reflexivity.
Qed.

Lemma mean_of_zeros (k : nat) : mean (repeat 0 k) = 0.
Proof.
  apply TectumProcessFacts.mean_zero. apply TectumProcessFacts.Forall_repeat. reflexivity.
Qed.

Lemma norm_of_origin : Geometry.norm (0, 0) = 0.
Proof.
  unfold Geometry.norm. cbn [fst snd].
  replace (0 * 0 + 0 * 0) with 0 by ring. apply sqrt_0.
Qed.

Lemma tick_dormant (glia : Glia.GlialNetwork) (s : Subsystems) (i : stimulus) :
  Forall (fun a => Glia.gliotransmitter_release a = 0) (Glia.astrocytes glia) ->
  Glia.average_gliotransmitter glia = 0 ->
  Glia.brain_state glia = "resting"%string ->
  dormant glia s ->
  exists s' : Subsystems,
    tick s i = Some (s', silent) /\ dormant glia s' /\
    metabolism s' = Metabolism.update (metabolism s) (dt i) 0 0.
Proof.
  intros Hall Havg Hstate (Hretina & Htectum & Hmotor & Hglia & Hneuron).
  destruct (@RetinaFacts.process_visual_input_steady 10 (visual_system s) (visual_scene i)
              ltac:(lia) Hretina) as (r & Hr & Hretina').
  pose proof Hretina' as (_ & _ & _ & Hout).
  change (Z.to_nat (10 * 10)) with 100%nat in Hout.
  assert (Hweak : TectumProcess.mean_visual_input (repeat 0 100) <= 2.9).
  { unfold TectumProcess.mean_visual_input. rewrite repeat_length.
    cbn [Nat.ltb Nat.leb]. rewrite mean_of_zeros. lra. }
  destruct (@TectumProcessFacts.tectum_process_calm 16 (tectum s) (repeat 0 100) (motion_vectors i)
              ltac:(lia) Hweak Htectum) as (t & Ht & Htectum').
  pose proof (TectumProcessFacts.calm_command Htectum') as Hcommand.
  assert (Hgentle : Geometry.norm (0, 0) <= 1.9) by (rewrite norm_of_origin; lra).
  assert (Hfeedback : Forall (fun x => -5 <= x) (repeat 0 3))
    by (apply TectumProcessFacts.Forall_repeat; lra).
  destruct (@MotorFacts.execute_calm (motor_hierarchy s) (0, 0) (repeat 0 3)
              Hgentle Hfeedback Hmotor) as (m & Hm & Hmotor').
  pose proof Hmotor' as (_ & _ & _ & _ & _ & Hmuscle).
  assert (Hactivity : mean (map Rabs (repeat 0 100)) = 0).
  { rewrite map_repeat, Rabs_R0. apply mean_of_zeros. }
  unfold tick, process_sensory_input. rewrite Hr. cbn [option_map].
  rewrite Hout. unfold process_motion. cbn [tectum with_visual_system].
  rewrite Ht. cbn [option_map]. rewrite Hcommand.
  unfold generate_motor_output. cbn [motor_hierarchy with_tectum with_visual_system].
  rewrite Hm. cbn [option_map]. cbv zeta.
  rewrite repeat_length. cbn [Nat.ltb Nat.leb]. rewrite Hactivity, norm_of_origin.
  replace (0 / 2) with 0 by lra.
  cbn [glial_network with_metabolism with_motor_hierarchy with_tectum with_visual_system].
  rewrite Hglia, (@glia_update_idle glia (dt i) Hall Havg Hstate), Hmuscle.
  eexists. split; [reflexivity |].
  unfold dormant. cbn. split; [| reflexivity].
  split; [exact Hretina' |]. split; [exact Htectum' |]. split; [exact Hmotor' |].
  split; [reflexivity | exact Hneuron].
Qed.

Lemma run_dormant (glia : Glia.GlialNetwork) (stimuli : list stimulus) :
  Forall (fun a => Glia.gliotransmitter_release a = 0) (Glia.astrocytes glia) ->
  Glia.average_gliotransmitter glia = 0 ->
  Glia.brain_state glia = "resting"%string ->
  forall s : Subsystems, dormant glia s ->
  exists s' : Subsystems,
    run s stimuli = Some (s', map (fun _ => silent) stimuli) /\ dormant glia s' /\
    metabolism s' =
      Metabolism.update_all (metabolism s) (map (fun i => (dt i, 0, 0)) stimuli).
Proof.
  intros Hall Havg Hstate. induction stimuli as [| i rest IH]; intros s Hs.
  - exists s. split; [reflexivity |]. split; [exact Hs | reflexivity].
  - destruct (tick_dormant i Hall Havg Hstate Hs) as (s1 & Htick & Hs1 & Hm1).
    destruct (IH s1 Hs1) as (s2 & Hrun & Hs2 & Hm2).
    exists s2. cbn [run map]. rewrite Htick, Hrun. cbn [option_map fst snd].
    split; [reflexivity |]. split; [exact Hs2 |].
    rewrite Hm2, Hm1. reflexivity.
Qed.

(** X26.  The brain commands no movement.  In the subsystems that
    [BioFrogBrain.__init__] builds, whatever the size of the space and
    the state of the random generator, and for any sequence of [update]
    calls with any scenes, motion vectors and time steps: no subsystem
    raises; every call finds 100 zeros on the retina, a neural activity
    of 0, the movement command and velocity [(0.0, 0.0)] and twelve
    inactive muscles; the glial network, which is told of no neuron, is
    still the constructed one, with its 16 astrocytes at rest; and the
    metabolism is the one of an organism that never moved and never saw:
    the result of [update(dt, 0, 0)] for each call. *)
Theorem brain_subsystems_stay_silent (space_size : Z * Z) (g : rng) (stimuli : list stimulus) :
  exists (s0 s : Subsystems) (g' : rng),
    built space_size g = Some (s0, g') /\
    run s0 stimuli = Some (s, map (fun _ => silent) stimuli) /\
    glial_network s = glial_network s0 /\
    List.length (Glia.astrocytes (glial_network s)) = 16%nat /\
    Glia.brain_state (glial_network s) = "resting"%string /\
    metabolism s =
      Metabolism.update_all Metabolism.init (map (fun i => (dt i, 0, 0)) stimuli).
Proof.
  destruct (@GliaFacts.square_grid_length 24 (400, 400) ltac:(lia))
    as (glia & Hglia & Hlen).
  destruct (@constructed_glia glia 24 (400, 400) Hglia) as (Hall & Havg & Hstate).
  unfold built.
  pose proof (TectumProcessFacts.tectum_init_calm 16 12 g) as Htectum.
  destruct (Tectum.init 16 12 g) as [t g'] eqn:Hinit. cbn [fst] in Htectum.
  rewrite Hglia. cbn [option_map].
  set (s0 := {| visual_system := Retina.init (IZR (fst space_size), IZR (snd space_size)) 10;
                tectum := t; motor_hierarchy := Motor.init; glial_network := glia;
                metabolism := Metabolism.init;
                neuron_metabolism := Metabolism.neuron_default |}).
  assert (Hs0 : dormant glia s0).
  { unfold dormant, s0. cbn.
    split; [apply RetinaFacts.init_steady; lia |].
    split; [exact Htectum |]. split; [exact MotorFacts.motor_init_calm |]. auto. }
  destruct (run_dormant stimuli Hall Havg Hstate Hs0) as (s & Hrun & Hs & Hm).
  exists s0, s, g'. split; [reflexivity |]. split; [exact Hrun |].
  destruct Hs as (_ & _ & _ & Hg & _).
  rewrite Hg. split; [reflexivity |]. split; [rewrite Hlen; reflexivity |].
  split; [exact Hstate |]. exact Hm.
Qed.

End FrogFacts.

(** ** Whole passes of the structural manager *)

Module StructuralMore.
Import Numeric NumericFacts Structural StructuralRuns.

Lemma set_weight_keeps_the_rest (s : Synapse.BiologicalSynapse) (w : R) :
  Synapse.same_except_weight s (Synapse.set_weight s w).
Proof. unfold Synapse.same_except_weight. cbn. repeat split; reflexivity. Qed.

Lemma same_except_weight_refl (s : Synapse.BiologicalSynapse) :
  Synapse.same_except_weight s s.
Proof. unfold Synapse.same_except_weight. repeat split; reflexivity. Qed.

Lemma visit_step (m : StructuralPlasticityManager) (g : rng) (dt : R)
    (s : Synapse.BiologicalSynapse) :
  configured m -> 0 <= dt -> in_range s ->
  let r := visit m g dt s in
  configured (fst (fst r)) /\
  passed s (snd r) /\
  created_synapses_count (fst (fst r))
    = (created_synapses_count m + Z.of_nat (count strong [s]))%Z /\
  cursor (snd (fst r)) = (cursor g + count weak [s])%nat /\
  sample (snd (fst r)) = sample g /\
  (eliminated_synapses_count m <= eliminated_synapses_count (fst (fst r))
   <= eliminated_synapses_count m + Z.of_nat (count weak [s]))%Z.
Proof.
  intros Hconf Hdt [Hlo Hhi] r. unfold r, visit. clear r.
  pose proof Hconf as (Hct & Het & Hcr & Her). rewrite Hct, Het, Hcr, Her.
  unfold count, strong, weak. cbn [filter].
  destruct (Rgt_dec (Synapse.weight s) 0.1) as [Hhigh | Hnothigh].
  - destruct (Rlt_dec (Synapse.weight s) 0.01) as [Habs | _]; [lra |].
    cbv zeta. cbn [fst snd List.length created_synapses_count eliminated_synapses_count
                   with_counts].
    split; [exact Hconf |]. split; [| split; [lia | split; [lia | split; [reflexivity | lia]]]].
    unfold passed. cbn [Synapse.weight Synapse.set_weight].
    assert (Hgrow : 0 <= 0.0001 * Synapse.weight s * dt) by nra.
    split; [apply set_weight_keeps_the_rest |].
    unfold Rmin.
    destruct (Rle_dec _ _); (split; [lra | split; [right; lra | intros; lra]]).
  - destruct (Rlt_dec (Synapse.weight s) 0.01) as [Hlow | Hnotlow].
    + cbv zeta. unfold random.
      destruct (Rlt_dec (sample g (cursor g)) (0.00005 * dt)) as [Hdraw | Hnodraw];
        cbn [fst snd List.length created_synapses_count eliminated_synapses_count
             with_counts cursor sample].
      * split; [exact Hconf |].
        split; [| split; [lia | split; [lia | split; [reflexivity | lia]]]].
        unfold passed. cbn [Synapse.weight Synapse.set_weight].
        split; [apply set_weight_keeps_the_rest |].
        split; [lra | split; [left; reflexivity | intros; reflexivity]].
      * split; [exact Hconf |].
        split; [| split; [lia | split; [lia | split; [reflexivity | lia]]]].
        unfold passed. split; [apply same_except_weight_refl |].
        split; [lra | split; [right; lra | intros H; exact H]].
    + cbn [fst snd List.length].
      split; [exact Hconf |].
      split; [| split; [lia | split; [lia | split; [reflexivity | lia]]]].
      unfold passed. split; [apply same_except_weight_refl |].
      split; [lra | split; [right; lra | intros H; exact H]].
Qed.

Lemma count_cons (p : Synapse.BiologicalSynapse -> bool) (s : Synapse.BiologicalSynapse)
    (l : list Synapse.BiologicalSynapse) :
  count p (s :: l) = (count p [s] + count p l)%nat.
Proof. unfold count. cbn [filter]. destruct (p s); reflexivity. Qed.

Lemma update_structure_pass (synapses : list Synapse.BiologicalSynapse)
    (activity : list R) (dt : R) :
  0 <= dt -> Forall in_range synapses ->
  forall (m : StructuralPlasticityManager) (g : rng),
  configured m ->
  let r := update_structure m g synapses activity dt in
  configured (fst (fst r)) /\
  Forall2 passed synapses (snd r) /\
  created_synapses_count (fst (fst r))
    = (created_synapses_count m + Z.of_nat (count strong synapses))%Z /\
  cursor (snd (fst r)) = (cursor g + count weak synapses)%nat /\
  sample (snd (fst r)) = sample g /\
  (eliminated_synapses_count m <= eliminated_synapses_count (fst (fst r))
   <= eliminated_synapses_count m + Z.of_nat (count weak synapses))%Z.
Proof.
  intros Hdt. induction 1 as [| s rest Hs Hrest IH]; intros m g Hconf.
  - cbn. unfold count. cbn. split; [exact Hconf |]. split; [constructor |].
    split; [lia |]. split; [lia |]. split; [reflexivity | lia].
  - cbn [update_structure].
    pose proof (@visit_step m g dt s Hconf Hdt Hs) as Hv. cbv zeta in Hv.
    destruct (visit m g dt s) as [[m1 g1] s1]. cbn [fst snd] in Hv.
    destruct Hv as (Hconf1 & Hpass & Hc1 & Hg1 & Hs1 & He1).
    specialize (IH m1 g1 Hconf1). cbv zeta in IH.
    destruct (update_structure m1 g1 rest activity dt) as [[m2 g2] rest'].
    cbn [fst snd] in *. destruct IH as (Hconf2 & Hall & Hc2 & Hg2 & Hs2 & He2).
    rewrite (count_cons strong), (count_cons weak).
    split; [exact Hconf2 |]. split; [constructor; assumption |].
    split; [lia |]. split; [lia |]. split; [congruence | lia].
Qed.

(** X27.  One [update_structure] pass with [dt >= 0] over synapses whose
    weights lie between 0 and their maximum creates and removes nothing:
    the list keeps its length, only weights are written, every weight
    stays between 0 and the maximum, is afterwards zero or not smaller
    than before, and a zero weight stays zero.  The counter
    [created_synapses_count] grows by the number of synapses heavier than
    [0.1], on every pass; the random generator is asked exactly once for
    each synapse lighter than [0.01] and for no other, and
    [eliminated_synapses_count] grows by at most that number. *)
Theorem structural_pass_counts_and_keeps_range
    (m : StructuralPlasticityManager) (g : rng)
    (synapses : list Synapse.BiologicalSynapse) (activity : list R) (dt : R) :
  configured m -> 0 <= dt -> Forall in_range synapses ->
  let r := update_structure m g synapses activity dt in
  List.length (snd r) = List.length synapses /\
  Forall2 passed synapses (snd r) /\
  created_synapses_count (fst (fst r))
    = (created_synapses_count m + Z.of_nat (count strong synapses))%Z /\
  cursor (snd (fst r)) = (cursor g + count weak synapses)%nat /\
  sample (snd (fst r)) = sample g /\
  (eliminated_synapses_count m <= eliminated_synapses_count (fst (fst r))
   <= eliminated_synapses_count m + Z.of_nat (count weak synapses))%Z.
Proof.
  intros Hconf Hdt Hall r.
  destruct (@update_structure_pass synapses activity dt Hdt Hall m g Hconf)
    as (_ & Hpass & Hrest).
  fold r in Hpass, Hrest.
  split; [symmetry; exact (Forall2_length Hpass) |]. split; [exact Hpass | exact Hrest].
Qed.

Lemma structural_pass_counts_and_keeps_range_witness :
  created_synapses_count
    (fst (fst (update_structure init (mkRng (fun _ => 0) 0)
                 [Synapse.init 1 (Some 0.5) 0 50 0.01 0;
                  Synapse.init 1 (Some 0.005) 0 50 0.01 0] [] 1)))
  = Z.add 0%Z (Z.of_nat (count strong [Synapse.init 1 (Some 0.5) 0 50 0.01 0;
                                       Synapse.init 1 (Some 0.005) 0 50 0.01 0])).
Proof.
  refine (proj1 (proj2 (proj2
    (@structural_pass_counts_and_keeps_range init (mkRng (fun _ => 0) 0)
       [Synapse.init 1 (Some 0.5) 0 50 0.01 0; Synapse.init 1 (Some 0.005) 0 50 0.01 0]
       [] 1 _ _ _)))).
  - unfold configured, init. cbn. repeat split; reflexivity.
  - lra.
  - repeat constructor; unfold in_range, Synapse.init; cbn;
      destruct (Req_dec_T _ 0); lra.
Defined.

End StructuralMore.

(** ** The reach of intrinsic plasticity *)

Module FunctionalMore.
Import Numeric NumericFacts Functional FunctionalRuns.

Lemma with_threshold_same (n : Neuron.neuron) :
  with_threshold n (Neuron.threshold (Neuron.lif_of n)) = n.
Proof.
  destruct n as [n | n | n].
  - destruct n. reflexivity.
  - destruct n as [l a b s p t]. destruct l. reflexivity.
  - destruct n as [l a t c]. destruct l. reflexivity.
Qed.

Lemma with_threshold_twice (n : Neuron.neuron) (u v : R) :
  with_threshold (with_threshold n u) v = with_threshold n v.
Proof. destruct n; reflexivity. Qed.

Lemma threshold_with_threshold (n : Neuron.neuron) (v : R) :
  Neuron.threshold (Neuron.lif_of (with_threshold n v)) = v.
Proof. destruct n; reflexivity. Qed.

Lemma retuned_refl (n : Neuron.neuron) : retuned n n.
Proof. unfold retuned. symmetry. apply with_threshold_same. Qed.

Lemma retuned_trans (a b c : Neuron.neuron) : retuned a b -> retuned b c -> retuned a c.
Proof.
  unfold retuned. intros Hab Hbc. rewrite Hbc at 1. rewrite Hab at 1.
  apply with_threshold_twice.
Qed.

Lemma retuned_all_refl (l : list Neuron.neuron) : Forall2 retuned l l.
Proof. induction l; constructor; [apply retuned_refl | assumption]. Qed.

Lemma retuned_all_trans (l1 l2 l3 : list Neuron.neuron) :
  Forall2 retuned l1 l2 -> Forall2 retuned l2 l3 -> Forall2 retuned l1 l3.
Proof.
  intros H12. revert l3. induction H12 as [| a b l1 l2 Hab _ IH]; intros l3 H23.
  - inversion H23. constructor.
  - inversion H23 as [| ? c ? l3' Hbc Hrest]; subst.
    constructor; [exact (retuned_trans Hab Hbc) | apply IH; exact Hrest].
Qed.

Lemma set_nth_retuned (l : list Neuron.neuron) (r : nat) (n : Neuron.neuron) (v : R) :
  nth_error l r = Some n -> Forall2 retuned l (set_nth l r (with_threshold n v)).
Proof.
  revert r. induction l as [| x l IH]; intros r Hr; [destruct r; discriminate |].
  destruct r as [| r]; cbn in *.
  - injection Hr as ->. constructor; [| apply retuned_all_refl].
    unfold retuned. rewrite threshold_with_threshold. reflexivity.
  - constructor; [apply retuned_refl | apply IH; exact Hr].
Qed.

Lemma set_nth_elsewhere {A : Type} (l : list A) (r r' : nat) (v : A) :
  r <> r' -> nth_error (set_nth l r v) r' = nth_error l r'.
Proof.
  revert r r'. induction l as [| x l IH]; intros r r' Hne; [destruct r; reflexivity |].
  destruct r as [| r]; destruct r' as [| r']; cbn; try reflexivity; try congruence.
  apply IH. congruence.
Qed.

(** What a routine leaves of the store: the synapses, the neurons up to
    their thresholds, and entirely the neurons outside [refs]. *)
Lemma write_threshold_frame (r : nat) (v : R) (w : world) :
  synapses_of (snd (write_threshold r v w)) = synapses_of w /\
  Forall2 retuned (neurons_of w) (neurons_of (snd (write_threshold r v w))) /\
  (forall r' : nat, r' <> r ->
     nth_error (neurons_of (snd (write_threshold r v w))) r' = nth_error (neurons_of w) r').
Proof.
  unfold write_threshold. destruct (nth_error (neurons_of w) r) as [n |] eqn:Hn; cbn.
  - split; [reflexivity |]. split; [apply set_nth_retuned; exact Hn |].
    intros r' Hne. apply set_nth_elsewhere. congruence.
  - split; [reflexivity |]. split; [apply retuned_all_refl | reflexivity].
Qed.

Lemma intrinsic_step_frame (m : FunctionalPlasticityManager) (dt : R) (r : nat) (w : world) :
  let body := fun r =>
    o <- read_neuron r ;;
    match o with
    | None => ret tt
    | Some neuron =>
        let n := Neuron.lif_of neuron in
        if (0 <? List.length (Neuron.membrane_potential_history n))%nat then
          let recent_activity := recent_spike_rate n in
          if Rgt_dec recent_activity (homeostatic_target m * 1.5) then
            write_threshold r (Neuron.threshold n + homeostatic_learning_rate m * dt)
          else if Rlt_dec recent_activity (homeostatic_target m * 0.5) then
            write_threshold r (Neuron.threshold n - homeostatic_learning_rate m * dt)
          else ret tt
        else ret tt
    end in
  synapses_of (snd (body r w)) = synapses_of w /\
  Forall2 retuned (neurons_of w) (neurons_of (snd (body r w))) /\
  (forall r' : nat, r' <> r ->
     nth_error (neurons_of (snd (body r w))) r' = nth_error (neurons_of w) r').
Proof.
  cbv zeta. unfold bind, read_neuron.
  assert (Hsame : synapses_of w = synapses_of w /\
                  Forall2 retuned (neurons_of w) (neurons_of w) /\
                  (forall r' : nat, r' <> r ->
                     nth_error (neurons_of w) r' = nth_error (neurons_of w) r'))
    by (split; [reflexivity | split; [apply retuned_all_refl | reflexivity]]).
  destruct (nth_error (neurons_of w) r) as [n |]; [| exact Hsame].
  destruct (0 <? List.length _)%nat; [| exact Hsame].
  destruct (Rgt_dec _ _); [apply write_threshold_frame |].
  destruct (Rlt_dec _ _); [apply write_threshold_frame | exact Hsame].
Qed.

(** X28.  [apply_intrinsic_plasticity] writes thresholds and nothing
    else: whatever the manager, the list of neurons and [dt], the
    synapses of the network are as before, every neuron is the neuron it
    was up to its threshold (same class, same potential, same history),
    a neuron that is not in the list is entirely as before, and with the
    flag [intrinsic_plasticity_enabled] off nothing is written at all. *)
Theorem intrinsic_plasticity_writes_only_thresholds
    (m : FunctionalPlasticityManager) (refs : list nat) (dt : R) (w : world) :
  let w' := snd (apply_intrinsic_plasticity m refs dt w) in
  synapses_of w' = synapses_of w /\
  Forall2 retuned (neurons_of w) (neurons_of w') /\
  (forall r : nat, ~ In r refs ->
     nth_error (neurons_of w') r = nth_error (neurons_of w) r) /\
  (intrinsic_plasticity_enabled m = false -> w' = w).
Proof.
  cbv zeta. unfold apply_intrinsic_plasticity.
  destruct (intrinsic_plasticity_enabled m); cbn [negb].
  - split; [| split; [| split; [| discriminate]]];
      revert w; induction refs as [| r refs IH]; intros w; cbn [for_each];
      try (cbn; first [reflexivity | apply retuned_all_refl]).
    + unfold bind at 1.
      match goal with
      | |- context [let '(a, w') := ?body w in _] =>
          pose proof (@intrinsic_step_frame m dt r w) as (Hs & _ & _);
          cbv zeta in Hs; destruct (body w) as [u w1] eqn:Hstep
      end.
      cbn [snd] in Hs. rewrite IH. exact Hs.
    + unfold bind at 1.
      match goal with
      | |- context [let '(a, w') := ?body w in _] =>
          pose proof (@intrinsic_step_frame m dt r w) as (_ & Hn & _);
          cbv zeta in Hn; destruct (body w) as [u w1] eqn:Hstep
      end.
      cbn [snd] in Hn. exact (retuned_all_trans Hn (IH w1)).
    + intros r' Hnot. unfold bind at 1.
      match goal with
      | |- context [let '(a, w') := ?body w in _] =>
          pose proof (@intrinsic_step_frame m dt r w) as (_ & _ & Hother);
          cbv zeta in Hother; destruct (body w) as [u w1] eqn:Hstep
      end.
      cbn [snd] in Hother. rewrite IH by (intros Hin; apply Hnot; right; exact Hin).
      apply Hother. intros ->. apply Hnot. left. reflexivity.
  - cbn. split; [reflexivity |]. split; [apply retuned_all_refl |].
    split; reflexivity.
Qed.

End FunctionalMore.

(** ** The dopamine level a tick reports *)

Module BrainMore.
Import Numeric NumericFacts Brain.

Section WithCollaborators.
Context {C : Collaborators}.

Lemma neuromodulation_levels (b : BioFrogBrain) (reward activity dt0 : R) :
  let b1 := fst (update_neuromodulation b reward activity dt0) in
  dopamine_level b1 =
    clip ((if is_juvenile b then 0.85 else 0.5) + 0.3 * reward
          + 0.2 * exploration_bonus b) 0 1 /\
  exploration_bonus b1 = exploration_bonus b /\
  steps b1 = steps b /\
  dopamine_history b1 = dopamine_history b /\
  is_juvenile b1 = is_juvenile b /\
  subsystems_state b1 = subsystems_state b.
Proof.
  cbv zeta. unfold update_neuromodulation.
  destruct (if Rgt_dec reward 0 then _ else _); cbn;
    (split; [destruct (is_juvenile b); reflexivity | auto 6]).
Qed.

Lemma deque_append_length (q : list R) (x : R) :
  (List.length (deque_append q x) <= 1000)%nat.
Proof. unfold deque_append. apply NeuronMore.last_n_length. Qed.

(** X29.  On a brain without synapses whose exploration bonus is 0 (no
    method of the brain writes it), with a well-formed field, a tick
    returns, and the dopamine level it reports and stores depends on the
    stage and the reward alone: [0.85 + 0.3 * reward] for a juvenile and
    [0.5 + 0.3 * reward] for an adult, clipped to [[0, 1]], whatever the
    scene and the activity.  For a juvenile every reward from 0.5 on gives
    exactly 1.  The level is appended to a history of at most 1000
    entries, [steps] grows by one and the bonus is still 0. *)
Theorem tick_dopamine_follows_stage_and_reward
    (b : BioFrogBrain) (g : rng) (t : tick) :
  synapses b = [] -> Diffusion.ready (neurotransmitter_system b) ->
  exploration_bonus b = 0 ->
  let result := update_with b g t in
  let b' := fst (fst result) in
  let level :=
    clip ((if is_juvenile (advance_age b) then 0.85 else 0.5) + 0.3 * tick_reward t) 0 1 in
  (exists snap : snapshot, snd result = inr snap /\ snap_dopamine snap = level) /\
  dopamine_level b' = level /\
  dopamine_history b' = deque_append (dopamine_history b) level /\
  (List.length (dopamine_history b') <= 1000)%nat /\
  steps b' = (steps b + 1)%Z /\
  exploration_bonus b' = 0 /\
  (is_juvenile (advance_age b) = true -> 0 <= tick_reward t ->
   0.85 <= level <= 1 /\ (0.5 <= tick_reward t -> level = 1)).
Proof.
  intros Hnil Hready Hbonus result b' level.
  assert (Hlevel : is_juvenile (advance_age b) = true -> 0 <= tick_reward t ->
                   0.85 <= level <= 1 /\ (0.5 <= tick_reward t -> level = 1)).
  { intros Hj Hr. unfold level. rewrite Hj. unfold clip, Rmin, Rmax.
    destruct (Rle_dec (0.85 + 0.3 * tick_reward t) 0); [lra |].
    destruct (Rle_dec 1 (0.85 + 0.3 * tick_reward t)); split; try lra; intros; lra. }
  unfold b', result, update_with, update.
  destruct (process_sensory_input _ _) as [s1 retinal].
  destruct (process_motion _ _ _) as [s2 command].
  destruct (generate_motor_output _ _) as [s3 muscles].
  match goal with
  | |- context [update_neuromodulation ?x ?r ?a ?d] =>
      pose proof (BrainFacts.neuromodulation_frame x r a d) as (_ & Hsyn & _);
      pose proof (@BrainFacts.neuromodulation_ready _ x r a d Hready) as (Hok & _);
      pose proof (neuromodulation_levels x r a d) as (Hd & He & Hs & Hh & _);
      destruct (update_neuromodulation x r a d) as [b1 o]
  end.
  cbn [fst snd] in Hsyn, Hok, Hd, He, Hs, Hh. subst o.
  cbn [is_juvenile exploration_bonus steps dopamine_history with_subsystems] in Hd, He, Hs, Hh.
  change (exploration_bonus (advance_age b)) with (exploration_bonus b) in Hd, He.
  change (steps (advance_age b)) with (steps b + 1)%Z in Hs.
  change (dopamine_history (advance_age b)) with (dopamine_history b) in Hh.
  rewrite Hbonus in Hd, He.
  replace ((if is_juvenile (advance_age b) then 0.85 else 0.5) + 0.3 * tick_reward t
           + 0.2 * 0)
    with ((if is_juvenile (advance_age b) then 0.85 else 0.5) + 0.3 * tick_reward t)
    in Hd by ring.
  fold level in Hd.
  assert (Hnil1 : synapses b1 = []) by (rewrite Hsyn; exact Hnil).
  rewrite BrainFacts.plasticity_skipped by (cbn; exact Hnil1).
  cbn [fst snd dopamine_level dopamine_history steps exploration_bonus
       with_histories with_subsystems].
  split; [eexists; split; [reflexivity | cbn; exact Hd] |].
  split; [exact Hd |]. rewrite Hd, Hh.
  split; [reflexivity |]. split; [apply deque_append_length |].
  split; [rewrite Hs; reflexivity |]. split; [exact He | exact Hlevel].
Qed.

End WithCollaborators.

Lemma tick_dopamine_follows_stage_and_reward_witness :
  dopamine_level (fst (fst (update_with sample_brain (mkRng (fun _ => 0) 0) sample_tick)))
  = clip ((if is_juvenile (advance_age sample_brain) then 0.85 else 0.5)
          + 0.3 * tick_reward sample_tick) 0 1.
Proof.
  exact (proj1 (proj2
    (@tick_dopamine_follows_stage_and_reward idle_collaborators sample_brain
       (mkRng (fun _ => 0) 0) sample_tick eq_refl BrainFacts.default_field_ready eq_refl))).
Defined.

End BrainMore.

(** ** What the constructor of the tectum builds *)

Module TectumShapeFacts.
Import Numeric NumericFacts TectumShape.

Lemma init_default_drawn (u : R) : 0 <= u < 1 -> drawn (Synapse.init_default u).
Proof.
  intros Hu. unfold drawn, Synapse.init_default, Synapse.init, uniform. cbn. lra.
Qed.

Lemma synapse_row_shape (n : nat) :
  forall g : rng, samples_in_unit g ->
  List.length (fst (Tectum.synapse_row n g)) = n /\
  Forall drawn (fst (Tectum.synapse_row n g)) /\
  cursor (snd (Tectum.synapse_row n g)) = (cursor g + n)%nat /\
  sample (snd (Tectum.synapse_row n g)) = sample g.
Proof.
  induction n as [| n IH]; intros g Hg.
  - cbn. repeat split; [constructor | lia].
  - cbn [Tectum.synapse_row]. unfold random.
    set (g1 := {| sample := sample g; cursor := S (cursor g) |}).
    assert (Hg1 : samples_in_unit g1) by exact Hg.
    destruct (IH g1 Hg1) as (Hlen & Hall & Hcur & Hsam).
    destruct (Tectum.synapse_row n g1) as [rest g2]. cbn [fst snd List.length] in *.
    split; [lia |]. split; [constructor; [apply init_default_drawn; apply Hg | exact Hall] |].
    split; [rewrite Hcur; cbn; lia | exact Hsam].
Qed.

Lemma synapse_matrix_shape (rows cols : nat) :
  forall g : rng, samples_in_unit g ->
  matrix_of rows cols (fst (Tectum.synapse_matrix rows cols g)) /\
  cursor (snd (Tectum.synapse_matrix rows cols g)) = (cursor g + rows * cols)%nat /\
  sample (snd (Tectum.synapse_matrix rows cols g)) = sample g.
Proof.
  induction rows as [| rows IH]; intros g Hg.
  - cbn. unfold matrix_of. repeat split; [constructor | lia].
  - cbn [Tectum.synapse_matrix].
    destruct (synapse_row_shape cols Hg) as (Hlen & Hall & Hcur & Hsam).
    destruct (Tectum.synapse_row cols g) as [row g1]. cbn [fst snd] in *.
    assert (Hg1 : samples_in_unit g1) by (unfold samples_in_unit; rewrite Hsam; exact Hg).
    destruct (IH g1 Hg1) as ([Hrows Hmat] & Hcur2 & Hsam2).
    destruct (Tectum.synapse_matrix rows cols g1) as [rest g2]. cbn [fst snd] in *.
    split; [| split; [rewrite Hcur2, Hcur; lia | congruence]].
    unfold matrix_of. cbn [List.length]. split; [lia |].
    constructor; [split; assumption | exact Hmat].
Qed.

Lemma column_init_shape (position0 : R * R) (preferred_direction0 : R) (g : rng) :
  samples_in_unit g ->
  column_shape (fst (Tectum.column_init position0 preferred_direction0 g)) /\
  Tectum.position (fst (Tectum.column_init position0 preferred_direction0 g)) = position0 /\
  Tectum.preferred_direction (fst (Tectum.column_init position0 preferred_direction0 g))
    = preferred_direction0 /\
  cursor (snd (Tectum.column_init position0 preferred_direction0 g)) = (cursor g + 40)%nat /\
  sample (snd (Tectum.column_init position0 preferred_direction0 g)) = sample g.
Proof.
  intros Hg. unfold Tectum.column_init.
  destruct (synapse_matrix_shape 8 4 Hg) as (H84 & Hcur1 & Hsam1).
  destruct (Tectum.synapse_matrix 8 4 g) as [p2i g1]. cbn [fst snd] in *.
  assert (Hg1 : samples_in_unit g1) by (unfold samples_in_unit; rewrite Hsam1; exact Hg).
  destruct (synapse_matrix_shape 4 2 Hg1) as (H42 & Hcur2 & Hsam2).
  destruct (Tectum.synapse_matrix 4 2 g1) as [i2o g2]. cbn [fst snd] in *.
  unfold column_shape. cbn.
  split; [auto 6 |]. split; [reflexivity |]. split; [reflexivity |].
  split; [rewrite Hcur2, Hcur1; lia | congruence].
Qed.

Lemma build_columns_shape (total : Z) (n : nat) :
  forall (i : Z) (g : rng), samples_in_unit g ->
  List.length (fst (Tectum.build_columns total i n g)) = n /\
  Forall column_shape (fst (Tectum.build_columns total i n g)) /\
  (forall k : nat, (k < n)%nat ->
     exists c : Tectum.TectalColumn,
       nth_error (fst (Tectum.build_columns total i n g)) k = Some c /\
       Tectum.position c
         = (IZR ((i + Z.of_nat k) mod 4) * 100, IZR ((i + Z.of_nat k) / 4) * 100) /\
       Tectum.preferred_direction c = IZR (i + Z.of_nat k) / IZR total * 2 * PI) /\
  cursor (snd (Tectum.build_columns total i n g)) = (cursor g + 40 * n)%nat /\
  sample (snd (Tectum.build_columns total i n g)) = sample g.
Proof.
  induction n as [| n IH]; intros i g Hg.
  - cbn. split; [reflexivity |]. split; [constructor |].
    split; [intros k Hk; lia |]. split; [lia | reflexivity].
  - cbn [Tectum.build_columns]. cbv zeta.
    destruct (@column_init_shape (IZR (i mod 4) * 100, IZR (i / 4) * 100)
                (IZR i / IZR total * 2 * PI) g Hg) as (Hshape & Hpos & Hdir & Hcur & Hsam).
    destruct (Tectum.column_init _ _ g) as [column g1]. cbn [fst snd] in *.
    assert (Hg1 : samples_in_unit g1) by (unfold samples_in_unit; rewrite Hsam; exact Hg).
    destruct (IH (i + 1)%Z g1 Hg1) as (Hlen & Hall & Hnth & Hcur2 & Hsam2).
    destruct (Tectum.build_columns total (i + 1) n g1) as [rest g2]. cbn [fst snd] in *.
    split; [cbn; lia |]. split; [constructor; assumption |].
    split; [| split; [rewrite Hcur2, Hcur; lia | congruence]].
    intros k Hk. destruct k as [| k].
    + exists column. cbn [nth_error]. rewrite Z.add_0_r. auto.
    + destruct (Hnth k ltac:(lia)) as (c & Hc & Hcpos & Hcdir).
      exists c. cbn [nth_error]. split; [exact Hc |].
      replace (i + Z.of_nat (S k))%Z with (i + 1 + Z.of_nat k)%Z by lia. auto.
Qed.

(** X30.  [Tectum(columns, neurons_per_column)] with [columns >= 0] builds
    [columns] columns, and [neurons_per_column] is stored without being
    used: every column has 8 pyramidal neurons, 4 interneurons and 2
    output neurons, all with the default parameters, an 8 x 4 and a 4 x 2
    matrix of synapses whose weights are drawn from [[0.2, 0.8)].  Column
    [k] sits at [((k % 4) * 100, (k // 4) * 100)] and prefers the
    direction [k / columns * 2 * pi].  The constructor takes 40 samples
    of the random generator per column. *)
Theorem constructed_tectum_shape
    (columns0 neurons_per_column0 : Z) (g : rng) :
  samples_in_unit g -> (0 <= columns0)%Z ->
  let t := fst (Tectum.init columns0 neurons_per_column0 g) in
  let g' := snd (Tectum.init columns0 neurons_per_column0 g) in
  Tectum.num_columns t = columns0 /\
  Tectum.neurons_per_column t = neurons_per_column0 /\
  List.length (Tectum.columns t) = Z.to_nat columns0 /\
  Forall column_shape (Tectum.columns t) /\
  (forall k : nat, (k < Z.to_nat columns0)%nat ->
     exists c : Tectum.TectalColumn,
       nth_error (Tectum.columns t) k = Some c /\
       Tectum.position c
         = (IZR (Z.of_nat k mod 4) * 100, IZR (Z.of_nat k / 4) * 100) /\
       Tectum.preferred_direction c = IZR (Z.of_nat k) / IZR columns0 * 2 * PI) /\
  cursor g' = (cursor g + 40 * Z.to_nat columns0)%nat /\
  sample g' = sample g.
Proof.
  intros Hg Hn t g'. unfold t, g', Tectum.init.
  destruct (@build_columns_shape columns0 (Z.to_nat columns0) 0%Z g Hg)
    as (Hlen & Hall & Hnth & Hcur & Hsam).
  destruct (Tectum.build_columns columns0 0 (Z.to_nat columns0) g) as [cols g1].
  cbn [fst snd Tectum.num_columns Tectum.neurons_per_column Tectum.columns] in *.
  split; [reflexivity |]. split; [reflexivity |]. split; [exact Hlen |].
  split; [exact Hall |]. split; [| split; assumption].
  intros k Hk. destruct (Hnth k Hk) as (c & Hc & Hpos & Hdir).
  exists c. rewrite Z.add_0_l in Hpos, Hdir. auto.
Qed.

Lemma constructed_tectum_shape_witness :
  List.length (Tectum.columns (fst (Tectum.init 16 12 (mkRng (fun _ => 0.5) 0)))) = 16%nat /\
  cursor (snd (Tectum.init 16 12 (mkRng (fun _ => 0.5) 0))) = 640%nat.
Proof.
  assert (Hg : samples_in_unit (mkRng (fun _ => 0.5) 0)).
  { unfold samples_in_unit. intros k. cbn. lra. }
  destruct (@constructed_tectum_shape 16 12 (mkRng (fun _ => 0.5) 0) Hg ltac:(lia))
    as (_ & _ & Hlen & _ & _ & Hcur & _).
  split; [exact Hlen | exact Hcur].
Defined.

End TectumShapeFacts.
